(** * OTA firmware update pipeline: a shallow embedding

    Embedding of the four classes of [packages/tools/src/ota]
    ([FirmwareVersionManager], [FirmwareVerifier], [FirmwareDownloader],
    [OtaManager]) and the properties of the update life cycle.

    Conventions of the embedding.
    - JavaScript strings are [string]; all strings are taken to be ASCII, so
      that [String.length] is the JS [length] and [toLowerCase] only touches
      the letters A-Z.
    - A [Buffer] is a [list byte].
    - JS numbers that the code only uses as integers (sizes, percentages,
      timestamps) are [Z].  The numbers produced by [Number(segment)] in
      [compareVersions] are modelled by [JsNumber], with exact rational
      values: the model agrees with IEEE doubles whenever the values involved
      are representable, in particular for all integers below 2^53.
    - An optional field [f?: T] is an [option T]; JS truthiness of such a
      field is written out ([truthy_string], [truthy_number]).
    - The digest primitive of node's [crypto] is a parameter [createHash];
      the network is a parameter of each call ([Network]): what [fetch]
      would answer while the call runs.
    - Methods run in a state and error monad [M] over the stores of the
      downloader and of the manager; a run also lists its observable steps
      ([Event]): field writes on sessions, fetches, callback calls and the
      result of [verifyIntegrity].
    - Every [async] method is run to completion before the next one starts:
      the embedding is sequential. *)

From Stdlib Require Import ZArith QArith String Ascii List Lia Bool.
From Stdlib.Strings Require Import Byte.
From stdpp Require Import base gmap strings list.

Local Open Scope string_scope.
Local Open Scope Z_scope.

(** ** JavaScript strings and numbers *)

Module Js.

Definition code (c : ascii) : Z := Z.of_N (N_of_ascii c).

Definition in_range (lo hi : Z) (c : ascii) : bool :=
  (lo <=? code c) && (code c <=? hi).

Definition is_digit (c : ascii) : bool := in_range 48 57 c.
Definition is_upper (c : ascii) : bool := in_range 65 90 c.
Definition is_lower (c : ascii) : bool := in_range 97 122 c.

(** StrWhiteSpaceChar, ASCII part: TAB, LF, VT, FF, CR, SP. *)
Definition is_space (c : ascii) : bool := in_range 9 13 c || (code c =? 32).

Definition chars (s : string) : list ascii := list_ascii_of_string s.

(** [s.toLowerCase()] *)
Definition lower_char (c : ascii) : ascii :=
  if is_upper c then ascii_of_N (N_of_ascii c + 32) else c.

Fixpoint toLowerCase (s : string) : string :=
  match s with
  | EmptyString => EmptyString
  | String c rest => String (lower_char c) (toLowerCase rest)
  end.

(** [s.split(sep)] for a one-character separator: never the empty array. *)
Fixpoint split (sep : ascii) (s : string) : list string :=
  match s with
  | EmptyString => [EmptyString]
  | String c rest =>
      if Ascii.eqb c sep then EmptyString :: split sep rest
      else match split sep rest with
           | seg :: segs => String c seg :: segs
           | [] => [String c EmptyString]
           end
  end.

(** [arr.join(sep)] *)
Fixpoint join (sep : string) (l : list string) : string :=
  match l with
  | [] => ""
  | [x] => x
  | x :: rest => x +:+ sep +:+ join sep rest
  end.

(** Decimal rendering of an integer, as in a template literal. *)
Definition digit_char (d : Z) : ascii := ascii_of_N (Z.to_N (48 + d)).

Fixpoint render_pos (fuel : nat) (n : Z) (acc : string) : string :=
  match fuel with
  | O => acc
  | S f =>
      let acc' := String (digit_char (n mod 10)) acc in
      if n <? 10 then acc' else render_pos f (n / 10) acc'
  end.

Definition toString (n : Z) : string :=
  if n <? 0 then String "-" (render_pos (Z.to_nat (Z.log2 (- n)) + 1) (- n) "")
  else render_pos (Z.to_nat (Z.log2 n) + 1) n "".

(** *** Numbers *)

Inductive JsNumber : Type :=
| NaN
| Infinity (negative : bool)
| Finite (q : Q).

Definition Zero : JsNumber := Finite 0.

(** ToBoolean on a number: NaN and (both) zeros are falsy. *)
Definition truthy (n : JsNumber) : bool :=
  match n with
  | NaN => false
  | Infinity _ => true
  | Finite q => negb (Qeq_bool q 0)
  end.

(** [x > y] and [x < y] on numbers; any comparison with NaN is false. *)
Definition lt (x y : JsNumber) : bool :=
  match x, y with
  | NaN, _ | _, NaN => false
  | Infinity nx, Infinity ny => nx && negb ny
  | Infinity nx, Finite _ => nx
  | Finite _, Infinity ny => negb ny
  | Finite p, Finite q => negb (Qle_bool q p)
  end.

Definition gt (x y : JsNumber) : bool := lt y x.

Definition digit_of (base : Z) (c : ascii) : option Z :=
  let v :=
    if is_digit c then code c - 48
    else if in_range 97 102 c then code c - 87
    else if in_range 65 70 c then code c - 55
    else 99 in
  if v <? base then Some v else None.

(** Value of a digit string in the given base; [None] when a character is
    not a digit of that base. *)
Fixpoint digits_value (base : Z) (acc : Z) (cs : list ascii) : option Z :=
  match cs with
  | [] => Some acc
  | c :: rest =>
      match digit_of base c with
      | Some d => digits_value base (acc * base + d) rest
      | None => None
      end
  end.

Definition digits (base : Z) (cs : list ascii) : option Z :=
  match cs with
  | [] => None
  | _ => digits_value base 0 cs
  end.

Fixpoint span_digits (cs : list ascii) : list ascii * list ascii :=
  match cs with
  | c :: rest =>
      if is_digit c then
        let '(ds, tl) := span_digits rest in (c :: ds, tl)
      else ([], cs)
  | [] => ([], [])
  end.

Definition scale (m : Z) (e : Z) : Q := inject_Z m * Qpower (inject_Z 10) e.

(** ExponentPart after the [e]: an optional sign and at least one digit. *)
Definition exponent (cs : list ascii) : option Z :=
  match cs with
  | "+"%char :: ds => digits 10 ds
  | "-"%char :: ds => Z.opp <$> digits 10 ds
  | ds => digits 10 ds
  end.

(** StrUnsignedDecimalLiteral without a decimal point: [Infinity], or
    digits with an optional exponent part. *)
Definition unsigned_decimal (cs : list ascii) : JsNumber :=
  if decide (cs = chars "Infinity") then Infinity false
  else
    let '(ds, tl) := span_digits cs in
    match digits 10 ds, tl with
    | None, _ => NaN
    | Some m, [] => Finite (inject_Z m)
    | Some m, e :: ex =>
        if Ascii.eqb e "e" || Ascii.eqb e "E" then
          match exponent ex with
          | Some k => Finite (scale m k)
          | None => NaN
          end
        else NaN
    end.

Definition negate (n : JsNumber) : JsNumber :=
  match n with
  | NaN => NaN
  | Infinity b => Infinity (negb b)
  | Finite q => Finite (- q)
  end.

Definition of_digits (v : option Z) : JsNumber :=
  match v with
  | Some z => Finite (inject_Z z)
  | None => NaN
  end.

(** The prefix of a NonDecimalIntegerLiteral: its radix and its digits. *)
Definition radix_prefix (cs : list ascii) : option (Z * list ascii) :=
  match cs with
  | zero :: p :: ds =>
      if Ascii.eqb zero "0" then
        if Ascii.eqb p "x" || Ascii.eqb p "X" then Some (16, ds)
        else if Ascii.eqb p "o" || Ascii.eqb p "O" then Some (8, ds)
        else if Ascii.eqb p "b" || Ascii.eqb p "B" then Some (2, ds)
        else None
      else None
  | _ => None
  end.

(** StringNumericLiteral once the white space is stripped: empty, a
    non-decimal integer, or a decimal with an optional sign. *)
Definition numeric_literal (cs : list ascii) : JsNumber :=
  match cs with
  | [] => Zero
  | c :: rest =>
      match radix_prefix cs with
      | Some (base, ds) => of_digits (digits base ds)
      | None =>
          if Ascii.eqb c "+" then unsigned_decimal rest
          else if Ascii.eqb c "-" then negate (unsigned_decimal rest)
          else unsigned_decimal cs
      end
  end.

Fixpoint drop_space (cs : list ascii) : list ascii :=
  match cs with
  | c :: rest => if is_space c then drop_space rest else cs
  | [] => []
  end.

Definition trim (cs : list ascii) : list ascii :=
  rev (drop_space (rev (drop_space cs))).

(** [Number(s)] for a string without a decimal point (the segments of a
    split on "." have none). *)
Definition Number (s : string) : JsNumber := numeric_literal (trim (chars s)).

End Js.

(** ** Types ([types.ts]) *)

Definition Buffer := list byte.

Record FirmwareVersion : Type := {
  version : string;
  description : option string;
  releaseDate : option Z;          (* [Date], as its [getTime()] *)
  fileSize : option Z;
  fileUrl : option string;
  checksum : option string;
  signature : option string;
  forceUpdate : option bool;
  supportedDevices : option (list string)
}.

Record DownloadProgress : Type := {
  downloaded : Z;
  total : Z;
  percentage : Z
}.

Inductive OtaUpdateStatus : Type :=
| Idle | Checking | Downloading | Verifying | Installing | Completed | Failed.

Record OtaUpdateInfo : Type := {
  deviceId : string;
  currentVersion : string;
  targetVersion : option string;
  status : OtaUpdateStatus;
  progress : option Z;
  error : option string;
  startedAt : option Z;
  completedAt : option Z
}.

#[global] Instance OtaUpdateStatus_eq_dec : EqDecision OtaUpdateStatus.
Proof. solve_decision. Defined.

(** JS truthiness of optional fields: [undefined], the empty string and the
    number 0 are falsy. *)
Definition truthy_string (s : option string) : bool :=
  match s with
  | Some s' => negb (String.eqb s' "")
  | None => false
  end.

Definition truthy_number (n : option Z) : bool :=
  match n with
  | Some z => negb (z =? 0)
  | None => false
  end.

(** ** FirmwareVersionManager ([version.ts]) *)

Module FirmwareVersionManager.

(** The [versions] map.  Its iteration order is observable through
    [getAllVersions], so it is an association list in insertion order. *)
Definition Versions := list (string * FirmwareVersion).

(** [Map.prototype.set]: an existing key keeps its place. *)
Fixpoint map_set (k : string) (v : FirmwareVersion) (m : Versions) : Versions :=
  match m with
  | [] => [(k, v)]
  | (k', v') :: rest =>
      if String.eqb k' k then (k, v) :: rest else (k', v') :: map_set k v rest
  end.

Fixpoint map_get (k : string) (m : Versions) : option FirmwareVersion :=
  match m with
  | [] => None
  | (k', v') :: rest => if String.eqb k' k then Some v' else map_get k rest
  end.

Definition registerVersion (k : string) (firmware : FirmwareVersion)
  (versions : Versions) : Versions := map_set k firmware versions.

Definition getVersion (k : string) (versions : Versions)
  : option FirmwareVersion := map_get k versions.

Definition getAllVersions (versions : Versions) : list FirmwareVersion :=
  map snd versions.

(** [releaseDate?.getTime() || 0] *)
Definition date_key (v : FirmwareVersion) : Z :=
  match releaseDate v with
  | Some t => t
  | None => 0
  end.

(** [Array.prototype.sort] with the comparator [(a, b) => dateB - dateA]:
    a stable sort, written as an insertion sort. *)
Fixpoint sort_insert (a : FirmwareVersion) (sorted : list FirmwareVersion)
  : list FirmwareVersion :=
  match sorted with
  | [] => [a]
  | b :: rest =>
      if date_key b - date_key a <=? 0 then a :: sorted
      else b :: sort_insert a rest
  end.

Definition sort_by_date (l : list FirmwareVersion) : list FirmwareVersion :=
  foldr sort_insert [] l.

Definition getLatestVersion (versions : Versions) : option FirmwareVersion :=
  let all := getAllVersions versions in
  if (length all =? 0)%nat then None
  else head (sort_by_date all).

(** [v1Parts[i] || 0] *)
Definition part_or_zero (parts : list Js.JsNumber) (i : nat) : Js.JsNumber :=
  match parts !! i with
  | Some n => if Js.truthy n then n else Js.Zero
  | None => Js.Zero
  end.

(** The [for] loop of [compareVersions], from index [i] with [todo]
    iterations left. *)
Fixpoint compare_loop (v1Parts v2Parts : list Js.JsNumber) (i todo : nat) : Z :=
  match todo with
  | O => 0
  | S todo' =>
      let v1Part := part_or_zero v1Parts i in
      let v2Part := part_or_zero v2Parts i in
      if Js.gt v1Part v2Part then 1
      else if Js.lt v1Part v2Part then -1
      else compare_loop v1Parts v2Parts (S i) todo'
  end.

Definition compareVersions (version1 version2 : string) : Z :=
  let v1Parts := map Js.Number (Js.split "." version1) in
  let v2Parts := map Js.Number (Js.split "." version2) in
  let maxLength := Nat.max (length v1Parts) (length v2Parts) in
  compare_loop v1Parts v2Parts 0 maxLength.

Record NeedsUpdate : Type := {
  needsUpdate_flag : bool;
  latestVersion : option FirmwareVersion
}.

Definition needsUpdate (versions : Versions) (currentVersion : string)
  (targetVersion : option string) : NeedsUpdate :=
  let latest :=
    match targetVersion with
    | Some t => if truthy_string targetVersion then getVersion t versions
                else getLatestVersion versions
    | None => getLatestVersion versions
    end in
  match latest with
  | None => {| needsUpdate_flag := false; latestVersion := None |}
  | Some l =>
      let comparison := compareVersions currentVersion (version l) in
      {| needsUpdate_flag := comparison <? 0; latestVersion := Some l |}
  end.

Definition getUpgradeableVersions (versions : Versions) (currentVersion : string)
  : list FirmwareVersion :=
  filter (fun v => compareVersions currentVersion (version v) < 0)
         (getAllVersions versions).

(** *** The comparison as the specification words it

    Split on ".", read the leading digits of every segment as a
    non-negative integer (0 when there are none, or when the segment is
    missing), compare segment-wise, first difference decides. *)

Definition leading_digits (s : string) : Z :=
  match Js.digits_value 10 0 (fst (Js.span_digits (Js.chars s))) with
  | Some z => z
  | None => 0
  end.

Definition compare_int (x y : Z) : Z :=
  if y <? x then 1 else if x <? y then -1 else 0.

Fixpoint zero_against (b : list Z) : Z :=
  match b with
  | [] => 0
  | y :: b' => let c := compare_int 0 y in if c =? 0 then zero_against b' else c
  end.

Fixpoint compare_segments (a b : list Z) {struct a} : Z :=
  match a, b with
  | [], _ => zero_against b
  | x :: a', [] =>
      let c := compare_int x 0 in if c =? 0 then compare_segments a' [] else c
  | x :: a', y :: b' =>
      let c := compare_int x y in if c =? 0 then compare_segments a' b' else c
  end.

Definition compareVersions_spec (version1 version2 : string) : Z :=
  compare_segments (map leading_digits (Js.split "." version1))
                   (map leading_digits (Js.split "." version2)).

End FirmwareVersionManager.

(** ** FirmwareVerifier ([verify.ts]) *)

Inductive HashAlgorithm : Type := md5 | sha256.

Record VerificationResult : Type := {
  valid : bool;
  errors : list string
}.

Module FirmwareVerifier.

Section Verifier.

(** [createHash(algorithm).update(buffer).digest('hex')] of node's [crypto]:
    the digest primitive is external to the repository. *)
Variable createHash : HashAlgorithm -> Buffer -> string.

Definition calculateChecksum (firmwareData : Buffer) (algorithm : HashAlgorithm)
  : string := createHash algorithm firmwareData.

Definition verifyChecksum (firmwareData : Buffer) (expectedChecksum : string)
  : bool :=
  let algorithm :=
    if (String.length expectedChecksum =? 32)%nat then md5 else sha256 in
  let calculatedChecksum := createHash algorithm firmwareData in
  String.eqb (Js.toLowerCase calculatedChecksum)
             (Js.toLowerCase expectedChecksum).

(** The character class [[A-Za-z0-9+/=]]. *)
Definition is_base64_char (c : ascii) : bool :=
  Js.is_upper c || Js.is_lower c || Js.is_digit c
  || Ascii.eqb c "+" || Ascii.eqb c "/" || Ascii.eqb c "=".

(** [/^[A-Za-z0-9+/=]+$/.test(s)]: one or more characters, all in the class
    (without the [m] flag, [$] only matches at the very end). *)
Definition base64_regex_test (s : string) : bool :=
  match Js.chars s with
  | [] => false
  | cs => forallb is_base64_char cs
  end.

Definition isValidSignatureFormat (signature : string) : bool :=
  (0 <? String.length signature)%nat && base64_regex_test signature.

(** With a key, the source builds a [createVerify('RSA-SHA256')] object,
    feeds it the buffer, never asks it for a verdict and returns [true]. *)
Definition verifySignature (firmwareData : Buffer) (signature : string)
  (publicKey : option string) : bool :=
  if negb (truthy_string publicKey) then isValidSignatureFormat signature
  else true.

Definition size_error (expected got : Z) : string :=
  "File size mismatch: expected " +:+ Js.toString expected
  +:+ ", got " +:+ Js.toString got.

Definition checksum_error : string := "Checksum verification failed".
Definition signature_error : string := "Signature verification failed".

Definition push (errors : list string) (e : string) : list string :=
  (errors ++ [e])%list.

Definition verifyIntegrity (firmwareData : Buffer)
  (firmwareVersion : FirmwareVersion) : VerificationResult :=
  let errors : list string := [] in
  let buffer_length := Z.of_nat (length firmwareData) in
  let errors :=
    match fileSize firmwareVersion with
    | Some size =>
        if truthy_number (Some size) && negb (buffer_length =? size)
        then push errors (size_error size buffer_length) else errors
    | None => errors
    end in
  let errors :=
    match checksum firmwareVersion with
    | Some sum =>
        if truthy_string (Some sum) then
          let checksumValid := verifyChecksum firmwareData sum in
          if negb checksumValid then push errors checksum_error else errors
        else errors
    | None => errors
    end in
  let errors :=
    match signature firmwareVersion with
    | Some sig =>
        if truthy_string (Some sig) then
          let signatureValid := verifySignature firmwareData sig None in
          if negb signatureValid then push errors signature_error else errors
        else errors
    | None => errors
    end in
  {| valid := (length errors =? 0)%nat; errors := errors |}.

End Verifier.

End FirmwareVerifier.

(** ** Effects: the stores of the downloader and of the manager *)

(** What [fetch(url)] does when it is called: it rejects (network failure,
    or the abort of the timeout), or resolves to a response whose body, if
    any, is a stream of chunks that ends or fails. *)
Inductive StreamEnd : Type :=
| StreamDone
| StreamError (message : string).

Record Response : Type := {
  status_code : Z;
  content_length : option string;     (* the content-length header *)
  body : option (list Buffer * StreamEnd)
}.

Inductive FetchResult : Type :=
| FetchRejected (message : string)
| FetchResolved (response : Response).

Definition Network := string -> FetchResult.

(** Observable steps, in program order. *)
Inductive Event : Type :=
| EvStatus (device : string) (s : OtaUpdateStatus)  (* updateInfo.status = s *)
| EvProgress (device : string) (p : Z)              (* updateInfo.progress = p *)
| EvFetch (url : string)                            (* fetch(url, ...) *)
| EvOnProgress (p : DownloadProgress)               (* onProgress(p) *)
| EvVerify (device : string) (data : Buffer) (fv : FirmwareVersion)
           (result : VerificationResult).           (* verifyIntegrity returned *)

(** The session objects live in a heap: the [updates] map holds references,
    and the object a method works on is the one the map (and any caller of
    [getUpdateStatus]) sees. *)
Record State : Type := {
  versions : FirmwareVersionManager.Versions;
  downloadCache : gmap string Buffer;
  heap : list OtaUpdateInfo;
  updates : gmap string nat;
  clock : Z                                         (* logical time *)
}.

Inductive Outcome (A : Type) : Type :=
| Returned (a : A)
| Thrown (message : string).
Arguments Returned {A} a.
Arguments Thrown {A} message.

Record Run (A : Type) : Type := {
  outcome : Outcome A;
  final : State;
  events : list Event
}.
Arguments outcome {A} r.
Arguments final {A} r.
Arguments events {A} r.

Definition M (A : Type) : Type := State -> Run A.

Definition ret {A} (a : A) : M A :=
  fun s => {| outcome := Returned a; final := s; events := [] |}.

Definition throw {A} (message : string) : M A :=
  fun s => {| outcome := Thrown message; final := s; events := [] |}.

Definition bind {A B} (m : M A) (k : A -> M B) : M B :=
  fun s =>
    let r := m s in
    match outcome r with
    | Returned a =>
        let r' := k a (final r) in
        {| outcome := outcome r'; final := final r';
           events := events r ++ events r' |}
    | Thrown msg =>
        {| outcome := Thrown msg; final := final r; events := events r |}
    end.

(** [try { m } catch (error) { handler(error.message) }] *)
Definition try_catch {A} (m : M A) (handler : string -> M A) : M A :=
  fun s =>
    let r := m s in
    match outcome r with
    | Returned a => r
    | Thrown msg =>
        let r' := handler msg (final r) in
        {| outcome := outcome r'; final := final r';
           events := events r ++ events r' |}
    end.

Declare Scope ota_scope.
Delimit Scope ota_scope with ota.
Notation "'let*' x ':=' m 'in' k" := (bind m (fun x => k))
  (at level 10, x name, m at level 100, k at level 200) : ota_scope.
Notation "m ;;; k" := (bind m (fun _ => k))
  (at level 100, k at level 200, right associativity) : ota_scope.
Local Open Scope ota_scope.

Definition emit (e : Event) : M unit :=
  fun s => {| outcome := Returned tt; final := s; events := [e] |}.

Definition get_state : M State :=
  fun s => {| outcome := Returned s; final := s; events := [] |}.

Definition modify (f : State -> State) : M unit :=
  fun s => {| outcome := Returned tt; final := f s; events := [] |}.

Definition with_cache (f : gmap string Buffer -> gmap string Buffer) (s : State)
  : State :=
  {| versions := versions s; downloadCache := f (downloadCache s);
     heap := heap s; updates := updates s; clock := clock s |}.

Definition with_heap (f : list OtaUpdateInfo -> list OtaUpdateInfo) (s : State)
  : State :=
  {| versions := versions s; downloadCache := downloadCache s;
     heap := f (heap s); updates := updates s; clock := clock s |}.

Definition with_updates (f : gmap string nat -> gmap string nat) (s : State)
  : State :=
  {| versions := versions s; downloadCache := downloadCache s;
     heap := heap s; updates := f (updates s); clock := clock s |}.

Definition with_versions
  (f : FirmwareVersionManager.Versions -> FirmwareVersionManager.Versions)
  (s : State) : State :=
  {| versions := f (versions s); downloadCache := downloadCache s;
     heap := heap s; updates := updates s; clock := clock s |}.

(** [new Date()]: the logical clock is read and ticks. *)
Definition new_Date : M Z :=
  fun s => {| outcome := Returned (clock s);
              final := {| versions := versions s;
                          downloadCache := downloadCache s;
                          heap := heap s; updates := updates s;
                          clock := clock s + 1 |};
              events := [] |}.

(** A fresh object. *)
Definition new_object (o : OtaUpdateInfo) : M nat :=
  fun s => {| outcome := Returned (length (heap s));
              final := with_heap (fun h => (h ++ [o])%list) s; events := [] |}.

Definition initial_state : State :=
  {| versions := []; downloadCache := ∅; heap := []; updates := ∅; clock := 0 |}.

(** ** FirmwareDownloader ([download.ts]) *)

Module FirmwareDownloader.

Definition Callback := DownloadProgress -> M unit.

(** [parseInt(s, 10)]: leading white space, an optional sign, then the
    leading digits; [None] is NaN. *)
Definition parseInt10 (s : string) : option Z :=
  let cs := Js.drop_space (Js.chars s) in
  let '(negative, rest) :=
    match cs with
    | "-"%char :: r => (true, r)
    | "+"%char :: r => (false, r)
    | _ => (false, cs)
    end in
  match Js.digits 10 (fst (Js.span_digits rest)) with
  | Some z => Some (if negative then - z else z)
  | None => None
  end.

(** [contentLength ? parseInt(contentLength, 10) : 0] *)
Definition total_of (contentLength : option string) : option Z :=
  match contentLength with
  | Some h => if truthy_string contentLength then parseInt10 h else Some 0
  | None => Some 0
  end.

(** [total > 0], false for NaN. *)
Definition positive (total : option Z) : bool :=
  match total with
  | Some t => 0 <? t
  | None => false
  end.

(** [Math.round((downloaded / total) * 100)] for [total > 0], computed on
    exact quotients: halves round up. *)
Definition percent (downloaded total : Z) : Z :=
  (200 * downloaded + total) / (2 * total).

(** An [onProgress(p)] call. *)
Definition call (onProgress : Callback) (p : DownloadProgress) : M unit :=
  emit (EvOnProgress p) ;;; onProgress p.

(** The [while (true)] loop over [reader.read()]. *)
Fixpoint read_loop (onProgress : option Callback) (total : option Z)
  (stream : list Buffer) (stream_end : StreamEnd)
  (chunks : Buffer) (downloaded : Z) : M Buffer :=
  match stream with
  | [] =>
      match stream_end with
      | StreamDone => ret chunks
      | StreamError msg => throw msg
      end
  | value :: rest =>
      let chunks := (chunks ++ value)%list in
      let downloaded := downloaded + Z.of_nat (length value) in
      (match onProgress with
       | Some cb =>
           if positive total then
             call cb {| downloaded := downloaded;
                        total := default 0 total;
                        percentage := percent downloaded (default 0 total) |}
           else ret tt
       | None => ret tt
       end) ;;;
      read_loop onProgress total rest stream_end chunks downloaded
  end.

(** [fetchWithProgress], returning the bytes of the response it rebuilds.
    The [catch] only clears the timer and rethrows. *)
Definition fetchWithProgress (net : Network) (url : string)
  (onProgress : option Callback) : M Buffer :=
  emit (EvFetch url) ;;;
  match net url with
  | FetchRejected msg => throw msg
  | FetchResolved response =>
      if negb ((200 <=? status_code response) && (status_code response <=? 299))
      then throw ("HTTP error! status: " +:+ Js.toString (status_code response))
      else
        let total := total_of (content_length response) in
        match body response with
        | None => throw "Response body is null"
        | Some (stream, stream_end) =>
            read_loop onProgress total stream stream_end [] 0
        end
  end.

Definition cache_get (url : string) : M (option Buffer) :=
  let* s := get_state in ret (downloadCache s !! url).

Definition cache_set (url : string) (buffer : Buffer) : M unit :=
  modify (with_cache (fun c => <[url := buffer]> c)).

Definition download (net : Network) (url : string)
  (onProgress : option Callback) : M Buffer :=
  let* cached := cache_get url in
  match cached with
  | Some cached =>
      (match onProgress with
       | Some cb =>
           call cb {| downloaded := Z.of_nat (length cached);
                      total := Z.of_nat (length cached);
                      percentage := 100 |}
       | None => ret tt
       end) ;;;
      ret cached
  | None =>
      try_catch
        (let* buffer := fetchWithProgress net url onProgress in
         cache_set url buffer ;;;
         ret buffer)
        (fun msg => throw ("Firmware download failed: " +:+ msg))
  end.

Definition clearCache : M unit := modify (with_cache (fun _ => ∅)).

Section Checksums.
Variable createHash : HashAlgorithm -> Buffer -> string.

Definition calculateChecksum (data : Buffer) (algorithm : HashAlgorithm)
  : string := createHash algorithm data.

Definition verifyChecksum (data : Buffer) (expectedChecksum : string)
  (algorithm : HashAlgorithm) : bool :=
  String.eqb (Js.toLowerCase (calculateChecksum data algorithm))
             (Js.toLowerCase expectedChecksum).
End Checksums.

End FirmwareDownloader.

(** ** OtaManager ([manager.ts]) *)

Module OtaManager.

Section Manager.

Variable createHash : HashAlgorithm -> Buffer -> string.

Definition set_status (s : OtaUpdateStatus) (o : OtaUpdateInfo) : OtaUpdateInfo :=
  {| deviceId := deviceId o; currentVersion := currentVersion o;
     targetVersion := targetVersion o; status := s; progress := progress o;
     error := error o; startedAt := startedAt o; completedAt := completedAt o |}.

Definition set_progress (p : Z) (o : OtaUpdateInfo) : OtaUpdateInfo :=
  {| deviceId := deviceId o; currentVersion := currentVersion o;
     targetVersion := targetVersion o; status := status o; progress := Some p;
     error := error o; startedAt := startedAt o; completedAt := completedAt o |}.

Definition set_targetVersion (v : string) (o : OtaUpdateInfo) : OtaUpdateInfo :=
  {| deviceId := deviceId o; currentVersion := currentVersion o;
     targetVersion := Some v; status := status o; progress := progress o;
     error := error o; startedAt := startedAt o; completedAt := completedAt o |}.

Definition set_error (e : string) (o : OtaUpdateInfo) : OtaUpdateInfo :=
  {| deviceId := deviceId o; currentVersion := currentVersion o;
     targetVersion := targetVersion o; status := status o; progress := progress o;
     error := Some e; startedAt := startedAt o; completedAt := completedAt o |}.

Definition set_completedAt (t : Z) (o : OtaUpdateInfo) : OtaUpdateInfo :=
  {| deviceId := deviceId o; currentVersion := currentVersion o;
     targetVersion := targetVersion o; status := status o; progress := progress o;
     error := error o; startedAt := startedAt o; completedAt := Some t |}.

(** Field assignments on the object at reference [r]. *)
Definition assign (r : nat) (f : OtaUpdateInfo -> OtaUpdateInfo) : M unit :=
  modify (with_heap (alter f r)).

Definition assign_status (device : string) (r : nat) (s : OtaUpdateStatus)
  : M unit :=
  assign r (set_status s) ;;; emit (EvStatus device s).

Definition assign_progress (device : string) (r : nat) (p : Z) : M unit :=
  assign r (set_progress p) ;;; emit (EvProgress device p).

(** [this.updates.get], [this.updates.set], [this.updates.delete] *)
Definition updates_get (device : string) : M (option nat) :=
  let* s := get_state in ret (updates s !! device).

Definition updates_set (device : string) (r : nat) : M unit :=
  modify (with_updates (fun u => <[device := r]> u)).

Definition updates_delete (device : string) : M unit :=
  modify (with_updates (fun u => delete device u)).

(** The [try] block of [checkForUpdate]. *)
Definition check_catalog (device current : string) (updateInfo : nat)
  : M (option FirmwareVersion) :=
  let* s := get_state in
  let result := FirmwareVersionManager.needsUpdate (versions s) current None in
  (match FirmwareVersionManager.latestVersion result with
   | Some latest =>
       if FirmwareVersionManager.needsUpdate_flag result then
         assign_status device updateInfo Idle ;;;
         assign updateInfo (set_targetVersion (version latest))
       else assign_status device updateInfo Idle
   | None => assign_status device updateInfo Idle
   end) ;;;
  updates_set device updateInfo ;;;
  ret (FirmwareVersionManager.latestVersion result).

(** The [catch] block of [checkForUpdate]: kept as written, but never
    entered, [needsUpdate] of the concrete version manager being a total
    function. *)
Definition check_failed (device : string) (updateInfo : nat) (msg : string)
  : M (option FirmwareVersion) :=
  assign_status device updateInfo Failed ;;;
  assign updateInfo (set_error msg) ;;;
  updates_set device updateInfo ;;;
  throw msg.

Definition checkForUpdate (device : string) (current : string)
  : M (option FirmwareVersion) :=
  let* now := new_Date in
  let* updateInfo :=
    new_object {| deviceId := device; currentVersion := current;
                  targetVersion := None; status := Checking;
                  progress := None; error := None;
                  startedAt := Some now; completedAt := None |} in
  emit (EvStatus device Checking) ;;;
  updates_set device updateInfo ;;;
  try_catch (check_catalog device current updateInfo)
            (check_failed device updateInfo).

(** The [onProgress] closure of [downloadFirmware]: it captures the
    session object. *)
Definition progress_callback (device : string) (updateInfo : nat)
  : FirmwareDownloader.Callback :=
  fun p =>
    assign_progress device updateInfo (percentage p) ;;;
    updates_set device updateInfo.

(** The [try] block of [downloadFirmware] from the end of the download. *)
Definition verify_downloaded (device : string) (updateInfo : nat)
  (firmwareVersion : FirmwareVersion) (firmwareData : Buffer) : M Buffer :=
  assign_status device updateInfo Verifying ;;;
  assign_progress device updateInfo 90 ;;;
  updates_set device updateInfo ;;;
  let verification :=
    FirmwareVerifier.verifyIntegrity createHash firmwareData firmwareVersion in
  emit (EvVerify device firmwareData firmwareVersion verification) ;;;
  if negb (valid verification) then
    assign_status device updateInfo Failed ;;;
    assign updateInfo (set_error (Js.join ", " (errors verification))) ;;;
    updates_set device updateInfo ;;;
    throw ("Firmware verification failed: "
           +:+ Js.join ", " (errors verification))
  else
    assign_status device updateInfo Completed ;;;
    assign_progress device updateInfo 100 ;;;
    let* now := new_Date in
    assign updateInfo (set_completedAt now) ;;;
    updates_set device updateInfo ;;;
    ret firmwareData.

(** The [catch] block of [downloadFirmware]. *)
Definition record_failure (device : string) (updateInfo : nat) (msg : string)
  : M Buffer :=
  assign_status device updateInfo Failed ;;;
  assign updateInfo (set_error msg) ;;;
  updates_set device updateInfo ;;;
  throw msg.

(** The statements of [downloadFirmware] up to the URL check. *)
Definition begin_download (device : string) (firmwareVersion : FirmwareVersion)
  : M nat :=
  let* existing := updates_get device in
  let* updateInfo :=
    match existing with
    | Some r => ret r
    | None =>
        new_object {| deviceId := device; currentVersion := "";
                      targetVersion := None; status := Idle;
                      progress := None; error := None;
                      startedAt := None; completedAt := None |}
    end in
  assign_status device updateInfo Downloading ;;;
  assign_progress device updateInfo 0 ;;;
  assign updateInfo (set_targetVersion (version firmwareVersion)) ;;;
  updates_set device updateInfo ;;;
  ret updateInfo.

Definition downloadFirmware (net : Network) (device : string)
  (firmwareVersion : FirmwareVersion) : M Buffer :=
  let* updateInfo := begin_download device firmwareVersion in
  match fileUrl firmwareVersion with
  | Some url =>
      if negb (truthy_string (Some url))
      then throw "Firmware file URL is not specified"
      else
        try_catch
          (let* firmwareData :=
             FirmwareDownloader.download net url
               (Some (progress_callback device updateInfo)) in
           verify_downloaded device updateInfo firmwareVersion firmwareData)
          (record_failure device updateInfo)
  | None => throw "Firmware file URL is not specified"
  end.

Definition performUpdate (net : Network) (device : string) (current : string)
  : M Buffer :=
  let* latestVersion := checkForUpdate device current in
  match latestVersion with
  | None => throw "No update available"
  | Some latest => downloadFirmware net device latest
  end.

(** [this.updates.get(deviceId) || null]: the object itself, read here as
    its current contents. *)
Definition getUpdateStatus (s : State) (device : string) : option OtaUpdateInfo :=
  r ← updates s !! device; heap s !! r.

Definition cancelUpdate (device : string) : M unit :=
  let* existing := updates_get device in
  match existing with
  | Some updateInfo =>
      let* s := get_state in
      match heap s !! updateInfo with
      | Some o =>
          if decide (status o = Downloading) then
            assign_status device updateInfo Failed ;;;
            assign updateInfo (set_error "Update cancelled by user") ;;;
            updates_set device updateInfo
          else ret tt
      | None => ret tt
      end
  | None => ret tt
  end.

Definition clearUpdate (device : string) : M unit := updates_delete device.

End Manager.

End OtaManager.

(** ** Sequences of operations *)

(** The calls a client can make on one manager and on the version manager
    and downloader it was built from.  A call that throws leaves the client
    free to go on; each call carries the behaviour of the network while it
    runs. *)
Inductive Op : Type :=
| RegisterVersion (k : string) (firmware : FirmwareVersion)
| CheckForUpdate (device current : string)
| DownloadFirmware (net : Network) (device : string) (firmware : FirmwareVersion)
| PerformUpdate (net : Network) (device current : string)
| CancelUpdate (device : string)
| ClearUpdate (device : string)
| Download (net : Network) (url : string) (report : bool)
| ClearCache.

(** The client catches whatever the call throws. *)
Definition attempt {A} (m : M A) : M unit :=
  fun s =>
    let r := m s in
    {| outcome := Returned tt; final := final r; events := events r |}.

Definition silent_callback : FirmwareDownloader.Callback := fun _ => ret tt.

Definition run_op (createHash : HashAlgorithm -> Buffer -> string) (op : Op)
  : M unit :=
  match op with
  | RegisterVersion k firmware =>
      modify (with_versions (FirmwareVersionManager.registerVersion k firmware))
  | CheckForUpdate device current =>
      attempt (OtaManager.checkForUpdate device current)
  | DownloadFirmware net device firmware =>
      attempt (OtaManager.downloadFirmware createHash net device firmware)
  | PerformUpdate net device current =>
      attempt (OtaManager.performUpdate createHash net device current)
  | CancelUpdate device => OtaManager.cancelUpdate device
  | ClearUpdate device => OtaManager.clearUpdate device
  | Download net url report =>
      attempt (FirmwareDownloader.download net url
                 (if report then Some silent_callback else None))
  | ClearCache => FirmwareDownloader.clearCache
  end.

Fixpoint run_ops (createHash : HashAlgorithm -> Buffer -> string)
  (ops : list Op) : M unit :=
  match ops with
  | [] => ret tt
  | op :: rest => run_op createHash op ;;; run_ops createHash rest
  end.

Definition is_ClearCache (op : Op) : bool :=
  match op with
  | ClearCache => true
  | _ => false
  end.

(** *** Reading the trace *)

Definition is_fetch (e : Event) : bool :=
  match e with
  | EvFetch _ => true
  | _ => false
  end.

Definition is_fetch_of (url : string) (e : Event) : bool :=
  match e with
  | EvFetch u => String.eqb u url
  | _ => false
  end.

(** The values written to the [progress] field of a device's session. *)
Fixpoint progress_writes (device : string) (evs : list Event) : list Z :=
  match evs with
  | [] => []
  | EvProgress d p :: rest =>
      if String.eqb d device then p :: progress_writes device rest
      else progress_writes device rest
  | _ :: rest => progress_writes device rest
  end.

Fixpoint non_decreasing (l : list Z) : bool :=
  match l with
  | x :: ((y :: _) as rest) => (x <=? y) && non_decreasing rest
  | _ => true
  end.

(** ** Sample data *)

Module Sample.

(** A stand-in digest for running the definitions: the byte count, in
    decimal. *)
Definition count_hash (algorithm : HashAlgorithm) (data : Buffer) : string :=
  Js.toString (Z.of_nat (length data)).

Definition image : Buffer := [x01; x02]%byte.

Definition firmware (v : string) (size : option Z) (url sum sig : option string)
  : FirmwareVersion :=
  {| version := v; description := None; releaseDate := Some 1700000000000;
     fileSize := size; fileUrl := url; checksum := sum; signature := sig;
     forceUpdate := None; supportedDevices := None |}.

Definition v101 : FirmwareVersion :=
  firmware "1.0.1" (Some 2) (Some "https://fw.example/1.0.1.bin") (Some "2") None.

Definition no_url : FirmwareVersion :=
  firmware "1.0.1" (Some 2) None (Some "2") None.

(** A server that sends [image] in two chunks, with its length. *)
Definition server : Network :=
  fun _ => FetchResolved
    {| status_code := 200; content_length := Some "2";
       body := Some ([[x01]%byte; [x02]%byte], StreamDone) |}.

Definition offline : Network := fun _ => FetchRejected "fetch failed".

Definition catalog : State :=
  with_versions (FirmwareVersionManager.registerVersion "1.0.1" v101)
                initial_state.

End Sample.

(** ** Vocabulary of the properties *)

Module Checks.

Section Checks.

Variable createHash : HashAlgorithm -> Buffer -> string.

(** The three checks of [verifyIntegrity], each on its own.  A field is
    consulted when it is present and truthy. *)
Definition size_fails (data : Buffer) (fv : FirmwareVersion) : bool :=
  match fileSize fv with
  | Some size => negb (size =? 0) && negb (Z.of_nat (length data) =? size)
  | None => false
  end.

Definition checksum_fails (data : Buffer) (fv : FirmwareVersion) : bool :=
  match checksum fv with
  | Some sum =>
      negb (String.eqb sum "")
      && negb (FirmwareVerifier.verifyChecksum createHash data sum)
  | None => false
  end.

Definition signature_fails (fv : FirmwareVersion) : bool :=
  match signature fv with
  | Some sig =>
      negb (String.eqb sig "")
      && negb (FirmwareVerifier.isValidSignatureFormat sig)
  | None => false
  end.

(** The same checks when every declared (present) field is consulted,
    whatever its value. *)
Definition declared_size_fails (data : Buffer) (fv : FirmwareVersion) : bool :=
  match fileSize fv with
  | Some size => negb (Z.of_nat (length data) =? size)
  | None => false
  end.

Definition declared_checksum_fails (data : Buffer) (fv : FirmwareVersion)
  : bool :=
  match checksum fv with
  | Some sum => negb (FirmwareVerifier.verifyChecksum createHash data sum)
  | None => false
  end.

Definition count (b : bool) : nat := if b then 1%nat else 0%nat.

Definition report (b : bool) (message : string) : list string :=
  if b then [message] else [].

End Checks.

(** The base64 alphabet, letter by letter. *)
Definition base64_alphabet : string :=
  "ABCDEFGHIJKLMNOPQRSTUVWXYZabcdefghijklmnopqrstuvwxyz0123456789+/=".

Definition over_base64 (s : string) : Prop :=
  forall c, In c (Js.chars s) -> In c (Js.chars base64_alphabet).

Definition without_signature (fv : FirmwareVersion) : FirmwareVersion :=
  {| version := version fv; description := description fv;
     releaseDate := releaseDate fv; fileSize := fileSize fv;
     fileUrl := fileUrl fv; checksum := checksum fv; signature := None;
     forceUpdate := forceUpdate fv; supportedDevices := supportedDevices fv |}.

End Checks.

(** ** Vocabulary of the runs *)

(** Started in a state where [I] holds, [m] ends in a state where [I]
    holds and all the events it produces satisfy [Q]. *)
Definition ensures {A} (I : State -> Prop) (Q : Event -> Prop) (m : M A) : Prop :=
  forall s, I s -> I (final (m s)) /\ Forall Q (events (m s)).

Definition any_state (s : State) : Prop := True.
Definition any_event (e : Event) : Prop := True.

Definition not_completion (e : Event) : Prop :=
  forall device, e <> EvStatus device Completed.

Definition not_fetch_of (url : string) (e : Event) : Prop :=
  is_fetch_of url e = false.

(** Wherever the trace marks a device Completed, the event just before is
    the return of [verifyIntegrity] on that device's download, with no
    errors. *)
Definition completions_verified
  (createHash : HashAlgorithm -> Buffer -> string) (evs : list Event) : Prop :=
  forall before device after,
    evs = (before ++ EvStatus device Completed :: after)%list ->
    exists earlier data fv,
      before
      = (earlier
         ++ [EvVerify device data fv
               (FirmwareVerifier.verifyIntegrity createHash data fv)])%list
      /\ errors (FirmwareVerifier.verifyIntegrity createHash data fv) = []
      /\ valid (FirmwareVerifier.verifyIntegrity createHash data fv) = true.

(** [url] is cached, with content [buffer]. *)
Definition cached_as (url : string) (buffer : Buffer) (s : State) : Prop :=
  downloadCache s !! url = Some buffer.

(** A callback that leaves the downloader's cache alone. *)
Definition keeps_cache (onProgress : option FirmwareDownloader.Callback) : Prop :=
  forall cb p s,
    onProgress = Some cb -> downloadCache (final (cb p s)) = downloadCache s.

(** The progress reported on a cache hit. *)
Definition full_progress (cached : Buffer) : DownloadProgress :=
  {| downloaded := Z.of_nat (length cached);
     total := Z.of_nat (length cached);
     percentage := 100 |}.

(** A field assignment that leaves the identity of the session alone. *)
Definition keeps_identity (f : OtaUpdateInfo -> OtaUpdateInfo) : Prop :=
  forall o, deviceId (f o) = deviceId o /\ currentVersion (f o) = currentVersion o.

(** The map sends [device] to the object [r], a session of [device] whose
    [currentVersion] is [current]. *)
Definition session_of (device current : string) (r : nat) (s : State) : Prop :=
  updates s !! device = Some r
  /\ exists o, heap s !! r = Some o
               /\ deviceId o = device /\ currentVersion o = current.

(** The number of a segment made of digits only. *)
Definition of_int (z : Z) : Js.JsNumber := Js.Finite (inject_Z z).

(** All the segments of the version are made of digits. *)
Definition plain (v : string) : bool :=
  forallb (fun seg => forallb Js.is_digit (Js.chars seg)) (Js.split "." v).

(** Every session in the map is an object of the heap that carries the
    device's id. *)
Definition sessions_owned (s : State) : Prop :=
  forall device r,
    updates s !! device = Some r ->
    exists o, heap s !! r = Some o /\ deviceId o = device.

(** Every object that is Completed was marked so in the trace. *)
Definition completions_logged (s : State) (trace : list Event) : Prop :=
  forall r o,
    heap s !! r = Some o -> status o = Completed ->
    In (EvStatus (deviceId o) Completed) trace.

Definition tracked (s : State) (trace : list Event) : Prop :=
  sessions_owned s /\ completions_logged s trace.

(** The object [r] is a session object of [device]. *)
Definition holds (device : string) (r : nat) (s : State) : Prop :=
  exists o, heap s !! r = Some o /\ deviceId o = device.

(** [m] keeps the trace in step with the sessions, and keeps [K]. *)
Definition maintains {A} (K : State -> Prop) (m : M A) : Prop :=
  forall s trace,
    tracked s trace -> K s ->
    tracked (final (m s)) (trace ++ events (m s)) /\ K (final (m s)).

(** A manager that has not been used yet, whatever its catalog and the
    cache of its downloader. *)
Definition pristine (s : State) : Prop := updates s = ∅ /\ heap s = [].

(** ** Vocabulary of the further properties *)

(** The length of the hex digest that node's [crypto] returns for each of
    the two algorithms the code names. *)
Definition digest_length (algorithm : HashAlgorithm) : nat :=
  match algorithm with
  | md5 => 32
  | sha256 => 64
  end.

(** A stand-in digest with the lengths of the real ones: the byte count,
    padded on the left with the letter a. *)
Module Padded.

Fixpoint pad (n : nat) (s : string) : string :=
  match n with
  | O => s
  | S n' => String "a" (pad n' s)
  end.

Definition hash (algorithm : HashAlgorithm) (data : Buffer) : string :=
  let count := Js.toString (Z.of_nat (length data)) in
  pad (digest_length algorithm - String.length count) count.

End Padded.

(** A number that is not NaN. *)
Definition is_number (x : Js.JsNumber) : Prop := x <> Js.NaN.

(** A callback that always returns. *)
Definition returns_always (onProgress : option FirmwareDownloader.Callback)
  : Prop :=
  forall cb p s, onProgress = Some cb -> outcome (cb p s) = Returned tt.

(** The progress records handed to [onProgress], in order. *)
Fixpoint reports (evs : list Event) : list DownloadProgress :=
  match evs with
  | [] => []
  | EvOnProgress p :: rest => p :: reports rest
  | _ :: rest => reports rest
  end.

(** A callback that does not itself call [onProgress]. *)
Definition reports_nothing (onProgress : option FirmwareDownloader.Callback)
  : Prop :=
  forall cb p s, onProgress = Some cb -> reports (events (cb p s)) = [].

(** The byte counts after each chunk of a stream, from [downloaded]. *)
Fixpoint running (downloaded : Z) (stream : list Buffer) : list Z :=
  match stream with
  | [] => []
  | value :: rest =>
      let downloaded := downloaded + Z.of_nat (length value) in
      downloaded :: running downloaded rest
  end.

(** [response.ok] *)
Definition is_ok (response : Response) : bool :=
  (200 <=? status_code response) && (status_code response <=? 299).

Definition download_failed (cause : string) : string :=
  "Firmware download failed: " +:+ cause.

(** ** FirmwareDownloader: the file operations ([download.ts]) *)

(** The part of the file system the downloader touches: the files, and for
    each path the error [fs.writeFile] throws there, if any. *)
Record Disk : Type := {
  files : gmap string Buffer;
  write_error : string -> option string
}.

Module DownloaderFiles.

(** [fs.writeFile(filePath, buffer)]: the file is replaced. *)
Definition writeFile (disk : Disk) (filePath : string) (buffer : Buffer)
  : M Disk :=
  match write_error disk filePath with
  | Some msg => throw msg
  | None =>
      ret {| files := <[filePath := buffer]> (files disk);
             write_error := write_error disk |}
  end.

(** [(await fs.stat(filePath)).size]; it throws when there is no file. *)
Definition stat_size (disk : Disk) (filePath : string) : M Z :=
  match files disk !! filePath with
  | Some content => ret (Z.of_nat (length content))
  | None => throw "ENOENT: no such file or directory"
  end.

Definition downloadToFile (net : Network) (url : string)
  (onProgress : option FirmwareDownloader.Callback)
  (disk : Disk) (filePath : string) : M Disk :=
  let* buffer := FirmwareDownloader.download net url onProgress in
  try_catch (writeFile disk filePath buffer)
    (fun msg => throw ("Failed to write firmware file: " +:+ msg)).

(** [startByte] is set from the size of the file and not read again. *)
Definition downloadWithResume (net : Network) (url : string)
  (onProgress : option FirmwareDownloader.Callback)
  (disk : Disk) (filePath : string) : M Disk :=
  let* startByte := try_catch (stat_size disk filePath) (fun _ => ret 0) in
  downloadToFile net url onProgress disk filePath.

End DownloaderFiles.

(** ** Vocabulary of the sessions *)

(** Started in a state where [P] holds, [m] ends with an outcome and in a
    state that [Q] accepts. *)
Definition leads {A} (P : State -> Prop) (m : M A)
  (Q : Outcome A -> State -> Prop) : Prop :=
  forall s, P s -> Q (outcome (m s)) (final (m s)).

(** The run returns, with a value and in a state that [R] accepts. *)
Definition returns {A} (R : A -> State -> Prop) (out : Outcome A) (s : State)
  : Prop :=
  match out with
  | Returned a => R a s
  | Thrown _ => False
  end.

(** The catalog is [vs], the map of the sessions satisfies [U], the object
    [r] holds [o] and the clock reads [t]. *)
Definition state_is (vs : FirmwareVersionManager.Versions)
  (U : gmap string nat -> Prop) (r : nat) (o : OtaUpdateInfo) (t : Z)
  (s : State) : Prop :=
  versions s = vs /\ U (updates s) /\ heap s !! r = Some o /\ clock s = t.

(** The same, the session of [device] being the object [r]. *)
Definition session_is (vs : FirmwareVersionManager.Versions) (device : string)
  (r : nat) (o : OtaUpdateInfo) (t : Z) (s : State) : Prop :=
  state_is vs (fun u => u !! device = Some r) r o t s.

Definition with_progress (p : option Z) (o : OtaUpdateInfo) : OtaUpdateInfo :=
  {| deviceId := deviceId o; currentVersion := currentVersion o;
     targetVersion := targetVersion o; status := status o; progress := p;
     error := error o; startedAt := startedAt o; completedAt := completedAt o |}.

(** The object [downloadFirmware] starts from when the device has no
    session. *)
Definition new_session (device : string) : OtaUpdateInfo :=
  {| deviceId := device; currentVersion := ""; targetVersion := None;
     status := Idle; progress := None; error := None;
     startedAt := None; completedAt := None |}.

(** The session [downloadFirmware] works on. *)
Definition session_before (s : State) (device : string) : OtaUpdateInfo :=
  default (new_session device) (OtaManager.getUpdateStatus s device).

(** [o'] is [o] but for its status, progress and error. *)
Definition same_run (o o' : OtaUpdateInfo) : Prop :=
  deviceId o' = deviceId o /\ currentVersion o' = currentVersion o
  /\ targetVersion o' = targetVersion o /\ startedAt o' = startedAt o
  /\ completedAt o' = completedAt o.

(** The object [downloadFirmware] makes of the session [o] before the
    transfer starts. *)
Definition downloading (fv : FirmwareVersion) (o : OtaUpdateInfo)
  : OtaUpdateInfo :=
  OtaManager.set_targetVersion (version fv)
    (OtaManager.set_progress 0 (OtaManager.set_status Downloading o)).

(** The sessions are owned and [getUpdateStatus other] returns [v]. *)
Definition apart (other : string) (v : option OtaUpdateInfo) (s : State)
  : Prop :=
  sessions_owned s /\ OtaManager.getUpdateStatus s other = v.

(** The operation is a call of the manager for [device]. *)
Definition concerns (device : string) (op : Op) : bool :=
  match op with
  | CheckForUpdate d _ | DownloadFirmware _ d _ | PerformUpdate _ d _
  | CancelUpdate d | ClearUpdate d => String.eqb d device
  | RegisterVersion _ _ | Download _ _ _ | ClearCache => false
  end.

(** ** FirmwareVersionManager: the version format ([version.ts]) *)

(** Regular expressions without groups to refer back to, matched against
    a whole string: what [/^...$/.test(s)] decides. *)
Module Regex.

Inductive Re : Type :=
| Never
| Empty
| Class (p : ascii -> bool)
| Seq (r1 r2 : Re)
| Alt (r1 r2 : Re)
| Star (r : Re).

Fixpoint nullable (r : Re) : bool :=
  match r with
  | Never => false
  | Empty => true
  | Class _ => false
  | Seq r1 r2 => nullable r1 && nullable r2
  | Alt r1 r2 => nullable r1 || nullable r2
  | Star _ => true
  end.

(** What is left to match once [c] is read. *)
Fixpoint derive (c : ascii) (r : Re) : Re :=
  match r with
  | Never => Never
  | Empty => Never
  | Class p => if p c then Empty else Never
  | Seq r1 r2 =>
      if nullable r1 then Alt (Seq (derive c r1) r2) (derive c r2)
      else Seq (derive c r1) r2
  | Alt r1 r2 => Alt (derive c r1) (derive c r2)
  | Star r1 => Seq (derive c r1) (Star r1)
  end.

Fixpoint matches (r : Re) (cs : list ascii) : bool :=
  match cs with
  | [] => nullable r
  | c :: rest => matches (derive c r) rest
  end.

(** [r+], [r?] and a literal character. *)
Definition plus (r : Re) : Re := Seq r (Star r).
Definition opt (r : Re) : Re := Alt r Empty.
Definition char (c : ascii) : Re := Class (Ascii.eqb c).

(** The strings a regular expression stands for. *)
Inductive Matches : Re -> list ascii -> Prop :=
| MEmpty : Matches Empty []
| MClass p c : p c = true -> Matches (Class p) [c]
| MSeq r1 r2 a b :
    Matches r1 a -> Matches r2 b -> Matches (Seq r1 r2) (a ++ b)
| MAltL r1 r2 a : Matches r1 a -> Matches (Alt r1 r2) a
| MAltR r1 r2 a : Matches r2 a -> Matches (Alt r1 r2) a
| MStarNil r : Matches (Star r) []
| MStarCons r a b :
    Matches r a -> Matches (Star r) b -> Matches (Star r) (a ++ b).

End Regex.

Module VersionFormat.

Import Regex.

(** [\d] *)
Definition digit : Re := Class Js.is_digit.

(** [.] without the [s] flag: any character but a line terminator. *)
Definition not_line_terminator (c : ascii) : bool :=
  negb ((Js.code c =? 10) || (Js.code c =? 13)).

(** The pattern of [isValidVersion], piece by piece: [^], [\d+], [\.],
    [\d+], the optional group [\.\d+], the optional group of a hyphen and
    [.] repeated, [$]. *)
Definition version_pattern : Re :=
  Seq (plus digit)
    (Seq (char ".")
       (Seq (plus digit)
          (Seq (opt (Seq (char ".") (plus digit)))
               (opt (Seq (char "-") (Star (Class not_line_terminator))))))).

Definition isValidVersion (version : string) : bool :=
  matches version_pattern (Js.chars version).

End VersionFormat.

(** A non-empty run of digits. *)
Definition digits_only (l : list ascii) : Prop :=
  l <> [] /\ forallb Js.is_digit l = true.

(** major.minor, then an optional .patch, then an optional suffix that
    starts with a hyphen and has no line break. *)
Definition version_shape (cs : list ascii) : Prop :=
  exists major minor patch suffix,
    cs = (major ++ "."%char :: minor ++ patch ++ suffix)%list
    /\ digits_only major /\ digits_only minor
    /\ (patch = [] \/ exists p, patch = "."%char :: p /\ digits_only p)
    /\ (suffix = []
        \/ exists rest,
             suffix = "-"%char :: rest
             /\ forallb VersionFormat.not_line_terminator rest = true).

(** The fetch does not deliver a complete body, for the reason [cause]. *)
Definition fails_with (result : FetchResult) (cause : string) : Prop :=
  match result with
  | FetchRejected msg => cause = msg
  | FetchResolved response =>
      if negb (is_ok response)
      then cause = "HTTP error! status: "
                   +:+ Js.toString (status_code response)
      else match body response with
           | None => cause = "Response body is null"
           | Some (_, StreamError msg) => cause = msg
           | Some (_, StreamDone) => False
           end
  end.

(** The statuses a session has between two calls. *)
Definition at_rest (st : OtaUpdateStatus) : Prop :=
  st = Idle \/ st = Downloading \/ st = Completed \/ st = Failed.

Definition not_installing (e : Event) : Prop :=
  forall device, e <> EvStatus device Installing.

(** Every session of the map is at rest. *)
Definition sessions_at_rest (s : State) : Prop :=
  forall device o,
    OtaManager.getUpdateStatus s device = Some o -> at_rest (status o).

(** * Properties *)

(** ** FirmwareVerifier *)

Module VerifierFacts.

Import FirmwareVerifier Checks.

#[local] Arguments size_error : simpl never.
#[local] Arguments verifyChecksum : simpl never.
#[local] Arguments isValidSignatureFormat : simpl never.

Lemma verifySignature_without_key (data : Buffer) (sig : string) :
  verifySignature data sig None = isValidSignatureFormat sig.
Proof. reflexivity. Qed.

Lemma errors_of_verifyIntegrity createHash (data : Buffer) (fv : FirmwareVersion) :
  errors (verifyIntegrity createHash data fv)
  = (report (size_fails data fv)
            (size_error (default 0 (fileSize fv)) (Z.of_nat (length data)))
     ++ report (checksum_fails createHash data fv) checksum_error
     ++ report (signature_fails fv) signature_error)%list.
Proof.
  unfold verifyIntegrity, size_fails, checksum_fails, signature_fails,
    truthy_number, truthy_string, push.
  destruct (fileSize fv) as [size|], (checksum fv) as [sum|],
    (signature fv) as [sig|]; rewrite ?verifySignature_without_key; simpl;
    repeat match goal with
           | |- context [negb ?b] => destruct b; simpl
           end; reflexivity.
Qed.

Lemma valid_is_no_errors createHash (data : Buffer) (fv : FirmwareVersion) :
  valid (verifyIntegrity createHash data fv)
  = (length (errors (verifyIntegrity createHash data fv)) =? 0)%nat.
Proof. reflexivity. Qed.

Lemma valid_has_no_errors createHash (data : Buffer) (fv : FirmwareVersion) :
  valid (verifyIntegrity createHash data fv) = true ->
  errors (verifyIntegrity createHash data fv) = [].
Proof.
  rewrite valid_is_no_errors.
  destruct (errors (verifyIntegrity createHash data fv));
    [reflexivity | discriminate].
Qed.

Lemma length_report (b : bool) (message : string) :
  length (report b message) = count b.
Proof. destruct b; reflexivity. Qed.

(** C5, as amended.  [verifyIntegrity] runs the size, checksum and signature
    checks independently, each one when its field is present and truthy
    (a non-zero [fileSize], a non-empty [checksum], a non-empty
    [signature]); every failed check adds exactly one message, in that
    order; [valid] is [errors.length == 0]; and a buffer failing the size
    and the checksum checks while the signature check does not fail gets
    exactly two errors. *)
Theorem verifyIntegrity_independent_checks
  createHash (data : Buffer) (fv : FirmwareVersion) :
  let result := verifyIntegrity createHash data fv in
  errors result
  = (report (size_fails data fv)
            (size_error (default 0 (fileSize fv)) (Z.of_nat (length data)))
     ++ report (checksum_fails createHash data fv) checksum_error
     ++ report (signature_fails fv) signature_error)%list
  /\ length (errors result)
     = (count (size_fails data fv) + count (checksum_fails createHash data fv)
        + count (signature_fails fv))%nat
  /\ valid result = (length (errors result) =? 0)%nat
  /\ (size_fails data fv = true ->
      checksum_fails createHash data fv = true ->
      signature_fails fv = false ->
      length (errors result) = 2%nat).
Proof.
  intros result. subst result.
  pose proof (errors_of_verifyIntegrity createHash data fv) as E.
  assert (L : length (errors (verifyIntegrity createHash data fv))
              = (count (size_fails data fv)
                 + count (checksum_fails createHash data fv)
                 + count (signature_fails fv))%nat).
  { rewrite E, !length_app, !length_report. lia. }
  repeat split.
  - exact E.
  - exact L.
  - intros Hs Hc Hg. rewrite L, Hs, Hc, Hg. reflexivity.
Qed.

Lemma verifyIntegrity_independent_checks_witness :
  length (errors (verifyIntegrity Sample.count_hash Sample.image
                    (Sample.firmware "1.0.1" (Some 3) None (Some "7") None)))
  = 2%nat.
Proof.
  apply (verifyIntegrity_independent_checks Sample.count_hash Sample.image
           (Sample.firmware "1.0.1" (Some 3) None (Some "7") None));
    reflexivity.
Defined.

(** C5, as stated, fails: a declared [fileSize] of 0 is never compared with
    the buffer.  This one-byte buffer fails the declared size and the
    declared checksum, and gets one error. *)
Lemma verifyIntegrity_skips_zero_size :
  let fv := Sample.firmware "1.0.1" (Some 0) None (Some "7") None in
  declared_size_fails [x01]%byte fv = true
  /\ declared_checksum_fails Sample.count_hash [x01]%byte fv = true
  /\ errors (verifyIntegrity Sample.count_hash [x01]%byte fv)
     = [checksum_error].
Proof. repeat split. Qed.

Lemma in_alphabet_is_base64_char (c : ascii) :
  In c (Js.chars base64_alphabet) -> is_base64_char c = true.
Proof.
  intros H. cbv [Js.chars base64_alphabet list_ascii_of_string] in H.
  repeat (destruct H as [<-|H]; [reflexivity|]).
  destruct H.
Qed.

Lemma base64_string_is_valid_format (sig : string) :
  sig <> "" -> over_base64 sig -> isValidSignatureFormat sig = true.
Proof.
  unfold isValidSignatureFormat, base64_regex_test, over_base64.
  intros Hne Hall. destruct sig as [|c rest]; [congruence|].
  cbn [String.length Js.chars list_ascii_of_string] in *.
  apply forallb_forall. intros x Hx. apply in_alphabet_is_base64_char.
  apply Hall. exact Hx.
Qed.

(** C9.  [verifyIntegrity] calls [verifySignature] without a key, so the
    signature check is the structural one: when the version's signature is
    a non-empty string over the base64 alphabet, the check passes whatever
    the buffer is, and the result is the one of the same version without a
    signature. *)
Theorem verifyIntegrity_signature_is_structural
  createHash (data : Buffer) (fv : FirmwareVersion) (sig : string) :
  signature fv = Some sig ->
  sig <> "" ->
  over_base64 sig ->
  verifySignature data sig None = true
  /\ ~ In signature_error (errors (verifyIntegrity createHash data fv))
  /\ verifyIntegrity createHash data fv
     = verifyIntegrity createHash data (without_signature fv).
Proof.
  intros Hsig Hne Hb64.
  pose proof (base64_string_is_valid_format sig Hne Hb64) as Hfmt.
  assert (Hfails : signature_fails fv = false).
  { unfold signature_fails. rewrite Hsig, Hfmt. apply andb_false_r. }
  split; [exact Hfmt|]. split.
  - rewrite errors_of_verifyIntegrity, Hfails. simpl. rewrite app_nil_r.
    intros Hin. apply in_app_or in Hin. destruct Hin as [Hin|Hin].
    + destruct (size_fails data fv); simpl in Hin; [|contradiction].
      destruct Hin as [Hin|[]]. unfold size_error in Hin. discriminate Hin.
    + destruct (checksum_fails createHash data fv); simpl in Hin;
        [|contradiction].
      destruct Hin as [Hin|[]]. discriminate Hin.
  - unfold verifyIntegrity, without_signature. simpl. rewrite Hsig.
    rewrite verifySignature_without_key, Hfmt.
    unfold truthy_string.
    destruct (String.eqb sig ""); reflexivity.
Qed.

Lemma verifyIntegrity_signature_is_structural_witness :
  ~ In signature_error
      (errors (verifyIntegrity Sample.count_hash Sample.image
                 (Sample.firmware "1.0.1" None None None (Some "QUJD+/8="))))
  /\ ~ In signature_error
      (errors (verifyIntegrity Sample.count_hash []
                 (Sample.firmware "1.0.1" None None None (Some "QUJD+/8=")))).
Proof.
  assert (H : over_base64 "QUJD+/8=").
  { intros c Hc. cbv [Js.chars list_ascii_of_string] in Hc.
    cbv [Js.chars base64_alphabet list_ascii_of_string].
    repeat (destruct Hc as [<-|Hc]; [simpl; tauto|]). destruct Hc. }
  split.
  - apply (verifyIntegrity_signature_is_structural Sample.count_hash
             Sample.image
             (Sample.firmware "1.0.1" None None None (Some "QUJD+/8="))
             "QUJD+/8=" eq_refl); [discriminate|exact H].
  - apply (verifyIntegrity_signature_is_structural Sample.count_hash
             []
             (Sample.firmware "1.0.1" None None None (Some "QUJD+/8="))
             "QUJD+/8=" eq_refl); [discriminate|exact H].
Defined.

(** C3, as amended.  With a non-empty key [verifySignature] returns [true]
    for every buffer and signature: no verification primitive decides the
    result.  With no key, or an empty one, the result is the structural
    check of the signature's format. *)
Theorem verifySignature_with_key_accepts
  (data : Buffer) (sig : string) (key : option string) :
  (truthy_string key = true -> verifySignature data sig key = true)
  /\ (truthy_string key = false ->
      verifySignature data sig key = isValidSignatureFormat sig).
Proof.
  unfold verifySignature. split; intros ->; reflexivity.
Qed.

Lemma verifySignature_with_key_accepts_witness :
  verifySignature Sample.image "" (Some "-----BEGIN PUBLIC KEY-----") = true.
Proof.
  apply (verifySignature_with_key_accepts Sample.image ""
           (Some "-----BEGIN PUBLIC KEY-----")).
  reflexivity.
Defined.

(** C3, as stated, fails: no buffer, signature and supplied key make
    [verifySignature] return [false], not even the empty signature. *)
Lemma verifySignature_never_rejects :
  verifySignature Sample.image "" (Some "-----BEGIN PUBLIC KEY-----") = true
  /\ ~ (exists (data : Buffer) (sig key : string),
          key <> "" /\ verifySignature data sig (Some key) = false).
Proof.
  split; [reflexivity|].
  intros (data & sig & key & Hkey & H).
  unfold verifySignature, truthy_string in H.
  destruct (String.eqb_spec key ""); [contradiction|]. discriminate H.
Qed.

End VerifierFacts.

(** ** Runs: composition lemmas *)

Module RunFacts.

Section Ensures.

Context (I : State -> Prop) (Q : Event -> Prop).

Lemma ensures_ret {A} (a : A) : ensures I Q (ret a).
Proof. intros s H. split; [exact H | constructor]. Qed.

Lemma ensures_throw {A} (msg : string) : ensures I Q (@throw A msg).
Proof. intros s H. split; [exact H | constructor]. Qed.

Lemma ensures_get_state : ensures I Q get_state.
Proof. intros s H. split; [exact H | constructor]. Qed.

Lemma ensures_emit (e : Event) : Q e -> ensures I Q (emit e).
Proof. intros He s H. split; [exact H | repeat constructor; exact He]. Qed.

Lemma ensures_bind {A B} (m : M A) (k : A -> M B) :
  ensures I Q m -> (forall a, ensures I Q (k a)) -> ensures I Q (bind m k).
Proof.
  intros Hm Hk s H. unfold bind.
  destruct (Hm s H) as [Hs He].
  destruct (outcome (m s)) eqn:E; simpl.
  - destruct (Hk a _ Hs) as [Hs' He'].
    split; [exact Hs' | apply Forall_app; split; assumption].
  - split; assumption.
Qed.

Lemma ensures_try_catch {A} (m : M A) (handler : string -> M A) :
  ensures I Q m -> (forall msg, ensures I Q (handler msg)) ->
  ensures I Q (try_catch m handler).
Proof.
  intros Hm Hh s H. unfold try_catch.
  destruct (Hm s H) as [Hs He].
  destruct (outcome (m s)) eqn:E; simpl.
  - split; assumption.
  - destruct (Hh message _ Hs) as [Hs' He'].
    split; [exact Hs' | apply Forall_app; split; assumption].
Qed.

Lemma ensures_attempt {A} (m : M A) : ensures I Q m -> ensures I Q (attempt m).
Proof. intros Hm s H. exact (Hm s H). Qed.

End Ensures.

(** Splits a run into its statements, by the shape of the run; [leaf] is
    tried on the statements that are not control flow. *)
Ltac split_run leaf :=
  repeat
    (cbv beta zeta;
     lazymatch goal with
     | |- ensures _ _ (bind _ _) => apply ensures_bind; [|intro]
     | |- ensures _ _ (try_catch _ _) => apply ensures_try_catch; [|intro]
     | |- ensures _ _ (ret _) => apply ensures_ret
     | |- ensures _ _ (throw _) => apply ensures_throw
     | |- ensures _ _ get_state => apply ensures_get_state
     | |- ensures _ _ (if ?x then _ else _) => destruct x
     | |- ensures _ _ (match ?x with Some _ => _ | None => _ end) =>
         destruct x
     | |- ensures _ _ _ => leaf
     end).

(** The parts of a [bind] and of a [try_catch], by the outcome of their first
    run.  Rewriting with these keeps the runs folded. *)
Lemma outcome_bind_returned {A B} (m : M A) (k : A -> M B) (s : State) (a : A) :
  outcome (m s) = Returned a ->
  outcome (bind m k s) = outcome (k a (final (m s))).
Proof. intros H. unfold bind. rewrite H. reflexivity. Qed.

Lemma final_bind_returned {A B} (m : M A) (k : A -> M B) (s : State) (a : A) :
  outcome (m s) = Returned a ->
  final (bind m k s) = final (k a (final (m s))).
Proof. intros H. unfold bind. rewrite H. reflexivity. Qed.

Lemma events_bind_returned {A B} (m : M A) (k : A -> M B) (s : State) (a : A) :
  outcome (m s) = Returned a ->
  events (bind m k s) = (events (m s) ++ events (k a (final (m s))))%list.
Proof. intros H. unfold bind. rewrite H. reflexivity. Qed.

Lemma outcome_bind_thrown {A B} (m : M A) (k : A -> M B) (s : State)
  (msg : string) :
  outcome (m s) = Thrown msg -> outcome (bind m k s) = Thrown msg.
Proof. intros H. unfold bind. rewrite H. reflexivity. Qed.

Lemma final_bind_thrown {A B} (m : M A) (k : A -> M B) (s : State)
  (msg : string) :
  outcome (m s) = Thrown msg -> final (bind m k s) = final (m s).
Proof. intros H. unfold bind. rewrite H. reflexivity. Qed.

Lemma events_bind_thrown {A B} (m : M A) (k : A -> M B) (s : State)
  (msg : string) :
  outcome (m s) = Thrown msg -> events (bind m k s) = events (m s).
Proof. intros H. unfold bind. rewrite H. reflexivity. Qed.

Lemma try_catch_returned {A} (m : M A) (handler : string -> M A) (s : State)
  (a : A) :
  outcome (m s) = Returned a -> try_catch m handler s = m s.
Proof. intros H. unfold try_catch. rewrite H. reflexivity. Qed.

Lemma final_throw {A} (msg : string) (s : State) : final (@throw A msg s) = s.
Proof. reflexivity. Qed.

Lemma events_throw {A} (msg : string) (s : State) : events (@throw A msg s) = [].
Proof. reflexivity. Qed.

Lemma attempt_events {A} (m : M A) (s : State) :
  events (attempt m s) = events (m s).
Proof. reflexivity. Qed.

Lemma attempt_final {A} (m : M A) (s : State) :
  final (attempt m s) = final (m s).
Proof. reflexivity. Qed.

(** What a [bind] does once its first part is known to return. *)
Lemma bind_returned {A B} (m : M A) (k : A -> M B) (s : State) (a : A) :
  outcome (m s) = Returned a ->
  bind m k s
  = {| outcome := outcome (k a (final (m s)));
       final := final (k a (final (m s)));
       events := events (m s) ++ events (k a (final (m s))) |}.
Proof. intros H. unfold bind. rewrite H. reflexivity. Qed.

End RunFacts.

(** ** FirmwareDownloader *)

Module DownloaderFacts.

Import RunFacts FirmwareDownloader.

Section Ensures.

Context (I : State -> Prop) (Q : Event -> Prop) (onProgress : option Callback).
Hypothesis callback_ensures :
  forall cb p, onProgress = Some cb -> ensures I Q (cb p).
Hypothesis reports_allowed : forall p, Q (EvOnProgress p).

Lemma report_ensures (p : DownloadProgress) (wanted : bool) :
  ensures I Q
    (match onProgress with
     | Some cb => if wanted then call cb p else ret tt
     | None => ret tt
     end).
Proof.
  destruct onProgress as [cb|] eqn:E; [|apply ensures_ret].
  destruct wanted; [|apply ensures_ret].
  unfold call. apply ensures_bind; [apply ensures_emit, reports_allowed|].
  intros _. apply (callback_ensures cb p eq_refl).
Qed.

Lemma read_loop_ensures (total : option Z) (stream_end : StreamEnd)
  (stream : list Buffer) :
  forall chunks downloaded,
    ensures I Q (read_loop onProgress total stream stream_end chunks downloaded).
Proof.
  induction stream as [|value rest IH]; intros chunks downloaded.
  - simpl. destruct stream_end; [apply ensures_ret | apply ensures_throw].
  - cbn [read_loop]. apply ensures_bind.
    + apply report_ensures.
    + intros _. apply IH.
Qed.

Lemma fetchWithProgress_ensures (net : Network) (url : string) :
  Q (EvFetch url) -> ensures I Q (fetchWithProgress net url onProgress).
Proof.
  intros Hfetch. unfold fetchWithProgress.
  apply ensures_bind; [apply ensures_emit, Hfetch|]. intros _.
  destruct (net url) as [msg|response]; [apply ensures_throw|].
  destruct (negb _); [apply ensures_throw|].
  destruct (body response) as [[stream stream_end]|];
    [apply read_loop_ensures | apply ensures_throw].
Qed.

(** On a miss the URL is fetched and the result cached: [Q] has to allow
    the fetch, and [I] the new cache entry, for URLs that can be missing. *)
Lemma download_ensures (net : Network) (url : string) :
  (forall s0, I s0 -> downloadCache s0 !! url = None ->
              Q (EvFetch url)
              /\ forall buffer, ensures I Q (cache_set url buffer)) ->
  ensures I Q (download net url onProgress).
Proof.
  intros Hmiss s Hs. unfold download, cache_get.
  rewrite (bind_returned _ _ s (downloadCache s !! url)) by reflexivity.
  cbn [final events get_state bind ret outcome app].
  destruct (downloadCache s !! url) as [cached|] eqn:E.
  - apply ensures_bind; [|intros; apply ensures_ret | exact Hs].
    pose proof (report_ensures (full_progress cached) true) as H.
    destruct onProgress; exact H.
  - destruct (Hmiss s Hs E) as [Hfetch Hset].
    apply ensures_try_catch; [|intros; apply ensures_throw | exact Hs].
    apply ensures_bind; [apply fetchWithProgress_ensures, Hfetch|].
    intros buffer. apply ensures_bind; [|intros; apply ensures_ret].
    apply Hset.
Qed.

End Ensures.

(** A cache hit: the callback, if any, is called once with 100%, and the
    cached buffer is returned. *)
Lemma download_cache_hit (net : Network) (url : string)
  (onProgress : option Callback) (s : State) (cached : Buffer) :
  downloadCache s !! url = Some cached ->
  download net url onProgress s
  = ((match onProgress with
      | Some cb => call cb (full_progress cached)
      | None => ret tt
      end) ;;; ret cached)%ota s.
Proof.
  intros H. unfold download, cache_get.
  rewrite (bind_returned _ _ s (downloadCache s !! url)) by reflexivity.
  cbn [final events get_state bind ret outcome app].
  rewrite H. unfold full_progress.
  destruct (bind _ _ s) as [o f e]. reflexivity.
Qed.

Lemma call_keeps_cache (onProgress : option Callback) (p : DownloadProgress)
  (s : State) :
  keeps_cache onProgress ->
  downloadCache
    (final ((match onProgress with
             | Some cb => call cb p
             | None => ret tt
             end) s))
  = downloadCache s.
Proof.
  intros Hk. destruct onProgress as [cb|]; [|reflexivity].
  unfold call, bind, emit. simpl. apply (Hk cb p s eq_refl).
Qed.

(** A download that returns leaves its result in the cache. *)
Lemma download_fills_cache (net : Network) (url : string)
  (onProgress : option Callback) (s : State) (buffer : Buffer) :
  keeps_cache onProgress ->
  outcome (download net url onProgress s) = Returned buffer ->
  downloadCache (final (download net url onProgress s)) !! url = Some buffer.
Proof.
  intros Hk. destruct (downloadCache s !! url) as [cached|] eqn:E.
  - rewrite (download_cache_hit net url onProgress s cached E).
    pose proof (call_keeps_cache onProgress (full_progress cached) s Hk) as Hc.
    unfold bind in *.
    destruct (outcome (_ s)) eqn:O; simpl; intros H; [|discriminate H].
    injection H as <-. rewrite Hc. exact E.
  - unfold download, cache_get.
    rewrite (bind_returned _ _ s (downloadCache s !! url)) by reflexivity.
    cbn [final events get_state bind ret outcome app]. rewrite E.
    unfold try_catch.
    destruct (outcome (bind (fetchWithProgress net url onProgress) _ s)) eqn:O.
    + intros H. rewrite O in H. injection H as ->.
      unfold bind in *.
      destruct (outcome (fetchWithProgress net url onProgress s)) eqn:F;
        simpl in *; [|discriminate O].
      injection O as ->. apply lookup_insert_eq.
    + simpl. discriminate.
Qed.

(** One call of [download] fetches at most once, and only its own URL. *)
Lemma download_fetches_at_most_once (net : Network) (url : string)
  (onProgress : option Callback) (s : State) :
  (forall cb p s', onProgress = Some cb ->
                   Forall (fun e => is_fetch e = false) (events (cb p s'))) ->
  filter (fun e => is_fetch e = true) (events (download net url onProgress s))
  = match downloadCache s !! url with
    | Some _ => []
    | None => [EvFetch url]
    end.
Proof.
  intros Hcb.
  assert (Hloop : forall total stream_end stream chunks downloaded s',
             Forall (fun e => is_fetch e = false)
               (events (read_loop onProgress total stream stream_end
                          chunks downloaded s'))).
  { intros total stream_end stream chunks downloaded s'.
    apply (read_loop_ensures any_state (fun e => is_fetch e = false)
             onProgress); [|reflexivity|exact Logic.I].
    intros cb p E s0 _. split; [exact Logic.I | apply (Hcb cb p s0 E)]. }
  assert (Hnone : forall l : list Event,
             Forall (fun e => is_fetch e = false) l ->
             filter (fun e => is_fetch e = true) l = []).
  { induction 1 as [|e l He _ IH]; [reflexivity|].
    rewrite filter_cons. rewrite He. destruct (decide (false = true));
      [discriminate | exact IH]. }
  destruct (downloadCache s !! url) as [cached|] eqn:E.
  - rewrite (download_cache_hit net url onProgress s cached E).
    apply Hnone.
    destruct onProgress as [cb|].
    + unfold bind, call, emit, ret. simpl.
      destruct (outcome (cb _ s)); simpl; repeat constructor;
        try rewrite app_nil_r; apply (Hcb cb _ s eq_refl).
    + constructor.
  - unfold download, cache_get.
    rewrite (bind_returned _ _ s (downloadCache s !! url)) by reflexivity.
    cbn [final events get_state bind ret outcome app]. rewrite E.
    unfold try_catch, fetchWithProgress, bind, emit, throw, cache_set, modify.
    simpl.
    destruct (net url) as [msg|response]; simpl; [reflexivity|].
    destruct (negb _); simpl; [reflexivity|].
    destruct (body response) as [[stream stream_end]|]; simpl; [|reflexivity].
    pose proof (Hloop (total_of (content_length response)) stream_end stream
                  [] 0 s) as Hl.
    destruct (outcome (read_loop _ _ _ _ _ _ _)); simpl;
      rewrite ?app_nil_r, filter_cons; simpl;
      (destruct (decide (true = true)); [|congruence]);
      f_equal; apply Hnone; exact Hl.
Qed.

End DownloaderFacts.

(** ** OtaManager and the cache *)

Module CacheFacts.

Import RunFacts FirmwareDownloader OtaManager.

Section Cached.

Context (createHash : HashAlgorithm -> Buffer -> string).
Context (url : string) (buffer : Buffer).

Abbreviation cached := (cached_as url buffer).

(** A statement that touches neither the cache nor the network. *)
Ltac local_step :=
  let s := fresh "s" in
  let H := fresh "H" in
  intros s H; split; [exact H | repeat constructor].

Lemma download_while_cached (net : Network) (url' : string)
  (onProgress : option Callback) :
  (forall cb p, onProgress = Some cb ->
                ensures cached (not_fetch_of url) (cb p)) ->
  ensures cached (not_fetch_of url) (download net url' onProgress).
Proof.
  intros Hcb. apply DownloaderFacts.download_ensures.
  - exact Hcb.
  - reflexivity.
  - intros s0 H0 Hmiss.
    assert (Hne : url' <> url).
    { intros ->. unfold cached_as in H0. rewrite H0 in Hmiss. discriminate Hmiss. }
    split.
    + unfold not_fetch_of. simpl. apply String.eqb_neq. exact Hne.
    + intros buffer' s H. split; [|constructor].
      unfold cached_as in *. simpl. rewrite lookup_insert_ne; [exact H|exact Hne].
Qed.

Lemma progress_callback_while_cached (device : string) (r : nat)
  (cb : Callback) (p : DownloadProgress) :
  Some (progress_callback device r) = Some cb ->
  ensures cached (not_fetch_of url) (cb p).
Proof. intros [= <-]. local_step. Qed.

Lemma downloadFirmware_while_cached (net : Network) (device : string)
  (fv : FirmwareVersion) :
  ensures cached (not_fetch_of url) (downloadFirmware createHash net device fv).
Proof.
  unfold downloadFirmware, begin_download, verify_downloaded, record_failure,
    assign_status, assign_progress, updates_get.
  split_run ltac:(apply download_while_cached,
                  progress_callback_while_cached);
    local_step.
Qed.

Lemma checkForUpdate_while_cached (device current : string) :
  ensures cached (not_fetch_of url) (checkForUpdate device current).
Proof.
  unfold checkForUpdate, check_catalog, check_failed, assign_status.
  split_run fail; local_step.
Qed.

Lemma run_op_while_cached (op : Op) :
  is_ClearCache op = false ->
  ensures cached (not_fetch_of url) (run_op createHash op).
Proof.
  destruct op; simpl; intros Hop; try discriminate Hop.
  - local_step.
  - apply ensures_attempt, checkForUpdate_while_cached.
  - apply ensures_attempt, downloadFirmware_while_cached.
  - apply ensures_attempt. unfold performUpdate.
    apply ensures_bind; [apply checkForUpdate_while_cached|].
    intros [latest|];
      [apply downloadFirmware_while_cached | apply ensures_throw].
  - unfold cancelUpdate, assign_status, updates_get.
    split_run fail; local_step.
  - local_step.
  - apply ensures_attempt, download_while_cached.
    intros cb p H. destruct report; [|discriminate H].
    injection H as <-. local_step.
Qed.

Lemma run_ops_while_cached (ops : list Op) :
  Forall (fun op => is_ClearCache op = false) ops ->
  ensures cached (not_fetch_of url) (run_ops createHash ops).
Proof.
  induction 1 as [|op rest Hop _ IH]; simpl.
  - apply ensures_ret.
  - apply ensures_bind; [apply run_op_while_cached, Hop|]. intros _. exact IH.
Qed.

(** C8.  Once a [download] of [url] has returned [buffer], then after any
    operations other than [clearCache] - none of which fetches [url] - every
    [download] of [url] returns [buffer] without a fetch: it is the single
    [onProgress] call with 100%, if a callback is supplied, followed by the
    return of the cached buffer. *)
Theorem cached_download_is_not_fetched_again
  (net net' : Network) (onProgress onProgress' : option Callback)
  (s : State) (ops : list Op) :
  keeps_cache onProgress ->
  outcome (download net url onProgress s) = Returned buffer ->
  Forall (fun op => is_ClearCache op = false) ops ->
  let s1 := final (download net url onProgress s) in
  let between := run_ops createHash ops s1 in
  let s2 := final between in
  Forall (not_fetch_of url) (events between)
  /\ download net' url onProgress' s2
     = ((match onProgress' with
         | Some cb => call cb (full_progress buffer)
         | None => ret tt
         end) ;;; ret buffer)%ota s2
  /\ download net' url None s2
     = {| outcome := Returned buffer; final := s2; events := [] |}
  /\ download net' url (Some silent_callback) s2
     = {| outcome := Returned buffer; final := s2;
          events := [EvOnProgress (full_progress buffer)] |}.
Proof.
  intros Hk Hret Hops s1 between s2.
  assert (H1 : cached s1).
  { apply (DownloaderFacts.download_fills_cache net url onProgress s buffer Hk
             Hret). }
  destruct (run_ops_while_cached ops Hops s1 H1) as [H2 Hev].
  fold between in H2, Hev. fold s2 in H2.
  split; [exact Hev|].
  split; [apply DownloaderFacts.download_cache_hit, H2|].
  split; rewrite (DownloaderFacts.download_cache_hit _ _ _ _ _ H2); reflexivity.
Qed.

End Cached.

Lemma cached_download_is_not_fetched_again_witness :
  let s1 := final (download Sample.server "https://fw.example/1.0.1.bin" None
                     initial_state) in
  let s2 := final (run_ops Sample.count_hash
                     [Download Sample.offline "https://fw.example/1.0.1.bin" true;
                      CheckForUpdate "dev-1" "1.0.0"] s1) in
  download Sample.offline "https://fw.example/1.0.1.bin"
    (Some silent_callback) s2
  = {| outcome := Returned Sample.image; final := s2;
       events := [EvOnProgress (full_progress Sample.image)] |}.
Proof.
  intros s1 s2.
  apply (cached_download_is_not_fetched_again Sample.count_hash
           "https://fw.example/1.0.1.bin" Sample.image
           Sample.server Sample.offline None None initial_state
           [Download Sample.offline "https://fw.example/1.0.1.bin" true;
            CheckForUpdate "dev-1" "1.0.0"]).
  - intros cb p s H. discriminate H.
  - vm_compute. reflexivity.
  - repeat constructor.
Defined.

End CacheFacts.

(** ** OtaManager: Completed only after a clean verification *)

Module CompletionFacts.

Import RunFacts FirmwareDownloader OtaManager.

Section Completion.

Context (createHash : HashAlgorithm -> Buffer -> string).

Abbreviation verified := (completions_verified createHash).

Lemma verified_app (l1 l2 : list Event) :
  verified l1 -> verified l2 -> verified (l1 ++ l2).
Proof.
  intros H1 H2 before device after Heq.
  apply app_eq_inv in Heq.
  destruct Heq as [[k [Hl1 Hk]]|[k [-> Hl2]]].
  - destruct k as [|e k].
    + simpl in Hk. subst l2.
      destruct (H2 [] device after eq_refl) as (earlier & data & fv & Hb & _).
      destruct earlier; discriminate Hb.
    + injection Hk as <- ->. apply (H1 before device k Hl1).
  - destruct (H2 k device after Hl2) as (earlier & data & fv & -> & He).
    exists (l1 ++ earlier)%list, data, fv.
    split; [apply app_assoc | exact He].
Qed.

Lemma clean_is_verified (l : list Event) : Forall not_completion l -> verified l.
Proof.
  intros Hl before device after ->.
  apply Forall_app in Hl. destruct Hl as [_ Hl].
  apply Forall_cons in Hl. destruct Hl as [Hl _].
  exfalso. exact (Hl device eq_refl).
Qed.

Lemma clean_run_is_verified {A} (m : M A) :
  ensures any_state not_completion m -> forall s, verified (events (m s)).
Proof. intros Hm s. apply clean_is_verified, (Hm s Logic.I). Qed.

Lemma verified_bind {A B} (m : M A) (k : A -> M B) :
  (forall s, verified (events (m s))) ->
  (forall a s, verified (events (k a s))) ->
  forall s, verified (events (bind m k s)).
Proof.
  intros Hm Hk s. unfold bind. destruct (outcome (m s)); simpl.
  - apply verified_app; [apply Hm | apply Hk].
  - apply Hm.
Qed.

Lemma verified_try_catch {A} (m : M A) (handler : string -> M A) :
  (forall s, verified (events (m s))) ->
  (forall msg s, verified (events (handler msg s))) ->
  forall s, verified (events (try_catch m handler s)).
Proof.
  intros Hm Hh s. unfold try_catch. destruct (outcome (m s)); simpl.
  - apply Hm.
  - apply verified_app; [apply Hm | apply Hh].
Qed.

(** A statement that marks nothing Completed. *)
Ltac clean_step :=
  let s := fresh "s" in
  intros s _; split; [exact Logic.I | repeat constructor; discriminate].

Lemma download_is_clean (net : Network) (url device : string) (r : nat) :
  ensures any_state not_completion
    (download net url (Some (progress_callback device r))).
Proof.
  apply DownloaderFacts.download_ensures.
  - intros cb p [= <-]. clean_step.
  - intros p device'. discriminate.
  - intros s0 _ _. split; [intros device'; discriminate|].
    intros buffer. clean_step.
Qed.

Lemma begin_download_is_clean (device : string) (fv : FirmwareVersion) :
  ensures any_state not_completion (begin_download device fv).
Proof.
  unfold begin_download, assign_status, assign_progress, updates_get.
  split_run fail; clean_step.
Qed.

Lemma record_failure_is_clean (device : string) (r : nat) (msg : string) :
  ensures any_state not_completion (record_failure device r msg).
Proof.
  unfold record_failure, assign_status. split_run fail; clean_step.
Qed.

Lemma checkForUpdate_is_clean (device current : string) :
  ensures any_state not_completion (checkForUpdate device current).
Proof.
  unfold checkForUpdate, check_catalog, check_failed, assign_status.
  split_run fail; clean_step.
Qed.

Lemma cancelUpdate_is_clean (device : string) :
  ensures any_state not_completion (cancelUpdate device).
Proof.
  unfold cancelUpdate, assign_status, updates_get. split_run fail; clean_step.
Qed.

(** The events of the verification stage. *)
Lemma verify_downloaded_events (device : string) (r : nat)
  (fv : FirmwareVersion) (data : Buffer) (s : State) :
  let result := FirmwareVerifier.verifyIntegrity createHash data fv in
  events (verify_downloaded createHash device r fv data s)
  = ([EvStatus device Verifying; EvProgress device 90;
      EvVerify device data fv result]
     ++ (if valid result
         then [EvStatus device Completed; EvProgress device 100]
         else [EvStatus device Failed]))%list.
Proof.
  intros result. unfold verify_downloaded. fold result.
  destruct (valid result); reflexivity.
Qed.

Lemma verify_downloaded_outcome (device : string) (r : nat)
  (fv : FirmwareVersion) (data : Buffer) (s : State) :
  let result := FirmwareVerifier.verifyIntegrity createHash data fv in
  outcome (verify_downloaded createHash device r fv data s)
  = if valid result then Returned data
    else Thrown ("Firmware verification failed: "
                 +:+ Js.join ", " (errors result)).
Proof.
  intros result. unfold verify_downloaded. fold result.
  destruct (valid result); reflexivity.
Qed.

Lemma verify_downloaded_is_verified (device : string) (r : nat)
  (fv : FirmwareVersion) (data : Buffer) (s : State) :
  verified (events (verify_downloaded createHash device r fv data s)).
Proof.
  rewrite verify_downloaded_events.
  destruct (valid (FirmwareVerifier.verifyIntegrity createHash data fv)) eqn:V.
  - intros before device' after Heq.
    do 3 (destruct before as [|? before]; simpl in Heq;
          [discriminate Heq | injection Heq as <- Heq]).
    destruct before as [|? before]; simpl in Heq.
    + injection Heq as <- _.
      exists [EvStatus device Verifying; EvProgress device 90], data, fv.
      split; [reflexivity|].
      split; [apply VerifierFacts.valid_has_no_errors, V | exact V].
    + injection Heq as <- Heq.
      destruct before as [|? before]; simpl in Heq; [discriminate Heq|].
      injection Heq as _ Heq. destruct before; discriminate Heq.
  - apply clean_is_verified. repeat constructor; discriminate.
Qed.

Lemma downloadFirmware_is_verified (net : Network) (device : string)
  (fv : FirmwareVersion) (s : State) :
  verified (events (downloadFirmware createHash net device fv s)).
Proof.
  revert s. unfold downloadFirmware.
  apply verified_bind;
    [apply clean_run_is_verified, begin_download_is_clean|].
  intros r. destruct (fileUrl fv) as [url|].
  - destruct (negb _).
    + apply clean_run_is_verified, ensures_throw.
    + apply verified_try_catch.
      * apply verified_bind;
          [apply clean_run_is_verified, download_is_clean|].
        intros data s. apply verify_downloaded_is_verified.
      * intros msg. apply clean_run_is_verified, record_failure_is_clean.
  - apply clean_run_is_verified, ensures_throw.
Qed.

Lemma run_op_is_verified (op : Op) (s : State) :
  verified (events (run_op createHash op s)).
Proof.
  revert s. destruct op; cbn [run_op].
  - apply clean_run_is_verified. clean_step.
  - apply clean_run_is_verified, ensures_attempt, checkForUpdate_is_clean.
  - intros s. rewrite attempt_events. apply downloadFirmware_is_verified.
  - intros s. rewrite attempt_events. revert s. unfold performUpdate.
    apply verified_bind;
      [apply clean_run_is_verified, checkForUpdate_is_clean|].
    intros [latest|] s; [apply downloadFirmware_is_verified|].
    apply clean_is_verified. constructor.
  - apply clean_run_is_verified, cancelUpdate_is_clean.
  - apply clean_run_is_verified. clean_step.
  - apply clean_run_is_verified, ensures_attempt.
    apply DownloaderFacts.download_ensures.
    + intros cb p H. destruct report; [|discriminate H].
      injection H as <-. clean_step.
    + intros p device'. discriminate.
    + intros s0 _ _. split; [intros device'; discriminate|].
      intros buffer. clean_step.
  - apply clean_run_is_verified. clean_step.
Qed.

Lemma run_ops_is_verified (ops : list Op) (s : State) :
  verified (events (run_ops createHash ops s)).
Proof.
  revert s. induction ops as [|op rest IH]; simpl.
  - intros s. apply clean_is_verified. constructor.
  - apply verified_bind; [apply run_op_is_verified|]. intros _. exact IH.
Qed.

Lemma begin_download_returns (device : string) (fv : FirmwareVersion)
  (s : State) :
  exists r, outcome (begin_download device fv s) = Returned r.
Proof.
  unfold begin_download, updates_get, bind, get_state. simpl.
  destruct (updates s !! device) as [r|]; simpl; eexists; reflexivity.
Qed.

Lemma record_failure_throws (device : string) (r : nat) (msg : string)
  (s : State) :
  outcome (record_failure device r msg s) = Thrown msg.
Proof. reflexivity. Qed.

(** [downloadFirmware] hands out bytes only when [verifyIntegrity] found
    nothing wrong with them. *)
Lemma downloadFirmware_returns_verified (net : Network) (device : string)
  (fv : FirmwareVersion) (s : State) (data : Buffer) :
  outcome (downloadFirmware createHash net device fv s) = Returned data ->
  valid (FirmwareVerifier.verifyIntegrity createHash data fv) = true.
Proof.
  unfold downloadFirmware.
  destruct (begin_download_returns device fv s) as [r Hr].
  rewrite (bind_returned _ _ s r Hr). cbn [outcome].
  destruct (fileUrl fv) as [url|]; [|discriminate].
  destruct (negb _); [discriminate|].
  unfold try_catch.
  set (s1 := final (begin_download device fv s)).
  destruct (outcome (bind (download net url _) _ s1)) eqn:O;
    [|rewrite record_failure_throws; discriminate].
  intros H. rewrite O in H. injection H as ->.
  unfold bind in O.
  destruct (outcome (download net url _ s1)) as [data0|] eqn:D;
    [|discriminate O].
  cbn [outcome] in O. rewrite verify_downloaded_outcome in O.
  destruct (valid (FirmwareVerifier.verifyIntegrity createHash data0 fv)) eqn:V;
    [|discriminate O].
  injection O as <-. exact V.
Qed.

Lemma performUpdate_returns (net : Network) (device current : string)
  (s : State) (data : Buffer) :
  outcome (performUpdate createHash net device current s) = Returned data ->
  exists fv,
    outcome (checkForUpdate device current s) = Returned (Some fv)
    /\ outcome (downloadFirmware createHash net device fv
                  (final (checkForUpdate device current s)))
       = Returned data.
Proof.
  unfold performUpdate.
  destruct (outcome (checkForUpdate device current s)) as [[fv|]|] eqn:C.
  - rewrite (outcome_bind_returned _ _ s _ C). cbv beta iota.
    intros H. exists fv. split; [reflexivity | exact H].
  - rewrite (outcome_bind_returned _ _ s _ C). cbv beta iota.
    intros H. discriminate H.
  - rewrite (outcome_bind_thrown _ _ s _ C). intros H. discriminate H.
Qed.

End Completion.

End CompletionFacts.

(** ** OtaManager: the session object during a download *)

Module SessionFacts.

Import RunFacts FirmwareDownloader OtaManager.

Lemma set_status_keeps_identity s : keeps_identity (set_status s).
Proof. intros o. split; reflexivity. Qed.
Lemma set_progress_keeps_identity p : keeps_identity (set_progress p).
Proof. intros o. split; reflexivity. Qed.
Lemma set_targetVersion_keeps_identity v : keeps_identity (set_targetVersion v).
Proof. intros o. split; reflexivity. Qed.
Lemma set_error_keeps_identity e : keeps_identity (set_error e).
Proof. intros o. split; reflexivity. Qed.
Lemma set_completedAt_keeps_identity t : keeps_identity (set_completedAt t).
Proof. intros o. split; reflexivity. Qed.

Create HintDb identity.
#[local] Hint Resolve set_status_keeps_identity set_progress_keeps_identity
  set_targetVersion_keeps_identity set_error_keeps_identity
  set_completedAt_keeps_identity : identity.

Section Session.

Context (createHash : HashAlgorithm -> Buffer -> string).
Context (device current : string) (r : nat).

Abbreviation session_of := (session_of device current r).

Lemma assign_keeps_session (f : OtaUpdateInfo -> OtaUpdateInfo) :
  keeps_identity f -> ensures session_of any_event (assign r f).
Proof.
  intros Hf s [Hu (o & Ho & Hd & Hc)]. split; [|constructor].
  split; [exact Hu|]. exists (f o). split.
  - simpl. rewrite list_lookup_alter_eq, Ho. reflexivity.
  - destruct (Hf o) as [-> ->]. auto.
Qed.

Lemma updates_set_keeps_session :
  ensures session_of any_event (updates_set device r).
Proof.
  intros s [Hu Ho]. split; [|constructor].
  split; [apply lookup_insert_eq | exact Ho].
Qed.

(** A statement that touches neither the map nor the heap. *)
Ltac idle_step :=
  let s := fresh "s" in
  let H := fresh "H" in
  intros s H; split; [exact H | repeat constructor].

Ltac session_step :=
  first [ apply assign_keeps_session; auto with identity
        | apply updates_set_keeps_session ].

Lemma progress_callback_keeps_session (cb : Callback) (p : DownloadProgress) :
  Some (progress_callback device r) = Some cb ->
  ensures session_of any_event (cb p).
Proof.
  intros [= <-]. unfold progress_callback, assign_progress.
  split_run session_step; idle_step.
Qed.

Lemma download_keeps_session (net : Network) (url : string) :
  ensures session_of any_event
    (download net url (Some (progress_callback device r))).
Proof.
  apply DownloaderFacts.download_ensures.
  - apply progress_callback_keeps_session.
  - intros p. exact Logic.I.
  - intros s0 _ _. split; [exact Logic.I|]. intros buffer. idle_step.
Qed.

Lemma transfer_keeps_session (net : Network) (fv : FirmwareVersion)
  (url : string) :
  ensures session_of any_event
    (try_catch
       (let* firmwareData :=
          download net url (Some (progress_callback device r)) in
        verify_downloaded createHash device r fv firmwareData)
       (record_failure device r)).
Proof.
  unfold verify_downloaded, record_failure, assign_status, assign_progress.
  split_run ltac:(first [apply download_keeps_session | session_step]);
    idle_step.
Qed.

End Session.

(** The state [begin_download] leaves for a device without a session. *)
Lemma begin_download_fresh (device : string) (fv : FirmwareVersion) (s : State) :
  updates s !! device = None ->
  outcome (begin_download device fv s) = Returned (length (heap s))
  /\ session_of device "" (length (heap s)) (final (begin_download device fv s)).
Proof.
  intros H. unfold begin_download, updates_get, bind, get_state. simpl.
  rewrite H. simpl. split; [reflexivity|].
  split; [apply lookup_insert_eq|].
  eexists. split.
  - unfold with_updates, with_heap. cbn [heap].
    rewrite !list_lookup_alter_eq, lookup_app_r by reflexivity.
    rewrite Nat.sub_diag. reflexivity.
  - split; reflexivity.
Qed.

Section FirstDownload.

Context (createHash : HashAlgorithm -> Buffer -> string).

(** C10.  [downloadFirmware] for a device that has no session creates one
    whose [currentVersion] is the empty string: whatever the outcome of the
    call, [getUpdateStatus] then returns a session of that device, not null,
    with [currentVersion == ""]. *)
Theorem downloadFirmware_creates_session_with_empty_version
  (net : Network) (device : string) (fv : FirmwareVersion) (s : State) :
  updates s !! device = None ->
  exists o,
    getUpdateStatus (final (downloadFirmware createHash net device fv s)) device
    = Some o
    /\ deviceId o = device /\ currentVersion o = "".
Proof.
  intros Hnone.
  destruct (begin_download_fresh device fv s Hnone) as [Hret Hses].
  assert (H : session_of device "" (length (heap s))
                (final (downloadFirmware createHash net device fv s))).
  { unfold downloadFirmware. rewrite (bind_returned _ _ s _ Hret).
    cbn [final].
    destruct (fileUrl fv) as [url|]; [|exact Hses].
    destruct (negb _); [exact Hses|].
    apply (transfer_keeps_session createHash device "" (length (heap s))
             net fv url _ Hses). }
  destruct H as [Hu (o & Ho & Hd & Hc)].
  exists o. unfold getUpdateStatus. rewrite Hu. simpl. auto.
Qed.

End FirstDownload.

Lemma downloadFirmware_creates_session_with_empty_version_witness :
  exists o,
    getUpdateStatus
      (final (downloadFirmware Sample.count_hash Sample.server "dev-9"
                Sample.v101 initial_state)) "dev-9"
    = Some o
    /\ deviceId o = "dev-9" /\ currentVersion o = "".
Proof.
  apply (downloadFirmware_creates_session_with_empty_version
           Sample.count_hash Sample.server "dev-9" Sample.v101 initial_state);
    reflexivity.
Defined.

End SessionFacts.

(** ** OtaManager: the steps of an update *)

(** ** OtaManager: the steps of an update *)

Module LifecycleFacts.

Import RunFacts FirmwareDownloader OtaManager.

Lemma begin_download_events (device : string) (fv : FirmwareVersion) (s : State) :
  events (begin_download device fv s)
  = [EvStatus device Downloading; EvProgress device 0].
Proof.
  unfold begin_download, updates_get, bind, get_state. simpl.
  destruct (updates s !! device); reflexivity.
Qed.

Lemma begin_download_keeps_cache (device : string) (fv : FirmwareVersion)
  (s : State) :
  downloadCache (final (begin_download device fv s)) = downloadCache s.
Proof.
  unfold begin_download, updates_get, bind, get_state. simpl.
  destruct (updates s !! device); reflexivity.
Qed.

Lemma begin_download_existing (device : string) (fv : FirmwareVersion)
  (s : State) (r : nat) :
  updates s !! device = Some r ->
  begin_download device fv s
  = {| outcome := Returned r;
       final :=
         with_updates (fun u => <[device := r]> u)
           (with_heap (alter (set_targetVersion (version fv)) r)
              (with_heap (alter (set_progress 0) r)
                 (with_heap (alter (set_status Downloading) r) s)));
       events := [EvStatus device Downloading; EvProgress device 0] |}.
Proof.
  intros H. unfold begin_download, updates_get, bind, get_state. simpl.
  rewrite H. reflexivity.
Qed.

Section Lifecycle.

Context (createHash : HashAlgorithm -> Buffer -> string).

(** C6: what the code does.  Without a (non-empty) [fileUrl],
    [downloadFirmware] throws, but only after the session has been put in
    Downloading with progress 0 and the target version: an existing session
    is overwritten in place, a missing one is created. *)
Theorem downloadFirmware_without_url_leaves_downloading
  (net : Network) (device : string) (fv : FirmwareVersion) (s : State) :
  truthy_string (fileUrl fv) = false ->
  let run := downloadFirmware createHash net device fv s in
  outcome run = Thrown "Firmware file URL is not specified"
  /\ events run = [EvStatus device Downloading; EvProgress device 0]
  /\ (forall r o,
        updates s !! device = Some r -> heap s !! r = Some o ->
        getUpdateStatus (final run) device
        = Some {| deviceId := deviceId o; currentVersion := currentVersion o;
                  targetVersion := Some (version fv); status := Downloading;
                  progress := Some 0; error := error o;
                  startedAt := startedAt o; completedAt := completedAt o |})
  /\ (updates s !! device = None ->
      getUpdateStatus (final run) device
      = Some {| deviceId := device; currentVersion := "";
                targetVersion := Some (version fv); status := Downloading;
                progress := Some 0; error := None;
                startedAt := None; completedAt := None |}).
Proof.
  intros Hurl run.
  assert (Hrun : run = {| outcome := Thrown "Firmware file URL is not specified";
                          final := final (begin_download device fv s);
                          events := events (begin_download device fv s) |}).
  { subst run. unfold downloadFirmware.
    destruct (CompletionFacts.begin_download_returns device fv s) as [r Hr].
    rewrite (bind_returned _ _ s r Hr).
    destruct (fileUrl fv) as [url|].
    - rewrite Hurl. simpl. rewrite app_nil_r. reflexivity.
    - simpl. rewrite app_nil_r. reflexivity. }
  rewrite Hrun. cbn [outcome events final].
  split; [reflexivity|]. split; [apply begin_download_events|]. split.
  - intros r o Hu Ho. rewrite (begin_download_existing device fv s r Hu).
    unfold getUpdateStatus, with_updates, with_heap. cbn [final updates heap].
    rewrite lookup_insert_eq. simpl.
    rewrite !list_lookup_alter_eq, Ho. reflexivity.
  - intros Hnone.
    unfold begin_download, updates_get, bind, get_state. simpl.
    rewrite Hnone. simpl.
    unfold getUpdateStatus, with_updates, with_heap. cbn [final updates heap].
    rewrite lookup_insert_eq. simpl.
    rewrite !list_lookup_alter_eq, lookup_app_r by reflexivity.
    rewrite Nat.sub_diag. reflexivity.
Qed.

Lemma download_cached_for_session (net : Network) (device url : string)
  (r : nat) (s : State) (cached : Buffer) :
  downloadCache s !! url = Some cached ->
  download net url (Some (progress_callback device r)) s
  = {| outcome := Returned cached;
       final := with_updates (fun u => <[device := r]> u)
                  (with_heap (alter (set_progress 100) r) s);
       events := [EvOnProgress (full_progress cached); EvProgress device 100] |}.
Proof.
  intros H. rewrite (DownloaderFacts.download_cache_hit _ _ _ _ _ H).
  reflexivity.
Qed.

(** The events of the [try] and [catch] blocks on a cache hit. *)
Lemma transfer_cached_events (net : Network) (device url : string) (r : nat)
  (fv : FirmwareVersion) (s : State) (cached : Buffer) :
  downloadCache s !! url = Some cached ->
  events
    (try_catch
       (let* firmwareData :=
          download net url (Some (progress_callback device r)) in
        verify_downloaded createHash device r fv firmwareData)
       (record_failure device r) s)
  = [EvOnProgress (full_progress cached); EvProgress device 100;
     EvStatus device Verifying; EvProgress device 90;
     EvVerify device cached fv
       (FirmwareVerifier.verifyIntegrity createHash cached fv);
     EvStatus device
       (if valid (FirmwareVerifier.verifyIntegrity createHash cached fv)
        then Completed else Failed);
     (if valid (FirmwareVerifier.verifyIntegrity createHash cached fv)
      then EvProgress device 100 else EvStatus device Failed)].
Proof.
  intros H.
  pose proof (download_cached_for_session net device url r s cached H) as D.
  unfold try_catch.
  rewrite (bind_returned _ _ s cached) by (rewrite D; reflexivity).
  rewrite D. cbn [outcome final events].
  rewrite CompletionFacts.verify_downloaded_outcome,
    CompletionFacts.verify_downloaded_events.
  destruct (valid (FirmwareVerifier.verifyIntegrity createHash cached fv));
    reflexivity.
Qed.

(** C7: what the code does.  When the artifact is already cached, the
    progress written to the session is 0, then the 100 of the cache hit,
    then the 90 of the verification stage: it goes down. *)
Theorem cached_download_progress_goes_back
  (net : Network) (device url : string) (fv : FirmwareVersion) (s : State)
  (cached : Buffer) :
  fileUrl fv = Some url ->
  truthy_string (Some url) = true ->
  downloadCache s !! url = Some cached ->
  let run := downloadFirmware createHash net device fv s in
  progress_writes device (events run)
  = (0 :: 100 :: 90
       :: if valid (FirmwareVerifier.verifyIntegrity createHash cached fv)
          then [100] else [])
  /\ non_decreasing (progress_writes device (events run)) = false.
Proof.
  intros Hurl Htruthy Hcached run.
  assert (E : progress_writes device (events run)
              = (0 :: 100 :: 90
                   :: if valid (FirmwareVerifier.verifyIntegrity createHash
                                  cached fv)
                      then [100] else [])).
  { subst run. unfold downloadFirmware.
    destruct (CompletionFacts.begin_download_returns device fv s) as [r Hr].
    rewrite (bind_returned _ _ s r Hr). cbn [events].
    rewrite begin_download_events, Hurl, Htruthy. cbn [negb].
    rewrite (transfer_cached_events net device url r fv _ cached)
      by (rewrite begin_download_keeps_cache; exact Hcached).
    destruct (valid (FirmwareVerifier.verifyIntegrity createHash cached fv));
      cbn -[String.eqb]; rewrite !String.eqb_refl; reflexivity. }
  split; [exact E|]. rewrite E.
  destruct (valid _); reflexivity.
Qed.

Lemma latestVersion_of_needsUpdate
  (catalog : FirmwareVersionManager.Versions) (current : string) :
  FirmwareVersionManager.latestVersion
    (FirmwareVersionManager.needsUpdate catalog current None)
  = FirmwareVersionManager.getLatestVersion catalog.
Proof.
  unfold FirmwareVersionManager.needsUpdate.
  destruct (FirmwareVersionManager.getLatestVersion catalog); reflexivity.
Qed.

Lemma check_catalog_returns_latest (device current : string) (r : nat)
  (s : State) :
  outcome (check_catalog device current r s)
  = Returned (FirmwareVersionManager.getLatestVersion (versions s)).
Proof.
  unfold check_catalog.
  rewrite (outcome_bind_returned get_state _ s s eq_refl). cbv beta zeta.
  rewrite <- (latestVersion_of_needsUpdate (versions s) current).
  change (final (get_state s)) with s.
  destruct (FirmwareVersionManager.latestVersion
              (FirmwareVersionManager.needsUpdate (versions s) current None));
    [destruct (FirmwareVersionManager.needsUpdate_flag _)|];
    reflexivity.
Qed.

(** [checkForUpdate] returns the latest version of the catalog, needed or
    not. *)
Lemma checkForUpdate_returns_latest (device current : string) (s : State) :
  outcome (checkForUpdate device current s)
  = Returned (FirmwareVersionManager.getLatestVersion (versions s)).
Proof.
  unfold checkForUpdate.
  do 4 (erewrite outcome_bind_returned by reflexivity; cbv beta).
  erewrite try_catch_returned by apply check_catalog_returns_latest.
  rewrite check_catalog_returns_latest. reflexivity.
Qed.

(** [performUpdate] goes on to [downloadFirmware] as soon as the catalog
    has a latest version, whatever [needsUpdate] said. *)
Lemma performUpdate_downloads_latest (net : Network) (device current : string)
  (s : State) (latest : FirmwareVersion) :
  FirmwareVersionManager.getLatestVersion (versions s) = Some latest ->
  performUpdate createHash net device current s
  = (checkForUpdate device current ;;;
     downloadFirmware createHash net device latest)%ota s.
Proof.
  intros H. unfold performUpdate, bind.
  rewrite checkForUpdate_returns_latest, H. reflexivity.
Qed.

End Lifecycle.

Lemma downloadFirmware_without_url_leaves_downloading_witness :
  let s := final (OtaManager.checkForUpdate "dev-1" "1.0.0" Sample.catalog) in
  let run := downloadFirmware Sample.count_hash Sample.server "dev-1"
               Sample.no_url s in
  status <$> getUpdateStatus s "dev-1" = Some Idle
  /\ outcome run = Thrown "Firmware file URL is not specified"
  /\ status <$> getUpdateStatus (final run) "dev-1" = Some Downloading
  /\ progress <$> getUpdateStatus (final run) "dev-1" = Some (Some 0).
Proof.
  intros s run.
  destruct (downloadFirmware_without_url_leaves_downloading Sample.count_hash
              Sample.server "dev-1" Sample.no_url s eq_refl)
    as (Hout & _ & Hsome & _).
  fold run in Hout, Hsome.
  split; [reflexivity|]. split; [exact Hout|].
  rewrite (Hsome 0%nat
             {| deviceId := "dev-1"; currentVersion := "1.0.0";
                targetVersion := Some "1.0.1"; status := Idle;
                progress := None; error := None;
                startedAt := Some 0; completedAt := None |}
             eq_refl eq_refl).
  split; reflexivity.
Defined.

Lemma cached_download_progress_goes_back_witness :
  let s := final (download Sample.server "https://fw.example/1.0.1.bin" None
                    Sample.catalog) in
  progress_writes "dev-1"
    (events (downloadFirmware Sample.count_hash Sample.offline "dev-1"
               Sample.v101 s))
  = [0; 100; 90; 100].
Proof.
  intros s.
  apply (cached_download_progress_goes_back Sample.count_hash Sample.offline
           "dev-1" "https://fw.example/1.0.1.bin" Sample.v101 s Sample.image);
    reflexivity.
Defined.

(** C7, on a first download as well: the last chunk reports 100, the
    verification stage writes 90. *)
Example fresh_download_progress_goes_back :
  progress_writes "dev-1"
    (events (performUpdate Sample.count_hash Sample.server "dev-1" "1.0.0"
               Sample.catalog))
  = [0; 50; 100; 90; 100].
Proof. vm_compute. reflexivity. Qed.

(** C2: what the code does.  The device runs 2.0.0 and the catalog's latest
    version is 1.0.1: [needsUpdate] says no, yet [performUpdate] fetches
    1.0.1, returns its bytes and marks the session Completed with target
    version 1.0.1. *)
Theorem performUpdate_downloads_when_no_update_is_needed :
  let run := performUpdate Sample.count_hash Sample.server "dev-1" "2.0.0"
               Sample.catalog in
  FirmwareVersionManager.compareVersions "2.0.0" "1.0.1" = 1
  /\ FirmwareVersionManager.needsUpdate_flag
       (FirmwareVersionManager.needsUpdate (versions Sample.catalog) "2.0.0" None)
     = false
  /\ outcome run = Returned Sample.image
  /\ filter (fun e => is_fetch e = true) (events run)
     = [EvFetch "https://fw.example/1.0.1.bin"]
  /\ getUpdateStatus (final run) "dev-1"
     = Some {| deviceId := "dev-1"; currentVersion := "2.0.0";
               targetVersion := Some "1.0.1"; status := Completed;
               progress := Some 100; error := None;
               startedAt := Some 0; completedAt := Some 1 |}.
Proof. vm_compute. repeat split; reflexivity. Qed.

End LifecycleFacts.

(** ** FirmwareVersionManager *)

Module VersionFacts.

Import FirmwareVersionManager.

Lemma digit_is_not (c d : ascii) :
  Js.is_digit c = true -> Js.is_digit d = false -> Ascii.eqb c d = false.
Proof.
  intros Hc Hd. destruct (Ascii.eqb_spec c d) as [->|]; [|reflexivity].
  rewrite Hc in Hd. discriminate Hd.
Qed.

Lemma digit_is_not_space (c : ascii) :
  Js.is_digit c = true -> Js.is_space c = false.
Proof.
  unfold Js.is_digit, Js.is_space, Js.in_range. intros H.
  apply andb_true_iff in H. destruct H as [H1 H2].
  apply Z.leb_le in H1. apply Z.leb_le in H2.
  apply orb_false_iff. split.
  - apply andb_false_iff. right. apply Z.leb_gt. lia.
  - apply Z.eqb_neq. lia.
Qed.

Lemma digit_of_digit (c : ascii) :
  Js.is_digit c = true -> Js.digit_of 10 c = Some (Js.code c - 48).
Proof.
  intros H. unfold Js.digit_of. rewrite H.
  unfold Js.is_digit, Js.in_range in H.
  apply andb_true_iff in H. destruct H as [H1 H2].
  apply Z.leb_le in H1. apply Z.leb_le in H2.
  destruct (Z.ltb_spec (Js.code c - 48) 10); [reflexivity | lia].
Qed.

Lemma digits_value_total (cs : list ascii) :
  forallb Js.is_digit cs = true ->
  forall acc, exists v, Js.digits_value 10 acc cs = Some v.
Proof.
  induction cs as [|c cs IH]; intros H acc; simpl.
  - eexists; reflexivity.
  - simpl in H. apply andb_true_iff in H. destruct H as [Hc Hcs].
    rewrite (digit_of_digit c Hc). apply IH, Hcs.
Qed.

Lemma span_digits_all (cs : list ascii) :
  forallb Js.is_digit cs = true -> Js.span_digits cs = (cs, []).
Proof.
  induction cs as [|c cs IH]; intros H; simpl; [reflexivity|].
  simpl in H. apply andb_true_iff in H. destruct H as [Hc Hcs].
  rewrite Hc, (IH Hcs). reflexivity.
Qed.

Lemma drop_space_digits (cs : list ascii) :
  match cs with
  | c :: _ => Js.is_digit c = true
  | [] => True
  end ->
  Js.drop_space cs = cs.
Proof.
  destruct cs as [|c cs]; intros H; simpl; [reflexivity|].
  rewrite (digit_is_not_space c H). reflexivity.
Qed.

Lemma forallb_rev {A} (f : A -> bool) (l : list A) :
  forallb f (rev l) = forallb f l.
Proof.
  induction l as [|x l IH]; simpl; [reflexivity|].
  rewrite forallb_app, IH. simpl. rewrite andb_true_r. apply andb_comm.
Qed.

Lemma trim_digits (cs : list ascii) :
  forallb Js.is_digit cs = true -> Js.trim cs = cs.
Proof.
  intros H. unfold Js.trim.
  assert (Hhead : forall l, forallb Js.is_digit l = true ->
                            Js.drop_space l = l).
  { intros l Hl. apply drop_space_digits. destruct l as [|c l]; [exact Logic.I|].
    simpl in Hl. apply andb_true_iff in Hl. tauto. }
  rewrite (Hhead cs H), Hhead by (rewrite forallb_rev; exact H).
  apply rev_involutive.
Qed.

(** On a segment made of digits only, [Number] is the integer the digits
    spell, 0 for the empty segment: the value the specification reads. *)
Lemma Number_of_digits (seg : string) :
  forallb Js.is_digit (Js.chars seg) = true ->
  Js.Number seg = of_int (leading_digits seg).
Proof.
  intros H. unfold Js.Number, leading_digits. rewrite (trim_digits _ H).
  rewrite (span_digits_all _ H). cbn [fst].
  destruct (Js.chars seg) as [|c cs] eqn:E; [reflexivity|].
  assert (Hc : Js.is_digit c = true).
  { simpl in H. apply andb_true_iff in H. tauto. }
  destruct (digits_value_total (c :: cs) H 0) as [v Hv]. rewrite Hv.
  unfold Js.numeric_literal.
  assert (Hradix : Js.radix_prefix (c :: cs) = None).
  { unfold Js.radix_prefix. destruct cs as [|p ds]; [reflexivity|].
    assert (Hp : Js.is_digit p = true).
    { simpl in H. apply andb_true_iff in H. destruct H as [_ H].
      apply andb_true_iff in H. tauto. }
    rewrite !(digit_is_not p) by (exact Hp || reflexivity).
    destruct (Ascii.eqb c "0"); reflexivity. }
  rewrite Hradix, !(digit_is_not c) by (exact Hc || reflexivity).
  unfold Js.unsigned_decimal.
  destruct (decide (c :: cs = Js.chars "Infinity")) as [Heq|_].
  { injection Heq as -> _. discriminate Hc. }
  rewrite (span_digits_all _ H). unfold Js.digits. rewrite Hv. reflexivity.
Qed.

Lemma truthy_of_int (z : Z) :
  (if Js.truthy (of_int z) then of_int z else Js.Zero) = of_int z.
Proof. destruct z; reflexivity. Qed.

Lemma lt_of_int (x y : Z) : Js.lt (of_int x) (of_int y) = (x <? y).
Proof.
  unfold Js.lt, of_int, Qle_bool. simpl. rewrite !Z.mul_1_r.
  rewrite Z.ltb_antisym. reflexivity.
Qed.

Lemma part_of_ints (l : list Z) (i : nat) :
  part_or_zero (map of_int l) i = of_int (default 0 (l !! i)).
Proof.
  unfold part_or_zero. rewrite list_lookup_fmap.
  destruct (l !! i) as [z|]; simpl; [apply truthy_of_int | reflexivity].
Qed.

Lemma compare_loop_tail (x y : Js.JsNumber) (a b : list Js.JsNumber)
  (i todo : nat) :
  compare_loop (x :: a) (y :: b) (S i) todo = compare_loop a b i todo.
Proof.
  revert i. induction todo as [|todo IH]; intros i; [reflexivity|].
  cbn [compare_loop]. unfold part_or_zero. cbn [lookup list_lookup].
  rewrite IH. reflexivity.
Qed.

Lemma compare_loop_tail_left (x : Js.JsNumber) (a : list Js.JsNumber)
  (i todo : nat) :
  compare_loop (x :: a) [] (S i) todo = compare_loop a [] i todo.
Proof.
  revert i. induction todo as [|todo IH]; intros i; [reflexivity|].
  cbn [compare_loop]. unfold part_or_zero. cbn [lookup list_lookup].
  rewrite IH. reflexivity.
Qed.

Lemma compare_loop_tail_right (y : Js.JsNumber) (b : list Js.JsNumber)
  (i todo : nat) :
  compare_loop [] (y :: b) (S i) todo = compare_loop [] b i todo.
Proof.
  revert i. induction todo as [|todo IH]; intros i; [reflexivity|].
  cbn [compare_loop]. unfold part_or_zero. cbn [lookup list_lookup].
  rewrite IH. reflexivity.
Qed.

Lemma compare_loop_right (b : list Z) :
  compare_loop [] (map of_int b) 0 (length b) = zero_against b.
Proof.
  induction b as [|y b IH]; [reflexivity|].
  cbn [length map compare_loop zero_against].
  change (part_or_zero [] 0) with (of_int 0).
  change (of_int y :: map of_int b) with (map of_int (y :: b)).
  rewrite part_of_ints. cbn [lookup list_lookup default from_option id].
  unfold Js.gt. rewrite !lt_of_int. cbn [map].
  rewrite compare_loop_tail_right, IH. unfold compare_int.
  destruct (y <? 0), (0 <? y); reflexivity.
Qed.

Lemma compare_loop_ints (a b : list Z) :
  compare_loop (map of_int a) (map of_int b) 0
    (Nat.max (length a) (length b))
  = compare_segments a b.
Proof.
  revert b. induction a as [|x a IH]; intros b.
  - cbn [map length Nat.max compare_segments]. apply compare_loop_right.
  - destruct b as [|y b].
    + cbn [map length Nat.max compare_loop compare_segments].
      change (part_or_zero [] 0) with (of_int 0).
      change (of_int x :: map of_int a) with (map of_int (x :: a)).
      rewrite part_of_ints. cbn [lookup list_lookup default from_option id].
      unfold Js.gt. rewrite !lt_of_int. cbn [map].
      rewrite compare_loop_tail_left.
      specialize (IH []). cbn [map length] in IH.
      rewrite Nat.max_0_r in IH. rewrite IH. unfold compare_int.
      destruct (0 <? x), (x <? 0); reflexivity.
    + cbn [map length Nat.max compare_loop compare_segments].
      change (of_int x :: map of_int a) with (map of_int (x :: a)).
      change (of_int y :: map of_int b) with (map of_int (y :: b)).
      rewrite !part_of_ints. cbn [lookup list_lookup default from_option id].
      unfold Js.gt. rewrite !lt_of_int. cbn [map].
      rewrite compare_loop_tail, IH. unfold compare_int.
      destruct (y <? x), (x <? y); reflexivity.
Qed.

Lemma Number_of_plain (segs : list string) :
  forallb (fun seg => forallb Js.is_digit (Js.chars seg)) segs = true ->
  map Js.Number segs = map of_int (map leading_digits segs).
Proof.
  induction segs as [|seg segs IH]; intros H; [reflexivity|].
  simpl in H. apply andb_true_iff in H. destruct H as [Hseg Hsegs].
  cbn [map]. rewrite (Number_of_digits seg Hseg), (IH Hsegs). reflexivity.
Qed.

(** On versions without suffix the code compares as the specification
    says. *)
Lemma compareVersions_plain (a b : string) :
  plain a = true -> plain b = true ->
  compareVersions a b = compareVersions_spec a b.
Proof.
  intros Ha Hb. unfold compareVersions, compareVersions_spec.
  rewrite (Number_of_plain _ Ha), (Number_of_plain _ Hb).
  rewrite !length_map.
  rewrite <- (length_map leading_digits (Js.split "." a)).
  rewrite <- (length_map leading_digits (Js.split "." b)).
  apply compare_loop_ints.
Qed.

(** C4: what the code does.  [Number] of a segment with a suffix is NaN,
    which [|| 0] turns into 0: 1.0.1-beta compares equal to 1.0.0 and below
    1.0.1, where the leading digits of the segments say greater and
    equal. *)
Theorem compareVersions_reads_suffixed_segment_as_zero :
  Js.Number "1-beta" = Js.NaN
  /\ compareVersions "1.0.1-beta" "1.0.0" = 0
  /\ compareVersions_spec "1.0.1-beta" "1.0.0" = 1
  /\ compareVersions "1.0.1-beta" "1.0.1" = -1
  /\ compareVersions_spec "1.0.1-beta" "1.0.1" = 0
  /\ compareVersions "1.2" "1.2.0" = 0.
Proof. vm_compute. repeat split; reflexivity. Qed.

End VersionFacts.

(** ** OtaManager: the trace accounts for every Completed session *)

Module TrackingFacts.

Import RunFacts FirmwareDownloader OtaManager.

Lemma tracked_later (s : State) (trace later : list Event) :
  tracked s trace -> tracked s (trace ++ later).
Proof.
  intros [Ho Hl]. split; [exact Ho|].
  intros r o Hr Hc. apply in_or_app. left. exact (Hl r o Hr Hc).
Qed.

Lemma tracked_same (s s' : State) (trace : list Event) :
  heap s' = heap s -> updates s' = updates s ->
  tracked s trace -> tracked s' trace.
Proof.
  intros Hh Hu [Ho Hl]. split.
  - intros device r. rewrite Hu, Hh. apply Ho.
  - intros r o. rewrite Hh. apply Hl.
Qed.

Section Maintains.

Context (K : State -> Prop).

Lemma maintains_ret {A} (a : A) : maintains K (ret a).
Proof. intros s trace Ht Hk. split; [apply tracked_later, Ht | exact Hk]. Qed.

Lemma maintains_throw {A} (msg : string) : maintains K (@throw A msg).
Proof. intros s trace Ht Hk. split; [apply tracked_later, Ht | exact Hk]. Qed.

Lemma maintains_get_state : maintains K get_state.
Proof. intros s trace Ht Hk. split; [apply tracked_later, Ht | exact Hk]. Qed.

Lemma maintains_emit (e : Event) : maintains K (emit e).
Proof. intros s trace Ht Hk. split; [apply tracked_later, Ht | exact Hk]. Qed.

Lemma maintains_bind {A B} (m : M A) (k : A -> M B) :
  maintains K m -> (forall a, maintains K (k a)) -> maintains K (bind m k).
Proof.
  intros Hm Hk s trace Ht Hs. unfold bind.
  destruct (Hm s trace Ht Hs) as [Ht1 Hs1].
  destruct (outcome (m s)) eqn:E; simpl.
  - rewrite app_assoc. apply (Hk a _ _ Ht1 Hs1).
  - split; assumption.
Qed.

Lemma maintains_try_catch {A} (m : M A) (handler : string -> M A) :
  maintains K m -> (forall msg, maintains K (handler msg)) ->
  maintains K (try_catch m handler).
Proof.
  intros Hm Hh s trace Ht Hs. unfold try_catch.
  destruct (Hm s trace Ht Hs) as [Ht1 Hs1].
  destruct (outcome (m s)) eqn:E; simpl.
  - split; assumption.
  - rewrite app_assoc. apply (Hh message _ _ Ht1 Hs1).
Qed.

(** A state change outside the heap and the map. *)
Lemma maintains_elsewhere (f : State -> State) :
  (forall s, heap (f s) = heap s) -> (forall s, updates (f s) = updates s) ->
  (forall s, K s -> K (f s)) ->
  maintains K (modify f).
Proof.
  intros Hh Hu Hf s trace Ht Hk. split; [|apply Hf, Hk].
  apply tracked_later. apply (tracked_same s); [apply Hh | apply Hu | exact Ht].
Qed.

Lemma maintains_new_Date :
  (forall s, K s -> K (final (new_Date s))) -> maintains K new_Date.
Proof.
  intros Hf s trace Ht Hk. split; [|apply Hf, Hk].
  apply tracked_later.
  apply (tracked_same s); [reflexivity | reflexivity | exact Ht].
Qed.

End Maintains.

(** Splits a run into its statements, by the shape of the run; [leaf] is
    tried on the statements that are not control flow. *)
Ltac track_run leaf :=
  repeat
    (cbv beta zeta;
     lazymatch goal with
     | |- maintains _ (bind _ _) => apply maintains_bind; [|intro]
     | |- maintains _ (try_catch _ _) => apply maintains_try_catch; [|intro]
     | |- maintains _ (ret _) => apply maintains_ret
     | |- maintains _ (throw _) => apply maintains_throw
     | |- maintains _ get_state => apply maintains_get_state
     | |- maintains _ (emit _) => apply maintains_emit
     | |- maintains _ (if ?x then _ else _) => destruct x
     | |- maintains _ (match ?x with Some _ => _ | None => _ end) =>
         destruct x
     | |- maintains _ _ => leaf
     end).

Section Download.

Context (K : State -> Prop) (onProgress : option Callback).
Hypothesis callback_maintains :
  forall cb p, onProgress = Some cb -> maintains K (cb p).
Hypothesis cache_irrelevant : forall f s, K s -> K (with_cache f s).

Lemma report_maintains (p : DownloadProgress) (wanted : bool) :
  maintains K
    (match onProgress with
     | Some cb => if wanted then call cb p else ret tt
     | None => ret tt
     end).
Proof.
  destruct onProgress as [cb|] eqn:E; [|apply maintains_ret].
  destruct wanted; [|apply maintains_ret].
  unfold call. apply maintains_bind; [apply maintains_emit|].
  intros _. apply (callback_maintains cb p eq_refl).
Qed.

Lemma read_loop_maintains (total : option Z) (stream_end : StreamEnd)
  (stream : list Buffer) :
  forall chunks downloaded,
    maintains K (read_loop onProgress total stream stream_end chunks downloaded).
Proof.
  induction stream as [|value rest IH]; intros chunks downloaded.
  - simpl. destruct stream_end; [apply maintains_ret | apply maintains_throw].
  - cbn [read_loop]. apply maintains_bind.
    + apply report_maintains.
    + intros _. apply IH.
Qed.

Lemma download_maintains (net : Network) (url : string) :
  maintains K (download net url onProgress).
Proof.
  unfold download, cache_get.
  apply maintains_bind;
    [apply maintains_bind; [apply maintains_get_state|intro; apply maintains_ret]|].
  intros [cached|].
  - apply maintains_bind; [|intro; apply maintains_ret].
    apply (report_maintains _ true).
  - apply maintains_try_catch; [|intro; apply maintains_throw].
    apply maintains_bind.
    + unfold fetchWithProgress.
      apply maintains_bind; [apply maintains_emit|]. intros _.
      destruct (net url) as [msg|response]; [apply maintains_throw|].
      destruct (negb _); [apply maintains_throw|].
      destruct (body response) as [[stream stream_end]|];
        [apply read_loop_maintains | apply maintains_throw].
    + intros buffer. apply maintains_bind; [|intro; apply maintains_ret].
      apply maintains_elsewhere;
        [reflexivity | reflexivity | apply cache_irrelevant].
Qed.

End Download.

(** What an [alter] leaves in the heap. *)
Lemma lookup_alter_inv (f : OtaUpdateInfo -> OtaUpdateInfo) (r j : nat)
  (h : list OtaUpdateInfo) (o' : OtaUpdateInfo) :
  alter f r h !! j = Some o' ->
  exists o, h !! j = Some o /\ o' = if decide (r = j) then f o else o.
Proof.
  destruct (decide (r = j)) as [->|Hne].
  - rewrite list_lookup_alter_eq. intros H.
    apply fmap_Some in H. destruct H as (o & Ho & ->).
    exists o. auto.
  - rewrite list_lookup_alter_ne by exact Hne. intros H. exists o'. auto.
Qed.

Lemma lookup_alter_Some (f : OtaUpdateInfo -> OtaUpdateInfo) (r j : nat)
  (h : list OtaUpdateInfo) (o : OtaUpdateInfo) :
  h !! j = Some o ->
  alter f r h !! j = Some (if decide (r = j) then f o else o).
Proof.
  intros H. destruct (decide (r = j)) as [->|Hne].
  - rewrite list_lookup_alter_eq, H. reflexivity.
  - rewrite list_lookup_alter_ne by exact Hne. exact H.
Qed.

Section Object.

Context (device : string) (r : nat).

(** An assignment to the object [r]: it may make it Completed only if
    that is logged. *)
Lemma maintains_assignment (f : OtaUpdateInfo -> OtaUpdateInfo)
  (logged : list Event) :
  (forall o, deviceId (f o) = deviceId o) ->
  (forall o, status (f o) = Completed ->
             status o = Completed \/ In (EvStatus device Completed) logged) ->
  forall s trace,
    tracked s trace -> holds device r s ->
    tracked (with_heap (alter f r) s) (trace ++ logged)
    /\ holds device r (with_heap (alter f r) s).
Proof.
  intros Hid Hst s trace [Ho Hl] (o & Hr & Hd). repeat split.
  - intros device' r' Hu. destruct (Ho device' r' Hu) as (o' & Hr' & Hd').
    simpl. rewrite (lookup_alter_Some f r r' _ o' Hr').
    eexists. split; [reflexivity|].
    destruct (decide (r = r')); [rewrite Hid|]; exact Hd'.
  - intros r' o' Hr' Hc. simpl in Hr'.
    apply lookup_alter_inv in Hr'. destruct Hr' as (o0 & Hr0 & ->).
    apply in_or_app.
    destruct (decide (r = r')) as [<-|Hne].
    + rewrite Hid. rewrite Hr in Hr0. injection Hr0 as <-.
      destruct (Hst o Hc) as [Hc0|Hin].
      * left. apply (Hl r o Hr Hc0).
      * right. rewrite Hd. exact Hin.
    + left. apply (Hl r' o0 Hr0 Hc).
  - exists (f o). simpl. rewrite (lookup_alter_Some f r r _ o Hr).
    destruct (decide (r = r)); [|congruence].
    split; [reflexivity | rewrite Hid; exact Hd].
Qed.

Lemma maintains_assign_status (st : OtaUpdateStatus) :
  maintains (holds device r) (assign_status device r st).
Proof.
  intros s trace Ht Hk.
  apply (maintains_assignment (set_status st) [EvStatus device st]);
    [reflexivity | | exact Ht | exact Hk].
  intros o Hc. right. simpl in Hc. subst st. left. reflexivity.
Qed.

Lemma maintains_assign (f : OtaUpdateInfo -> OtaUpdateInfo) :
  (forall o, deviceId (f o) = deviceId o /\ status (f o) = status o) ->
  maintains (holds device r) (assign r f).
Proof.
  intros Hf s trace Ht Hk.
  apply (maintains_assignment f []); [apply Hf | | exact Ht | exact Hk].
  intros o Hc. left. rewrite <- (proj2 (Hf o)). exact Hc.
Qed.

Lemma maintains_assign_progress (p : Z) :
  maintains (holds device r) (assign_progress device r p).
Proof.
  unfold assign_progress.
  apply maintains_bind; [|intros; apply maintains_emit].
  apply maintains_assign. intros o. split; reflexivity.
Qed.

Lemma maintains_updates_set :
  maintains (holds device r) (updates_set device r).
Proof.
  intros s trace [Ho Hl] Hk. split; [|exact Hk].
  apply tracked_later. split; [|exact Hl].
  intros device' r' Hu. simpl in Hu.
  destruct (decide (device = device')) as [<-|Hne].
  - rewrite lookup_insert_eq in Hu. injection Hu as <-. exact Hk.
  - rewrite lookup_insert_ne in Hu by exact Hne. apply (Ho device' r' Hu).
Qed.

Ltac object_step :=
  idtac;
  lazymatch goal with
  | |- maintains _ (assign_status _ _ _) => apply maintains_assign_status
  | |- maintains _ (assign_progress _ _ _) => apply maintains_assign_progress
  | |- maintains _ (assign _ _) =>
      apply maintains_assign; intros ?; split; reflexivity
  | |- maintains _ (updates_set _ _) => apply maintains_updates_set
  | |- maintains _ new_Date => apply maintains_new_Date; intros ? H; exact H
  end.

Lemma progress_callback_maintains (cb : Callback) (p : DownloadProgress) :
  Some (progress_callback device r) = Some cb ->
  maintains (holds device r) (cb p).
Proof.
  intros [= <-]. unfold progress_callback. track_run object_step.
Qed.

(** The statements of [cancelUpdate] on a session that is Downloading. *)
Lemma cancel_maintains :
  maintains (holds device r)
    (assign_status device r Failed ;;;
     assign r (set_error "Update cancelled by user") ;;;
     updates_set device r).
Proof. track_run object_step. Qed.

Context (createHash : HashAlgorithm -> Buffer -> string).

Lemma transfer_maintains (net : Network) (fv : FirmwareVersion) (url : string) :
  maintains (holds device r)
    (try_catch
       (let* firmwareData :=
          download net url (Some (progress_callback device r)) in
        verify_downloaded createHash device r fv firmwareData)
       (record_failure device r)).
Proof.
  unfold verify_downloaded, record_failure.
  track_run ltac:(idtac;
                  lazymatch goal with
                  | |- maintains _ (download _ _ _) =>
                      apply download_maintains;
                      [apply progress_callback_maintains
                      | intros f s H; exact H]
                  | |- _ => object_step
                  end).
Qed.

(** The statements of [begin_download] once the object is known. *)
Lemma mark_downloading_maintains (fv : FirmwareVersion) :
  maintains (holds device r)
    (assign_status device r Downloading ;;;
     assign_progress device r 0 ;;;
     assign r (set_targetVersion (version fv)) ;;;
     updates_set device r ;;;
     ret r).
Proof. track_run object_step. Qed.

(** The statements of [checkForUpdate] once the object is created. *)
Lemma check_maintains (current : string) :
  maintains (holds device r)
    (emit (EvStatus device Checking) ;;;
     updates_set device r ;;;
     try_catch (check_catalog device current r) (check_failed device r)).
Proof. unfold check_catalog, check_failed. track_run object_step. Qed.

End Object.

Lemma new_object_tracked (o : OtaUpdateInfo) (s : State) (trace : list Event) :
  status o <> Completed ->
  tracked s trace ->
  tracked (final (new_object o s)) trace
  /\ holds (deviceId o) (length (heap s)) (final (new_object o s)).
Proof.
  intros Hst [Ho Hl]. simpl. repeat split.
  - intros device r Hu. destruct (Ho device r Hu) as (o' & Hr & Hd).
    exists o'. split; [|exact Hd]. simpl.
    apply lookup_app_l_Some. exact Hr.
  - intros r o' Hr Hc. simpl in Hr.
    apply lookup_app_Some in Hr. destruct Hr as [Hr|[_ Hr]].
    + apply (Hl r o' Hr Hc).
    + destruct (r - length (heap s))%nat; simpl in Hr; [|discriminate Hr].
      injection Hr as <-. contradiction.
  - exists o. split; [|reflexivity]. simpl. apply list_lookup_middle.
    reflexivity.
Qed.

Section Operations.

Context (createHash : HashAlgorithm -> Buffer -> string).

Lemma begin_download_tracked (device : string) (fv : FirmwareVersion)
  (s : State) (trace : list Event) :
  tracked s trace ->
  exists r,
    outcome (begin_download device fv s) = Returned r
    /\ tracked (final (begin_download device fv s))
         (trace ++ events (begin_download device fv s))
    /\ holds device r (final (begin_download device fv s)).
Proof.
  intros Ht. destruct (updates s !! device) as [r|] eqn:E.
  - assert (Hk : holds device r s) by (apply (proj1 Ht), E).
    exists r.
    pose proof (mark_downloading_maintains device r fv s trace Ht Hk) as H.
    unfold begin_download, updates_get, bind, get_state in *. simpl in *.
    rewrite E. simpl. split; [reflexivity | exact H].
  - set (o := {| deviceId := device; currentVersion := "";
                 targetVersion := None; status := Idle;
                 progress := None; error := None;
                 startedAt := None; completedAt := None |}).
    destruct (new_object_tracked o s trace ltac:(discriminate) Ht) as [Ht0 Hk0].
    exists (length (heap s)).
    pose proof (mark_downloading_maintains device (length (heap s)) fv
                  _ trace Ht0 Hk0) as H.
    unfold begin_download, updates_get, bind, get_state in *. simpl in *.
    rewrite E. simpl. split; [reflexivity | exact H].
Qed.

Lemma downloadFirmware_tracked (net : Network) (device : string)
  (fv : FirmwareVersion) (s : State) (trace : list Event) :
  tracked s trace ->
  tracked (final (downloadFirmware createHash net device fv s))
    (trace ++ events (downloadFirmware createHash net device fv s)).
Proof.
  intros Ht.
  destruct (begin_download_tracked device fv s trace Ht) as (r & Hr & Ht1 & Hk1).
  unfold downloadFirmware. rewrite (bind_returned _ _ s r Hr).
  cbn [final events]. rewrite app_assoc.
  destruct (fileUrl fv) as [url|]; [|apply tracked_later, Ht1].
  destruct (negb _); [apply tracked_later, Ht1|].
  apply (transfer_maintains device r createHash net fv url _ _ Ht1 Hk1).
Qed.

Lemma checkForUpdate_tracked (device current : string) (s : State)
  (trace : list Event) :
  tracked s trace ->
  tracked (final (checkForUpdate device current s))
    (trace ++ events (checkForUpdate device current s)).
Proof.
  intros Ht.
  set (o := {| deviceId := device; currentVersion := current;
               targetVersion := None; status := Checking;
               progress := None; error := None;
               startedAt := Some (clock s); completedAt := None |}).
  assert (Ht' : tracked (final (new_Date s)) trace).
  { apply (tracked_same s); [reflexivity | reflexivity | exact Ht]. }
  destruct (new_object_tracked o _ trace ltac:(discriminate) Ht') as [Ht0 Hk0].
  exact (proj1 (check_maintains device (length (heap s)) current _ trace
                  Ht0 Hk0)).
Qed.

Lemma cancelUpdate_tracked (device : string) (s : State) (trace : list Event) :
  tracked s trace ->
  tracked (final (cancelUpdate device s)) (trace ++ events (cancelUpdate device s)).
Proof.
  intros Ht. unfold cancelUpdate.
  erewrite final_bind_returned, events_bind_returned by reflexivity.
  change (final (updates_get device s)) with s.
  change (events (updates_get device s)) with (@nil Event).
  cbv beta. cbn [app].
  destruct (updates s !! device) as [r|] eqn:E; [|apply tracked_later, Ht].
  assert (Hk : holds device r s) by (apply (proj1 Ht), E).
  erewrite final_bind_returned, events_bind_returned by reflexivity.
  change (final (get_state s)) with s.
  change (events (get_state s)) with (@nil Event).
  cbv beta. cbn [app].
  destruct (heap s !! r) as [o|]; [|apply tracked_later, Ht].
  destruct (decide (status o = Downloading)); [|apply tracked_later, Ht].
  apply (cancel_maintains device r s trace Ht Hk).
Qed.

Lemma clearUpdate_tracked (device : string) (s : State) (trace : list Event) :
  tracked s trace ->
  tracked (final (clearUpdate device s)) (trace ++ events (clearUpdate device s)).
Proof.
  intros [Ho Hl]. apply tracked_later. split; [|exact Hl].
  intros device' r Hu. simpl in Hu.
  apply lookup_delete_Some in Hu. destruct Hu as [_ Hu]. apply (Ho device' r Hu).
Qed.

Lemma plain_download_tracked (net : Network) (url : string) (report : bool)
  (s : State) (trace : list Event) :
  tracked s trace ->
  tracked (final (download net url
                    (if report then Some silent_callback else None) s))
    (trace ++ events (download net url
                        (if report then Some silent_callback else None) s)).
Proof.
  intros Ht.
  refine (proj1 (download_maintains any_state _ _ _ net url s trace Ht Logic.I)).
  - intros cb p H. destruct report; [|discriminate H].
    injection H as <-. apply maintains_ret.
  - intros f s' _. exact Logic.I.
Qed.

Lemma performUpdate_tracked (net : Network) (device current : string)
  (s : State) (trace : list Event) :
  tracked s trace ->
  tracked (final (performUpdate createHash net device current s))
    (trace ++ events (performUpdate createHash net device current s)).
Proof.
  intros Ht. unfold performUpdate.
  pose proof (checkForUpdate_tracked device current s trace Ht) as Hc.
  destruct (outcome (checkForUpdate device current s)) as [[latest|]|] eqn:C.
  - rewrite (final_bind_returned _ _ s _ C), (events_bind_returned _ _ s _ C).
    cbv beta iota. rewrite app_assoc. apply downloadFirmware_tracked, Hc.
  - rewrite (final_bind_returned _ _ s _ C), (events_bind_returned _ _ s _ C).
    cbv beta iota. rewrite final_throw, events_throw, app_nil_r. exact Hc.
  - rewrite (final_bind_thrown _ _ s _ C), (events_bind_thrown _ _ s _ C).
    exact Hc.
Qed.

Lemma run_op_tracked (op : Op) (s : State) (trace : list Event) :
  tracked s trace ->
  tracked (final (run_op createHash op s))
    (trace ++ events (run_op createHash op s)).
Proof.
  intros Ht. destruct op; cbn [run_op].
  - apply tracked_later, (tracked_same s); [reflexivity | reflexivity | exact Ht].
  - rewrite attempt_final, attempt_events. apply checkForUpdate_tracked, Ht.
  - rewrite attempt_final, attempt_events. apply downloadFirmware_tracked, Ht.
  - rewrite attempt_final, attempt_events.
    apply performUpdate_tracked, Ht.
  - apply cancelUpdate_tracked, Ht.
  - apply clearUpdate_tracked, Ht.
  - rewrite attempt_final, attempt_events. apply plain_download_tracked, Ht.
  - apply tracked_later, (tracked_same s); [reflexivity | reflexivity | exact Ht].
Qed.

Lemma run_ops_tracked (ops : list Op) (s : State) (trace : list Event) :
  tracked s trace ->
  tracked (final (run_ops createHash ops s))
    (trace ++ events (run_ops createHash ops s)).
Proof.
  revert s trace. induction ops as [|op rest IH]; intros s trace Ht.
  - apply tracked_later, Ht.
  - cbn [run_ops]. unfold bind.
    pose proof (run_op_tracked op s trace Ht) as H1.
    destruct (outcome (run_op createHash op s)); cbn [final events].
    + rewrite app_assoc. apply IH, H1.
    + exact H1.
Qed.

Lemma pristine_tracked (s : State) : pristine s -> tracked s [].
Proof.
  intros [Hu Hh]. split.
  - intros device r H. rewrite Hu, lookup_empty in H. discriminate H.
  - intros r o H. rewrite Hh in H. discriminate H.
Qed.

(** A session that is Completed was marked so in the trace. *)
Lemma completed_session_is_logged (ops : list Op) (s : State)
  (device : string) (o : OtaUpdateInfo) :
  pristine s ->
  getUpdateStatus (final (run_ops createHash ops s)) device = Some o ->
  status o = Completed ->
  In (EvStatus device Completed) (events (run_ops createHash ops s)).
Proof.
  intros Hp Hget Hst.
  destruct (run_ops_tracked ops s [] (pristine_tracked s Hp)) as [Ho Hl].
  unfold getUpdateStatus in Hget.
  destruct (updates (final (run_ops createHash ops s)) !! device) as [r|] eqn:E;
    [|discriminate Hget].
  simpl in Hget. destruct (Ho device r E) as (o' & Hr & Hd).
  rewrite Hr in Hget. injection Hget as ->.
  rewrite <- Hd. apply (Hl r o Hr Hst).
Qed.

End Operations.

End TrackingFacts.

(** ** The integrity guarantee *)

Module IntegrityFacts.

Import OtaManager.

Section Integrity.

Context (createHash : HashAlgorithm -> Buffer -> string).

(** C1.  In the trace of any sequence of operations, from any state, an
    assignment of Completed to a device's session comes right after the
    return of [verifyIntegrity] on that device's downloaded bytes, and that
    result has no errors; a session that is Completed after a sequence of
    operations on a fresh manager was marked so in the trace, hence after
    such a verification; and [downloadFirmware] and [performUpdate] return
    bytes to their caller only when [verifyIntegrity] reported no error on
    those bytes. *)
Theorem completed_only_after_clean_verification :
  (forall (ops : list Op) (s : State),
      completions_verified createHash (events (run_ops createHash ops s)))
  /\ (forall (ops : list Op) (s : State) device o,
        pristine s ->
        getUpdateStatus (final (run_ops createHash ops s)) device = Some o ->
        status o = Completed ->
        exists earlier data fv after,
          events (run_ops createHash ops s)
          = (earlier
             ++ EvVerify device data fv
                  (FirmwareVerifier.verifyIntegrity createHash data fv)
             :: EvStatus device Completed :: after)%list
          /\ errors (FirmwareVerifier.verifyIntegrity createHash data fv) = [])
  /\ (forall net device fv s data,
        outcome (downloadFirmware createHash net device fv s) = Returned data ->
        errors (FirmwareVerifier.verifyIntegrity createHash data fv) = [])
  /\ (forall net device current s data,
        outcome (performUpdate createHash net device current s) = Returned data ->
        exists fv,
          outcome (checkForUpdate device current s) = Returned (Some fv)
          /\ errors (FirmwareVerifier.verifyIntegrity createHash data fv) = []).
Proof.
  split; [exact (CompletionFacts.run_ops_is_verified createHash)|].
  split; [|split].
  - intros ops s device o Hp Hget Hst.
    pose proof (TrackingFacts.completed_session_is_logged createHash ops s
                  device o Hp Hget Hst) as Hin.
    apply in_split in Hin. destruct Hin as (before & after & Heq).
    destruct (CompletionFacts.run_ops_is_verified createHash ops s
                before device after Heq)
      as (earlier & data & fv & -> & Herr & _).
    exists earlier, data, fv, after. split; [|exact Herr].
    rewrite Heq, <- app_assoc. reflexivity.
  - intros net device fv s data H.
    apply VerifierFacts.valid_has_no_errors.
    apply (CompletionFacts.downloadFirmware_returns_verified createHash
             net device fv s data H).
  - intros net device current s data H.
    destruct (CompletionFacts.performUpdate_returns createHash net device
                current s data H) as (fv & Hc & Hd).
    exists fv. split; [exact Hc|].
    apply VerifierFacts.valid_has_no_errors.
    apply (CompletionFacts.downloadFirmware_returns_verified createHash
             net device fv _ data Hd).
Qed.

End Integrity.

Lemma completed_only_after_clean_verification_witness :
  let run := run_ops Sample.count_hash
               [PerformUpdate Sample.server "dev-1" "1.0.0"] Sample.catalog in
  (status <$> getUpdateStatus (final run) "dev-1") = Some Completed
  /\ exists earlier data fv after,
      events run
      = (earlier
         ++ EvVerify "dev-1" data fv
              (FirmwareVerifier.verifyIntegrity Sample.count_hash data fv)
         :: EvStatus "dev-1" Completed :: after)%list
      /\ errors (FirmwareVerifier.verifyIntegrity Sample.count_hash data fv) = [].
Proof.
  intros run. split; [vm_compute; reflexivity|].
  apply (proj1 (proj2 (completed_only_after_clean_verification
                         Sample.count_hash))
           [PerformUpdate Sample.server "dev-1" "1.0.0"] Sample.catalog "dev-1"
           {| deviceId := "dev-1"; currentVersion := "1.0.0";
              targetVersion := Some "1.0.1"; status := Completed;
              progress := Some 100; error := None;
              startedAt := Some 0; completedAt := Some 1 |}).
  - split; reflexivity.
  - vm_compute. reflexivity.
  - reflexivity.
Defined.

End IntegrityFacts.

(** * Further properties of the code *)

(** ** FirmwareVersionManager: the catalog *)

Module CatalogFacts.

Import FirmwareVersionManager.

Lemma map_get_set_eq (k : string) (v : FirmwareVersion) (m : Versions) :
  map_get k (map_set k v m) = Some v.
Proof.
  induction m as [|[k' v'] m IH]; simpl.
  - rewrite String.eqb_refl. reflexivity.
  - destruct (String.eqb k' k) eqn:E; simpl.
    + rewrite String.eqb_refl. reflexivity.
    + rewrite E. exact IH.
Qed.

Lemma map_get_set_ne (k k' : string) (v : FirmwareVersion) (m : Versions) :
  k' <> k -> map_get k' (map_set k v m) = map_get k' m.
Proof.
  intros Hne. induction m as [|[k0 v0] m IH]; simpl.
  - destruct (String.eqb_spec k k'); [congruence | reflexivity].
  - destruct (String.eqb_spec k0 k) as [->|Hk]; simpl.
    + destruct (String.eqb_spec k k'); [congruence | reflexivity].
    + destruct (String.eqb k0 k'); [reflexivity | exact IH].
Qed.

(** X1.  A registered version is what [getVersion] returns for its key,
    and registering under one key changes the answer for no other key. *)
Theorem getVersion_after_registerVersion
  (k k' : string) (fv : FirmwareVersion) (catalog : Versions) :
  getVersion k (registerVersion k fv catalog) = Some fv
  /\ (k' <> k ->
      getVersion k' (registerVersion k fv catalog) = getVersion k' catalog).
Proof.
  unfold getVersion, registerVersion.
  split; [apply map_get_set_eq | apply map_get_set_ne].
Qed.

Lemma getVersion_after_registerVersion_witness :
  getVersion "1.0.0"
    (registerVersion "1.0.1" Sample.v101
       (registerVersion "1.0.0" Sample.no_url []))
  = Some Sample.no_url.
Proof.
  rewrite (proj2 (getVersion_after_registerVersion "1.0.1" "1.0.0" Sample.v101
                    (registerVersion "1.0.0" Sample.no_url [])))
    by discriminate.
  reflexivity.
Defined.

Lemma map_set_new (k : string) (v : FirmwareVersion) (m : Versions) :
  map_get k m = None -> map_set k v m = (m ++ [(k, v)])%list.
Proof.
  induction m as [|[k' v'] m IH]; simpl; [reflexivity|].
  destruct (String.eqb k' k); [discriminate|].
  intros H. rewrite (IH H). reflexivity.
Qed.

Lemma map_set_known (k : string) (v old : FirmwareVersion) (m : Versions) :
  map_get k m = Some old -> map fst (map_set k v m) = map fst m.
Proof.
  induction m as [|[k' v'] m IH]; simpl; [discriminate|].
  destruct (String.eqb_spec k' k) as [->|Hne]; simpl; [reflexivity|].
  intros H. rewrite (IH H). reflexivity.
Qed.

Lemma map_set_twice (k : string) (v v' : FirmwareVersion) (m : Versions) :
  map_set k v (map_set k v' m) = map_set k v m.
Proof.
  induction m as [|[k0 v0] m IH]; simpl.
  - rewrite String.eqb_refl. reflexivity.
  - destruct (String.eqb k0 k) eqn:E; simpl.
    + rewrite String.eqb_refl. reflexivity.
    + rewrite E, IH. reflexivity.
Qed.

(** X2.  [registerVersion] is an upsert that keeps the iteration order of
    the catalog: a new key goes to the end, a known key keeps its place
    (the sequence of keys does not change), and of two registrations under
    one key only the last one counts. *)
Theorem registerVersion_is_ordered_upsert
  (k : string) (fv fv' : FirmwareVersion) (catalog : Versions) :
  (getVersion k catalog = None ->
   registerVersion k fv catalog = (catalog ++ [(k, fv)])%list)
  /\ (forall old, getVersion k catalog = Some old ->
                  map fst (registerVersion k fv catalog) = map fst catalog)
  /\ registerVersion k fv (registerVersion k fv' catalog)
     = registerVersion k fv catalog.
Proof.
  unfold getVersion, registerVersion.
  split; [apply map_set_new|]. split; [|apply map_set_twice].
  intros old. apply map_set_known.
Qed.

Lemma registerVersion_is_ordered_upsert_witness :
  map fst (registerVersion "1.0.0" Sample.v101
             (registerVersion "1.0.1" Sample.v101
                (registerVersion "1.0.0" Sample.no_url [])))
  = ["1.0.0"; "1.0.1"].
Proof.
  rewrite (proj1 (proj2 (registerVersion_is_ordered_upsert "1.0.0"
                           Sample.v101 Sample.v101
                           (registerVersion "1.0.1" Sample.v101
                              (registerVersion "1.0.0" Sample.no_url []))))
             Sample.no_url)
    by reflexivity.
  reflexivity.
Defined.

Lemma head_sort_insert (a : FirmwareVersion) (sorted : list FirmwareVersion) :
  head (sort_insert a sorted)
  = match head sorted with
    | None => Some a
    | Some b => if date_key b - date_key a <=? 0 then Some a else Some b
    end.
Proof.
  destruct sorted as [|b rest]; simpl; [reflexivity|].
  destruct (date_key b - date_key a <=? 0); reflexivity.
Qed.

Lemma sort_insert_not_nil (a : FirmwareVersion) (sorted : list FirmwareVersion) :
  sort_insert a sorted <> [].
Proof.
  destruct sorted as [|b rest]; simpl; [discriminate|].
  destruct (date_key b - date_key a <=? 0); discriminate.
Qed.

(** The head of the sorted list is the first of the versions with the
    greatest date. *)
Lemma head_sort_by_date (l : list FirmwareVersion) (h : FirmwareVersion) :
  head (sort_by_date l) = Some h ->
  exists before after,
    l = (before ++ h :: after)%list
    /\ (forall v, In v before -> date_key v < date_key h)
    /\ (forall v, In v after -> date_key v <= date_key h).
Proof.
  revert h. induction l as [|x rest IH]; intros h; simpl; [discriminate|].
  rewrite head_sort_insert.
  destruct (head (sort_by_date rest)) as [b|] eqn:E.
  - destruct (IH b eq_refl) as (before & after & -> & Hb & Ha).
    destruct (Z.leb_spec (date_key b - date_key x) 0) as [Hle|Hgt].
    + intros [= <-]. exists [], (before ++ b :: after)%list.
      split; [reflexivity|]. split; [intros v []|].
      intros v Hv. apply in_app_or in Hv.
      destruct Hv as [Hv|[<-|Hv]].
      * specialize (Hb v Hv). lia.
      * lia.
      * specialize (Ha v Hv). lia.
    + intros [= <-]. exists (x :: before), after.
      split; [reflexivity|]. split; [|exact Ha].
      intros v [<-|Hv]; [lia | apply Hb, Hv].
  - intros [= <-].
    assert (rest = []) as ->.
    { destruct rest as [|y rest']; [reflexivity|]. simpl in E.
      pose proof (sort_insert_not_nil y (sort_by_date rest')) as Hn.
      destruct (sort_insert y (sort_by_date rest')); [congruence | discriminate E]. }
    exists [], []. split; [reflexivity|]. split; intros v [].
Qed.

(** X3.  [getLatestVersion] is null exactly on the empty catalog;
    otherwise it returns a registered version whose release date (0 when
    missing) is the greatest, and among the versions with that date the
    first in catalog order. *)
Theorem getLatestVersion_is_first_newest (catalog : Versions) :
  (getLatestVersion catalog = None <-> catalog = [])
  /\ (forall latest,
        getLatestVersion catalog = Some latest ->
        exists before after,
          getAllVersions catalog = (before ++ latest :: after)%list
          /\ (forall v, In v before -> date_key v < date_key latest)
          /\ (forall v, In v after -> date_key v <= date_key latest)).
Proof.
  unfold getLatestVersion, getAllVersions. split.
  - destruct catalog as [|[k v] rest]; cbn [map length Nat.eqb].
    + split; reflexivity.
    + split; [|discriminate]. cbn [sort_by_date foldr snd].
      rewrite head_sort_insert.
      destruct (head _); [destruct (_ <=? _)|]; discriminate.
  - intros latest.
    destruct (length (map snd catalog) =? 0)%nat; [discriminate|].
    apply head_sort_by_date.
Qed.

Lemma getLatestVersion_is_first_newest_witness :
  exists before after,
    getAllVersions (versions Sample.catalog)
    = (before ++ Sample.v101 :: after)%list
    /\ (forall v, In v before -> date_key v < date_key Sample.v101)
    /\ (forall v, In v after -> date_key v <= date_key Sample.v101).
Proof.
  apply (proj2 (getLatestVersion_is_first_newest (versions Sample.catalog))).
  reflexivity.
Defined.

End CatalogFacts.

(** ** FirmwareVersionManager: the comparison *)

Module OrderFacts.

Import FirmwareVersionManager.

Lemma lt_irrefl (x : Js.JsNumber) : Js.lt x x = false.
Proof.
  destruct x as [|b|q]; simpl; [reflexivity | destruct b; reflexivity |].
  apply negb_false_iff, Qle_bool_iff, Qle_refl.
Qed.

Lemma lt_asym (x y : Js.JsNumber) : Js.lt x y = true -> Js.lt y x = false.
Proof.
  destruct x as [|bx|p], y as [|by'|q]; simpl; try discriminate;
    try (destruct bx; simpl; congruence);
    try (destruct by'; simpl; congruence);
    try (destruct bx, by'; simpl; congruence).
  intros H. apply negb_true_iff in H. apply negb_false_iff, Qle_bool_iff.
  destruct (Qlt_le_dec q p) as [Hlt|Hle]; [|exact Hle].
  exfalso. apply Qlt_le_weak, Qle_bool_iff in Hlt. congruence.
Qed.

Lemma compare_loop_swap (a b : list Js.JsNumber) (todo : nat) :
  forall i, compare_loop b a i todo = - compare_loop a b i todo.
Proof.
  induction todo as [|todo IH]; intros i; [reflexivity|].
  cbn [compare_loop]. unfold Js.gt.
  destruct (Js.lt (part_or_zero b i) (part_or_zero a i)) eqn:Hba.
  - rewrite (lt_asym _ _ Hba). reflexivity.
  - destruct (Js.lt (part_or_zero a i) (part_or_zero b i)); [reflexivity|].
    apply IH.
Qed.

Lemma compare_loop_same (a : list Js.JsNumber) (todo : nat) :
  forall i, compare_loop a a i todo = 0.
Proof.
  induction todo as [|todo IH]; intros i; [reflexivity|].
  cbn [compare_loop]. unfold Js.gt. rewrite lt_irrefl. apply IH.
Qed.

Lemma compare_loop_range (a b : list Js.JsNumber) (todo : nat) :
  forall i, compare_loop a b i todo = -1 \/ compare_loop a b i todo = 0
            \/ compare_loop a b i todo = 1.
Proof.
  induction todo as [|todo IH]; intros i; [auto|].
  cbn [compare_loop].
  destruct (Js.gt _ _); [auto|]. destruct (Js.lt _ _); [auto|]. apply IH.
Qed.

Lemma compareVersions_sign (a b : string) :
  (compareVersions a b = -1 \/ compareVersions a b = 0
   \/ compareVersions a b = 1)
  /\ compareVersions a a = 0
  /\ compareVersions b a = - compareVersions a b.
Proof.
  unfold compareVersions. cbv zeta. split; [apply compare_loop_range|].
  split; [apply compare_loop_same|].
  rewrite (Nat.max_comm (length (map Js.Number (Js.split "." b)))).
  apply compare_loop_swap.
Qed.

(** X4.  [compareVersions] returns -1, 0 or 1; a version string compares
    equal to itself, whatever it contains; and swapping the arguments
    negates the result. *)
Theorem compareVersions_is_a_sign (a b : string) :
  (compareVersions a b = -1 \/ compareVersions a b = 0
   \/ compareVersions a b = 1)
  /\ compareVersions a a = 0
  /\ compareVersions b a = - compareVersions a b.
Proof. apply compareVersions_sign. Qed.

Lemma split_not_nil (sep : ascii) (s : string) : Js.split sep s <> [].
Proof.
  destruct s as [|c rest]; simpl; [discriminate|].
  destruct (Ascii.eqb c sep); [discriminate|].
  destruct (Js.split sep rest); discriminate.
Qed.

(** Splitting a string that ends with one more segment. *)
Lemma split_append (sep : ascii) (s seg : string) :
  Js.split sep (s +:+ String sep seg)
  = (Js.split sep s ++ Js.split sep seg)%list.
Proof.
  induction s as [|c rest IH]; simpl.
  - rewrite Ascii.eqb_refl. reflexivity.
  - destruct (Ascii.eqb c sep); [rewrite IH; reflexivity|].
    change (append rest (String sep seg)) with (rest +:+ String sep seg).
    rewrite IH.
    pose proof (split_not_nil sep rest) as Hn.
    destruct (Js.split sep rest) as [|s0 segs]; [congruence | reflexivity].
Qed.

(** A trailing part that is falsy reads as a missing part. *)
Lemma part_or_zero_snoc (parts : list Js.JsNumber) (n : Js.JsNumber) (i : nat) :
  Js.truthy n = false ->
  part_or_zero (parts ++ [n]) i = part_or_zero parts i.
Proof.
  intros Hn. unfold part_or_zero.
  destruct (decide (i < length parts)%nat) as [Hlt|Hge].
  - rewrite lookup_app_l by exact Hlt. reflexivity.
  - rewrite lookup_app_r by lia.
    rewrite (lookup_ge_None_2 parts i) by lia.
    destruct (i - length parts)%nat; simpl; [rewrite Hn|]; reflexivity.
Qed.

Lemma compare_loop_snoc (a b : list Js.JsNumber) (n : Js.JsNumber) (todo : nat) :
  Js.truthy n = false ->
  forall i, compare_loop (a ++ [n]) b i todo = compare_loop a b i todo.
Proof.
  intros Hn. induction todo as [|todo IH]; intros i; [reflexivity|].
  cbn [compare_loop]. rewrite (part_or_zero_snoc a n i Hn), IH. reflexivity.
Qed.

Lemma part_or_zero_beyond (parts : list Js.JsNumber) (i : nat) :
  (length parts <= i)%nat -> part_or_zero parts i = Js.Zero.
Proof.
  intros H. unfold part_or_zero. rewrite lookup_ge_None_2 by exact H.
  reflexivity.
Qed.

(** Iterations past the end of both arrays compare 0 with 0. *)
Lemma compare_loop_beyond (a b : list Js.JsNumber) (todo : nat) :
  forall i, (length a <= i)%nat -> (length b <= i)%nat ->
            compare_loop a b i todo = 0.
Proof.
  induction todo as [|todo IH]; intros i Ha Hb; [reflexivity|].
  cbn [compare_loop]. rewrite !part_or_zero_beyond by assumption.
  cbn. apply IH; lia.
Qed.

Lemma compare_loop_more (a b : list Js.JsNumber) (todo : nat) :
  forall i, (length a <= i + todo)%nat -> (length b <= i + todo)%nat ->
            compare_loop a b i (S todo) = compare_loop a b i todo.
Proof.
  induction todo as [|todo IH]; intros i Ha Hb.
  - apply compare_loop_beyond; lia.
  - cbn [compare_loop] in *.
    destruct (Js.gt _ _); [reflexivity|].
    destruct (Js.lt _ _); [reflexivity|].
    apply (IH (S i)); lia.
Qed.

(** X5.  A trailing ".0" does not count: with it or without it, a version
    compares the same against every other version, on either side. *)
Theorem compareVersions_ignores_trailing_zero (v w : string) :
  compareVersions (v +:+ ".0") w = compareVersions v w
  /\ compareVersions w (v +:+ ".0") = compareVersions w v.
Proof.
  assert (H : compareVersions (v +:+ ".0") w = compareVersions v w).
  { unfold compareVersions. cbv zeta.
    rewrite (split_append "." v "0"), map_app.
    change (map Js.Number (Js.split "." "0")) with [Js.Finite 0].
    rewrite length_app. cbn [length].
    set (a := map Js.Number (Js.split "." v)).
    set (b := map Js.Number (Js.split "." w)).
    rewrite compare_loop_snoc by reflexivity.
    destruct (decide (length a < length b)%nat) as [Hlt|Hge].
    - replace (Nat.max (length a + 1) (length b)) with (length b) by lia.
      replace (Nat.max (length a) (length b)) with (length b) by lia.
      reflexivity.
    - replace (Nat.max (length a + 1) (length b)) with (S (length a)) by lia.
      replace (Nat.max (length a) (length b)) with (length a) by lia.
      apply compare_loop_more; lia. }
  split; [exact H|].
  rewrite (proj2 (proj2 (compareVersions_sign v w))).
  rewrite (proj2 (proj2 (compareVersions_sign (v +:+ ".0") w))).
  rewrite H. reflexivity.
Qed.

End OrderFacts.

(** ** FirmwareVersionManager: the comparison is an ordering *)

Module OrderingFacts.

Import FirmwareVersionManager.

Lemma part_or_zero_is_number (parts : list Js.JsNumber) (i : nat) :
  is_number (part_or_zero parts i).
Proof.
  unfold part_or_zero, is_number.
  destruct (parts !! i) as [[|b|q]|]; simpl; try discriminate.
  destruct (negb (Qeq_bool q 0)); discriminate.
Qed.

Lemma Qle_bool_false (p q : Q) : Qle_bool p q = false -> (q < p)%Q.
Proof.
  intros H. destruct (Qlt_le_dec q p) as [Hlt|Hle]; [exact Hlt|].
  apply Qle_bool_iff in Hle. congruence.
Qed.

Lemma Qle_bool_true (p q : Q) : Qle_bool p q = true -> (p <= q)%Q.
Proof. apply Qle_bool_iff. Qed.

Lemma Qlt_bool_false (p q : Q) : (p < q)%Q -> Qle_bool q p = false.
Proof.
  intros H. destruct (Qle_bool q p) eqn:E; [|reflexivity].
  apply Qle_bool_iff in E. exfalso. exact (Qlt_not_le _ _ H E).
Qed.

Lemma lt_trans (x y z : Js.JsNumber) :
  Js.lt x y = true -> Js.lt y z = true -> Js.lt x z = true.
Proof.
  destruct x as [|bx|p], y as [|by'|q], z as [|bz|r]; simpl;
    try discriminate; try (destruct bx); try (destruct by');
    try (destruct bz); simpl; try congruence.
  intros H1 H2. apply negb_true_iff in H1, H2. apply negb_true_iff.
  apply Qle_bool_false in H1, H2. apply Qlt_bool_false.
  exact (Qlt_trans _ _ _ H1 H2).
Qed.

(** Below a number, then not above the next: still below. *)
Lemma lt_then_le (x y z : Js.JsNumber) :
  is_number z ->
  Js.lt x y = true -> Js.lt z y = false -> Js.lt x z = true.
Proof.
  unfold is_number.
  destruct x as [|bx|p], y as [|by'|q], z as [|bz|r]; simpl;
    try discriminate; try congruence; try (destruct bx); try (destruct by');
    try (destruct bz); simpl; try congruence.
  intros _ H1 H2. apply negb_true_iff in H1. apply negb_false_iff in H2.
  apply Qle_bool_false in H1. apply Qle_bool_true in H2.
  apply negb_true_iff, Qlt_bool_false. exact (Qlt_le_trans _ _ _ H1 H2).
Qed.

Lemma le_then_lt (x y z : Js.JsNumber) :
  is_number x ->
  Js.lt y x = false -> Js.lt y z = true -> Js.lt x z = true.
Proof.
  unfold is_number.
  destruct x as [|bx|p], y as [|by'|q], z as [|bz|r]; simpl;
    try discriminate; try congruence; try (destruct bx); try (destruct by');
    try (destruct bz); simpl; try congruence.
  intros _ H1 H2. apply negb_true_iff in H2. apply negb_false_iff in H1.
  apply Qle_bool_false in H2. apply Qle_bool_true in H1.
  apply negb_true_iff, Qlt_bool_false. exact (Qle_lt_trans _ _ _ H1 H2).
Qed.

(** Not above twice: not above. *)
Lemma le_trans (x y z : Js.JsNumber) :
  is_number y ->
  Js.lt y x = false -> Js.lt z y = false -> Js.lt z x = false.
Proof.
  intros Hy H1 H2. destruct (Js.lt z x) eqn:E; [|reflexivity].
  pose proof (lt_then_le z x y Hy E H1) as H. congruence.
Qed.

(** The loop, run over the same number of parts on two pairs that share
    the middle version. *)
Lemma compare_loop_trans (a b c : list Js.JsNumber) (todo : nat) :
  forall i,
    compare_loop a b i todo <= 0 -> compare_loop b c i todo <= 0 ->
    compare_loop a c i todo <= 0
    /\ (compare_loop a b i todo < 0 \/ compare_loop b c i todo < 0 ->
        compare_loop a c i todo < 0).
Proof.
  induction todo as [|todo IH]; intros i; cbn [compare_loop]; [lia|].
  unfold Js.gt.
  pose proof (part_or_zero_is_number a i) as Hx.
  pose proof (part_or_zero_is_number b i) as Hy.
  pose proof (part_or_zero_is_number c i) as Hz.
  set (x := part_or_zero a i) in *. set (y := part_or_zero b i) in *.
  set (z := part_or_zero c i) in *.
  destruct (Js.lt y x) eqn:Hyx; [lia|].
  destruct (Js.lt z y) eqn:Hzy; [lia|].
  rewrite (le_trans x y z Hy Hyx Hzy).
  destruct (Js.lt x y) eqn:Hxy.
  { rewrite (lt_then_le x y z Hz Hxy Hzy). lia. }
  destruct (Js.lt y z) eqn:Hyz.
  { rewrite (le_then_lt x y z Hx Hyx Hyz). lia. }
  destruct (Js.lt x z) eqn:Hxz; [lia|]. apply IH.
Qed.

(** Running the loop beyond the longer array changes nothing. *)
Lemma compare_loop_enough (a b : list Js.JsNumber) (extra : nat) :
  compare_loop a b 0 (Nat.max (length a) (length b) + extra)
  = compare_loop a b 0 (Nat.max (length a) (length b)).
Proof.
  induction extra as [|extra IH].
  - rewrite Nat.add_0_r. reflexivity.
  - rewrite Nat.add_succ_r, <- IH.
    apply OrderFacts.compare_loop_more; lia.
Qed.

Lemma compareVersions_padded (v w : string) (n : nat) :
  (length (Js.split "." v) <= n)%nat -> (length (Js.split "." w) <= n)%nat ->
  compareVersions v w
  = compare_loop (map Js.Number (Js.split "." v))
                 (map Js.Number (Js.split "." w)) 0 n.
Proof.
  intros Hv Hw. unfold compareVersions. cbv zeta.
  set (a := map Js.Number (Js.split "." v)).
  set (b := map Js.Number (Js.split "." w)).
  assert (Ha : length a = length (Js.split "." v)) by apply length_map.
  assert (Hb : length b = length (Js.split "." w)) by apply length_map.
  replace n with (Nat.max (length a) (length b)
                  + (n - Nat.max (length a) (length b)))%nat by lia.
  symmetry. apply compare_loop_enough.
Qed.

(** X6.  [compareVersions] orders versions consistently: if [a] is not
    above [b] and [b] is not above [c], then [a] is not above [c], and it
    is strictly below as soon as one of the two steps is strict.  This
    holds for all strings, also those with segments that are not
    numbers. *)
Theorem compareVersions_is_transitive (a b c : string) :
  compareVersions a b <= 0 -> compareVersions b c <= 0 ->
  compareVersions a c <= 0
  /\ (compareVersions a b < 0 \/ compareVersions b c < 0 ->
      compareVersions a c < 0).
Proof.
  set (n := Nat.max (length (Js.split "." a))
              (Nat.max (length (Js.split "." b)) (length (Js.split "." c)))).
  rewrite (compareVersions_padded a b n), (compareVersions_padded b c n),
    (compareVersions_padded a c n) by lia.
  apply compare_loop_trans.
Qed.

Lemma compareVersions_is_transitive_witness :
  compareVersions "1.2" "1.10.0" <= 0
  /\ compareVersions "1.10.0" "1.10.0-rc1" <= 0
  /\ compareVersions "1.2" "1.10.0-rc1" < 0.
Proof.
  assert (H1 : compareVersions "1.2" "1.10.0" <= 0) by (vm_compute; discriminate).
  assert (H2 : compareVersions "1.10.0" "1.10.0-rc1" <= 0)
    by (vm_compute; discriminate).
  split; [exact H1|]. split; [exact H2|].
  apply (compareVersions_is_transitive "1.2" "1.10.0" "1.10.0-rc1" H1 H2).
  left. vm_compute. reflexivity.
Defined.

Lemma map_get_In (k : string) (fv : FirmwareVersion) (m : Versions) :
  map_get k m = Some fv -> In fv (map snd m).
Proof.
  induction m as [|[k' v'] rest IH]; simpl; [discriminate|].
  destruct (String.eqb k' k); [intros [= ->]; now left | auto].
Qed.

(** X7.  [getUpgradeableVersions] and [needsUpdate] agree: the firmware
    registered under a target version is listed as upgradeable exactly when
    [needsUpdate] for that target says so.  The list keeps the order of
    [getAllVersions] and never holds an entry whose version string is the
    current one. *)
Theorem getUpgradeableVersions_agrees_with_needsUpdate
  (versions : Versions) (current target : string) (fv : FirmwareVersion) :
  target <> "" ->
  getVersion target versions = Some fv ->
  (needsUpdate_flag (needsUpdate versions current (Some target)) = true
   <-> fv ∈ getUpgradeableVersions versions current)
  /\ getUpgradeableVersions versions current `sublist_of` getAllVersions versions
  /\ (forall v, v ∈ getUpgradeableVersions versions current ->
                version v <> current).
Proof.
  intros Ht Hget. split; [|split].
  - unfold needsUpdate. cbn [truthy_string].
    apply String.eqb_neq in Ht. rewrite Ht. cbn [negb]. rewrite Hget.
    cbn [needsUpdate_flag]. unfold getUpgradeableVersions.
    rewrite list_elem_of_filter, Z.ltb_lt. split; [|tauto].
    intros H. split; [exact H|].
    apply list_elem_of_In. exact (map_get_In _ _ _ Hget).
  - apply sublist_filter.
  - intros v Hv. apply list_elem_of_filter in Hv as [Hlt _]. intros E.
    rewrite E in Hlt.
    pose proof (proj1 (proj2 (OrderFacts.compareVersions_sign current current))).
    lia.
Qed.

Lemma getUpgradeableVersions_agrees_with_needsUpdate_witness :
  needsUpdate_flag
    (needsUpdate [("1.0.1", Sample.v101)] "1.0.0" (Some "1.0.1")) = true
  <-> Sample.v101 ∈ getUpgradeableVersions [("1.0.1", Sample.v101)] "1.0.0".
Proof.
  apply (getUpgradeableVersions_agrees_with_needsUpdate
           [("1.0.1", Sample.v101)] "1.0.0" "1.0.1" Sample.v101);
    [discriminate | reflexivity].
Defined.

End OrderingFacts.

(** ** FirmwareVerifier and FirmwareDownloader: checksums *)

Module ChecksumFacts.

Import FirmwareVerifier Checks.

Lemma length_toLowerCase (s : string) :
  String.length (Js.toLowerCase s) = String.length s.
Proof. induction s as [|c rest IH]; simpl; [reflexivity | now rewrite IH]. Qed.

(** The algorithm [verifyChecksum] picks for a string that is, up to case,
    a digest. *)
Lemma algorithm_of_digest createHash (data : Buffer) (expected : string)
  (algorithm : HashAlgorithm) :
  String.length (createHash algorithm data) = digest_length algorithm ->
  Js.toLowerCase expected = Js.toLowerCase (createHash algorithm data) ->
  (if (String.length expected =? 32)%nat then md5 else sha256) = algorithm.
Proof.
  intros Hlen Heq.
  assert (H : String.length expected = digest_length algorithm).
  { rewrite <- Hlen, <- (length_toLowerCase expected), Heq.
    apply length_toLowerCase. }
  rewrite H. destruct algorithm; reflexivity.
Qed.

Lemma verifyChecksum_of_digest createHash (data : Buffer) (expected : string)
  (algorithm : HashAlgorithm) :
  String.length (createHash algorithm data) = digest_length algorithm ->
  Js.toLowerCase expected = Js.toLowerCase (createHash algorithm data) ->
  verifyChecksum createHash data expected = true.
Proof.
  intros Hlen Heq. unfold verifyChecksum. cbv zeta.
  rewrite (algorithm_of_digest createHash data expected algorithm Hlen Heq).
  apply String.eqb_eq. symmetry. exact Heq.
Qed.

(** X8.  With digests of the lengths node's [crypto] gives (32 hex
    characters for md5, 64 for sha256), the verifier's [verifyChecksum]
    accepts exactly the strings that are, up to letter case, the md5 or the
    sha256 digest of the data as [calculateChecksum] returns it; and it
    accepts a string exactly when the downloader's [verifyChecksum] accepts
    it under one of the two algorithms. *)
Theorem verifyChecksum_accepts_exactly_the_digests
  (createHash : HashAlgorithm -> Buffer -> string) (data : Buffer)
  (expected : string) :
  (forall algorithm,
     String.length (createHash algorithm data) = digest_length algorithm) ->
  (verifyChecksum createHash data expected = true
   <-> exists algorithm,
         Js.toLowerCase expected
         = Js.toLowerCase (calculateChecksum createHash data algorithm))
  /\ (verifyChecksum createHash data expected = true
      <-> exists algorithm,
            FirmwareDownloader.verifyChecksum createHash data expected
              algorithm = true).
Proof.
  intros Hlen.
  assert (H : verifyChecksum createHash data expected = true
              <-> exists algorithm,
                    Js.toLowerCase expected
                    = Js.toLowerCase (createHash algorithm data)).
  { split.
    - intros Hv. unfold verifyChecksum in Hv. cbv zeta in Hv.
      apply String.eqb_eq in Hv. eexists. symmetry. exact Hv.
    - intros [algorithm Heq].
      exact (verifyChecksum_of_digest createHash data expected algorithm
               (Hlen algorithm) Heq). }
  split; [exact H|]. rewrite H.
  unfold FirmwareDownloader.verifyChecksum, FirmwareDownloader.calculateChecksum.
  split; intros [algorithm Heq]; exists algorithm.
  - apply String.eqb_eq. symmetry. exact Heq.
  - apply String.eqb_eq in Heq. symmetry. exact Heq.
Qed.

Lemma verifyChecksum_accepts_exactly_the_digests_witness :
  verifyChecksum Padded.hash Sample.image "AAAAAAAAAAAAAAAAAAAAAAAAAAAAAAA2"
  = true.
Proof.
  assert (Hlen : forall algorithm,
             String.length (Padded.hash algorithm Sample.image)
             = digest_length algorithm) by (intros []; reflexivity).
  apply (proj1 (verifyChecksum_accepts_exactly_the_digests
                  Padded.hash Sample.image
                  "AAAAAAAAAAAAAAAAAAAAAAAAAAAAAAA2" Hlen)).
  exists md5. reflexivity.
Defined.

(** X9.  A firmware record that describes the artifact itself passes
    [verifyIntegrity] with no error: its [fileSize] is the length of the
    data, its [checksum] is what [calculateChecksum] returns for the data
    (a digest of the usual length), and its [signature] is absent or a
    non-empty base64 string. *)
Theorem verifyIntegrity_accepts_the_described_artifact
  (createHash : HashAlgorithm -> Buffer -> string) (data : Buffer)
  (algorithm : HashAlgorithm) (fv : FirmwareVersion) :
  String.length (createHash algorithm data) = digest_length algorithm ->
  fileSize fv = Some (Z.of_nat (length data)) ->
  checksum fv = Some (calculateChecksum createHash data algorithm) ->
  (signature fv = None
   \/ exists sig, signature fv = Some sig /\ sig <> "" /\ over_base64 sig) ->
  verifyIntegrity createHash data fv = {| valid := true; errors := [] |}.
Proof.
  intros Hlen Hsize Hsum Hsig.
  assert (Hs : size_fails data fv = false).
  { unfold size_fails. rewrite Hsize, Z.eqb_refl. apply andb_false_r. }
  assert (Hc : checksum_fails createHash data fv = false).
  { unfold checksum_fails. rewrite Hsum. unfold calculateChecksum.
    rewrite (verifyChecksum_of_digest createHash data _ algorithm Hlen eq_refl).
    apply andb_false_r. }
  assert (Hg : signature_fails fv = false).
  { unfold signature_fails. destruct Hsig as [->|(sig & -> & Hne & Hb)];
      [reflexivity|].
    rewrite (VerifierFacts.base64_string_is_valid_format sig Hne Hb).
    apply andb_false_r. }
  assert (He : errors (verifyIntegrity createHash data fv) = []).
  { rewrite VerifierFacts.errors_of_verifyIntegrity, Hs, Hc, Hg. reflexivity. }
  pose proof (VerifierFacts.valid_is_no_errors createHash data fv) as Hv.
  rewrite He in Hv.
  destruct (verifyIntegrity createHash data fv) as [v e].
  simpl in *. subst. reflexivity.
Qed.

Lemma verifyIntegrity_accepts_the_described_artifact_witness :
  verifyIntegrity Padded.hash Sample.image
    (Sample.firmware "1.0.1" (Some 2) None
       (Some "aaaaaaaaaaaaaaaaaaaaaaaaaaaaaaa2") None)
  = {| valid := true; errors := [] |}.
Proof.
  apply (verifyIntegrity_accepts_the_described_artifact
           Padded.hash Sample.image md5);
    [reflexivity | reflexivity | reflexivity | left; reflexivity].
Defined.

End ChecksumFacts.

(** ** FirmwareDownloader: what a download returns, reports and caches *)

Module TransferFacts.

Import RunFacts FirmwareDownloader.

Lemma reports_app (l1 l2 : list Event) :
  reports (l1 ++ l2) = (reports l1 ++ reports l2)%list.
Proof.
  induction l1 as [|e l1 IH]; [reflexivity|].
  destruct e; simpl; rewrite IH; reflexivity.
Qed.

(** On a miss, [download] is [fetchWithProgress] with the result cached or
    the message prefixed. *)
Lemma download_miss (net : Network) (url : string)
  (onProgress : option Callback) (s : State) :
  downloadCache s !! url = None ->
  download net url onProgress s
  = let fetched := fetchWithProgress net url onProgress s in
    match outcome fetched with
    | Returned buffer =>
        {| outcome := Returned buffer;
           final := with_cache (fun c => <[url := buffer]> c) (final fetched);
           events := events fetched |}
    | Thrown msg =>
        {| outcome := Thrown (download_failed msg);
           final := final fetched; events := events fetched |}
    end.
Proof.
  intros E. unfold download, cache_get.
  rewrite (bind_returned _ _ s (downloadCache s !! url)) by reflexivity.
  cbn [final events get_state bind ret outcome app]. rewrite E.
  cbv zeta. unfold try_catch, bind.
  destruct (fetchWithProgress net url onProgress s) as [[buffer|msg] f e];
    simpl; rewrite ?app_nil_r; reflexivity.
Qed.

(** [fetchWithProgress] after the call of [fetch]. *)
Lemma fetchWithProgress_run (net : Network) (url : string)
  (onProgress : option Callback) (s : State) :
  fetchWithProgress net url onProgress s
  = let rest :=
      match net url with
      | FetchRejected msg => throw msg s
      | FetchResolved response =>
          if negb (is_ok response)
          then throw ("HTTP error! status: "
                      +:+ Js.toString (status_code response)) s
          else match body response with
               | None => throw "Response body is null" s
               | Some (stream, stream_end) =>
                   read_loop onProgress (total_of (content_length response))
                     stream stream_end [] 0 s
               end
      end in
    {| outcome := outcome rest; final := final rest;
       events := EvFetch url :: events rest |}.
Proof.
  unfold fetchWithProgress.
  rewrite (bind_returned _ _ s tt) by reflexivity.
  cbn [final events emit app]. cbv zeta. unfold is_ok.
  destruct (net url) as [msg|response]; [reflexivity|].
  destruct (negb _); [reflexivity|].
  destruct (body response) as [[stream stream_end]|]; reflexivity.
Qed.

Section Loop.

Context (onProgress : option Callback) (declared : option Z).
Hypothesis callback_returns : returns_always onProgress.

(** The progress step of the loop. *)
Abbreviation report_step downloaded :=
  (match onProgress with
   | Some cb =>
       if positive declared then
         call cb {| downloaded := downloaded; total := default 0 declared;
                    percentage := percent downloaded (default 0 declared) |}
       else ret tt
   | None => ret tt
   end).

Lemma report_step_returns (downloaded : Z) (s : State) :
  outcome (report_step downloaded s) = Returned tt.
Proof.
  destruct onProgress as [cb|] eqn:E; [|reflexivity].
  destruct (positive declared); [|reflexivity].
  unfold call. rewrite (outcome_bind_returned _ _ s tt) by reflexivity.
  apply (callback_returns cb _ _ eq_refl).
Qed.

Lemma read_loop_outcome (stream : list Buffer) (stream_end : StreamEnd) :
  forall chunks downloaded s,
    outcome (read_loop onProgress declared stream stream_end chunks downloaded s)
    = match stream_end with
      | StreamDone => Returned (chunks ++ concat stream)%list
      | StreamError msg => Thrown msg
      end.
Proof.
  induction stream as [|value rest IH]; intros chunks downloaded s.
  - simpl. rewrite app_nil_r. destruct stream_end; reflexivity.
  - cbn [read_loop concat].
    rewrite (outcome_bind_returned _ _ s tt) by apply report_step_returns.
    rewrite IH, app_assoc. reflexivity.
Qed.

Lemma report_step_keeps_cache (downloaded : Z) (s : State) :
  keeps_cache onProgress ->
  downloadCache (final (report_step downloaded s)) = downloadCache s.
Proof.
  intros Hk. destruct (positive declared).
  - apply (DownloaderFacts.call_keeps_cache onProgress _ s Hk).
  - destruct onProgress; reflexivity.
Qed.

Lemma read_loop_keeps_cache (stream : list Buffer) (stream_end : StreamEnd) :
  keeps_cache onProgress ->
  forall chunks downloaded s,
    downloadCache
      (final (read_loop onProgress declared stream stream_end chunks downloaded s))
    = downloadCache s.
Proof.
  intros Hk. induction stream as [|value rest IH]; intros chunks downloaded s.
  - simpl. destruct stream_end; reflexivity.
  - cbn [read_loop].
    rewrite (final_bind_returned _ _ s tt) by apply report_step_returns.
    rewrite IH. apply report_step_keeps_cache, Hk.
Qed.

Hypothesis callback_is_quiet : reports_nothing onProgress.

Lemma report_step_reports (downloaded : Z) (s : State) :
  reports (events (report_step downloaded s))
  = match onProgress with
    | Some _ =>
        if positive declared
        then [{| downloaded := downloaded; total := default 0 declared;
                 percentage := percent downloaded (default 0 declared) |}]
        else []
    | None => []
    end.
Proof.
  destruct onProgress as [cb|] eqn:E; [|reflexivity].
  destruct (positive declared); [|reflexivity].
  unfold call. rewrite (events_bind_returned _ _ s tt) by reflexivity.
  cbn [events emit final app reports].
  rewrite (callback_is_quiet cb _ _ eq_refl). reflexivity.
Qed.

Lemma read_loop_reports (stream : list Buffer) (stream_end : StreamEnd) :
  forall chunks downloaded s,
    reports
      (events (read_loop onProgress declared stream stream_end chunks downloaded s))
    = match onProgress with
      | Some _ =>
          if positive declared
          then map (fun d => {| downloaded := d; total := default 0 declared;
                                percentage := percent d (default 0 declared) |})
                   (running downloaded stream)
          else []
      | None => []
      end.
Proof.
  induction stream as [|value rest IH]; intros chunks downloaded s.
  - simpl. destruct stream_end, onProgress, (positive declared); reflexivity.
  - cbn [read_loop running].
    rewrite (events_bind_returned _ _ s tt) by apply report_step_returns.
    rewrite reports_app, report_step_reports, IH.
    destruct onProgress; [|reflexivity].
    destruct (positive declared); reflexivity.
Qed.

End Loop.

(** A miss answered by a complete body. *)
Lemma download_miss_success (net : Network) (url : string)
  (onProgress : option Callback) (s : State)
  (response : Response) (stream : list Buffer) :
  returns_always onProgress ->
  downloadCache s !! url = None ->
  net url = FetchResolved response ->
  is_ok response = true ->
  body response = Some (stream, StreamDone) ->
  outcome (download net url onProgress s) = Returned (concat stream)
  /\ final (download net url onProgress s)
     = with_cache (fun c => <[url := concat stream]> c)
         (final (read_loop onProgress (total_of (content_length response))
                   stream StreamDone [] 0 s))
  /\ events (download net url onProgress s)
     = EvFetch url
       :: events (read_loop onProgress (total_of (content_length response))
                    stream StreamDone [] 0 s).
Proof.
  intros Hret Hmiss Hnet Hok Hbody.
  rewrite (download_miss net url onProgress s Hmiss), fetchWithProgress_run.
  cbv zeta. rewrite Hnet, Hok, Hbody. cbn [negb outcome final events].
  rewrite (read_loop_outcome onProgress _ Hret). cbn [app outcome final events].
  repeat split.
Qed.

(** A miss that ends in a failure, by the step that fails. *)
Lemma download_miss_failure (net : Network) (url : string)
  (onProgress : option Callback) (s : State) :
  returns_always onProgress ->
  downloadCache s !! url = None ->
  forall cause,
    match net url with
    | FetchRejected msg => cause = msg
    | FetchResolved response =>
        if negb (is_ok response)
        then cause = "HTTP error! status: "
                     +:+ Js.toString (status_code response)
        else match body response with
             | None => cause = "Response body is null"
             | Some (_, StreamError msg) => cause = msg
             | Some (_, StreamDone) => False
             end
    end ->
    outcome (download net url onProgress s) = Thrown (download_failed cause).
Proof.
  intros Hret Hmiss cause Hcause.
  rewrite (download_miss net url onProgress s Hmiss), fetchWithProgress_run.
  cbv zeta. destruct (net url) as [msg|response]; [subst; reflexivity|].
  destruct (negb (is_ok response)); [subst; reflexivity|].
  destruct (body response) as [[stream [|msg]]|]; [contradiction | |].
  - cbn [outcome final events].
    rewrite (read_loop_outcome onProgress _ Hret). subst. reflexivity.
  - subst. reflexivity.
Qed.

(** A download that throws leaves the cache as it was. *)
Lemma download_thrown_keeps_cache (net : Network) (url : string)
  (onProgress : option Callback) (s : State) (msg : string) :
  returns_always onProgress -> keeps_cache onProgress ->
  outcome (download net url onProgress s) = Thrown msg ->
  downloadCache (final (download net url onProgress s)) = downloadCache s.
Proof.
  intros Hret Hk. destruct (downloadCache s !! url) as [cached|] eqn:E.
  - rewrite (DownloaderFacts.download_cache_hit net url onProgress s cached E).
    assert (Hc : outcome ((match onProgress with
                           | Some cb => call cb (full_progress cached)
                           | None => ret tt
                           end) s) = Returned tt).
    { destruct onProgress as [cb|]; [|reflexivity].
      unfold call. rewrite (outcome_bind_returned _ _ s tt) by reflexivity.
      apply (Hret cb _ _ eq_refl). }
    rewrite (outcome_bind_returned _ _ s tt) by exact Hc. discriminate.
  - rewrite (download_miss net url onProgress s E), fetchWithProgress_run.
    cbv zeta. destruct (net url) as [m|response]; [reflexivity|].
    destruct (negb (is_ok response)); [reflexivity|].
    destruct (body response) as [[stream stream_end]|]; [|reflexivity].
    cbn [outcome final events].
    rewrite (read_loop_outcome onProgress _ Hret).
    destruct stream_end; [discriminate|]. intros _. cbn [final].
    apply (read_loop_keeps_cache onProgress _ Hret _ _ Hk).
Qed.

(** X10.  A download of a URL that is not cached, answered with a 2xx
    status and a body whose stream ends normally, returns the chunks of the
    body put together, in order, whatever the content-length header says;
    it stores that buffer in the cache under the URL; and the first thing
    it does is the [fetch] of the URL.  The callback may do anything as
    long as it returns. *)
Theorem download_returns_and_caches_the_body
  (net : Network) (url : string) (onProgress : option Callback) (s : State)
  (response : Response) (stream : list Buffer) :
  returns_always onProgress ->
  downloadCache s !! url = None ->
  net url = FetchResolved response ->
  is_ok response = true ->
  body response = Some (stream, StreamDone) ->
  let run := download net url onProgress s in
  outcome run = Returned (concat stream)
  /\ downloadCache (final run) !! url = Some (concat stream)
  /\ head (events run) = Some (EvFetch url).
Proof.
  intros Hret Hmiss Hnet Hok Hbody run.
  destruct (download_miss_success net url onProgress s response stream
              Hret Hmiss Hnet Hok Hbody) as (Ho & Hf & He).
  subst run. rewrite Ho, Hf, He. split; [reflexivity|]. split; [|reflexivity].
  cbn [downloadCache with_cache]. apply lookup_insert_eq.
Qed.

Lemma download_returns_and_caches_the_body_witness :
  let run := download Sample.server "https://fw.example/1.0.1.bin"
               (Some silent_callback) initial_state in
  outcome run = Returned Sample.image
  /\ downloadCache (final run) !! "https://fw.example/1.0.1.bin"
     = Some Sample.image
  /\ head (events run) = Some (EvFetch "https://fw.example/1.0.1.bin").
Proof.
  apply (download_returns_and_caches_the_body Sample.server
           "https://fw.example/1.0.1.bin" (Some silent_callback) initial_state
           {| status_code := 200; content_length := Some "2";
              body := Some ([[x01]%byte; [x02]%byte], StreamDone) |}
           [[x01]%byte; [x02]%byte]);
    try reflexivity.
  intros cb p s [= <-]. reflexivity.
Defined.

(** X11.  A download of a URL that is not cached fails with the message
    "Firmware download failed: " followed by the cause: the message of the
    rejected [fetch], "HTTP error! status: N" for a status outside 200-299,
    "Response body is null" for a response without a body, or the error of
    the body's stream.  And a download that throws leaves the cache as it
    was: what was read of a broken stream is not kept. *)
Theorem download_failure_is_reported_and_not_cached
  (net : Network) (url : string) (onProgress : option Callback) (s : State) :
  returns_always onProgress -> keeps_cache onProgress ->
  downloadCache s !! url = None ->
  let run := download net url onProgress s in
  (forall msg, net url = FetchRejected msg ->
               outcome run = Thrown ("Firmware download failed: " +:+ msg))
  /\ (forall response,
        net url = FetchResolved response -> is_ok response = false ->
        outcome run
        = Thrown ("Firmware download failed: HTTP error! status: "
                  +:+ Js.toString (status_code response)))
  /\ (forall response,
        net url = FetchResolved response -> is_ok response = true ->
        body response = None ->
        outcome run = Thrown "Firmware download failed: Response body is null")
  /\ (forall response stream msg,
        net url = FetchResolved response -> is_ok response = true ->
        body response = Some (stream, StreamError msg) ->
        outcome run = Thrown ("Firmware download failed: " +:+ msg))
  /\ (forall msg, outcome run = Thrown msg ->
                  downloadCache (final run) = downloadCache s).
Proof.
  intros Hret Hk Hmiss run. subst run.
  pose proof (download_miss_failure net url onProgress s Hret Hmiss) as H.
  repeat split.
  - intros msg Hnet. apply H. rewrite Hnet. reflexivity.
  - intros response Hnet Hok. apply (H (_ +:+ _)). rewrite Hnet, Hok.
    reflexivity.
  - intros response Hnet Hok Hbody. apply (H "Response body is null").
    rewrite Hnet, Hok, Hbody. reflexivity.
  - intros response stream msg Hnet Hok Hbody. apply H.
    rewrite Hnet, Hok, Hbody. reflexivity.
  - intros msg. apply download_thrown_keeps_cache; assumption.
Qed.

Lemma download_failure_is_reported_and_not_cached_witness :
  outcome (download Sample.offline "https://fw.example/1.0.1.bin" None
             initial_state)
  = Thrown "Firmware download failed: fetch failed".
Proof.
  apply (download_failure_is_reported_and_not_cached Sample.offline
           "https://fw.example/1.0.1.bin" None initial_state);
    [discriminate 1 | discriminate 1 | reflexivity | reflexivity].
Defined.

Lemma percent_mono (t d1 d2 : Z) :
  0 < t -> d1 <= d2 -> percent d1 t <= percent d2 t.
Proof. intros Ht Hd. unfold percent. apply Z.div_le_mono; lia. Qed.

Lemma percent_full (t : Z) : 0 < t -> percent t t = 100.
Proof.
  intros Ht. unfold percent. symmetry.
  apply (Z.div_unique _ _ 100 t); lia.
Qed.

Lemma running_from (stream : list Buffer) :
  forall d x, head (running d stream) = Some x -> d <= x.
Proof.
  destruct stream as [|value rest]; intros d x; simpl; [discriminate|].
  intros [= <-]. lia.
Qed.

Lemma percentages_non_decreasing (t : Z) (stream : list Buffer) :
  0 < t ->
  forall d, non_decreasing (map (fun x => percent x t) (running d stream))
            = true.
Proof.
  intros Ht. induction stream as [|value rest IH]; intros d; [reflexivity|].
  cbn [running map]. specialize (IH (d + Z.of_nat (length value))).
  pose proof (running_from rest (d + Z.of_nat (length value))) as Hfrom.
  destruct (running (d + Z.of_nat (length value)) rest) as [|y ys] eqn:E;
    [reflexivity|].
  cbn [map non_decreasing] in *. rewrite IH, andb_true_r.
  apply Z.leb_le, percent_mono; [exact Ht | apply Hfrom; reflexivity].
Qed.

Lemma length_concat_chunks (stream : list Buffer) :
  Z.of_nat (length (concat stream))
  = foldr (fun value n => Z.of_nat (length value) + n) 0 stream.
Proof.
  induction stream as [|value rest IH]; [reflexivity|].
  cbn [concat foldr]. rewrite length_app, Nat2Z.inj_add, IH. reflexivity.
Qed.

Lemma last_running (stream : list Buffer) :
  stream <> [] ->
  forall d, last (running d stream)
            = Some (d + Z.of_nat (length (concat stream))).
Proof.
  induction stream as [|value rest IH]; intros Hne d; [congruence|].
  destruct rest as [|value' rest'].
  - cbn [running last concat]. rewrite app_nil_r. reflexivity.
  - cbn [running]. cbn [running] in IH.
    rewrite last_cons, (IH ltac:(discriminate)).
    cbn [concat]. rewrite !length_app, !Nat2Z.inj_add. f_equal. lia.
Qed.

(** The progress records of a miss answered by a body. *)
Lemma download_miss_reports (net : Network) (url : string)
  (onProgress : option Callback) (s : State)
  (response : Response) (stream : list Buffer) (stream_end : StreamEnd) :
  returns_always onProgress -> reports_nothing onProgress ->
  downloadCache s !! url = None ->
  net url = FetchResolved response ->
  is_ok response = true ->
  body response = Some (stream, stream_end) ->
  reports (events (download net url onProgress s))
  = match onProgress with
    | Some _ =>
        if positive (total_of (content_length response))
        then map (fun d =>
                    {| downloaded := d;
                       total := default 0 (total_of (content_length response));
                       percentage :=
                         percent d
                           (default 0 (total_of (content_length response))) |})
                 (running 0 stream)
        else []
    | None => []
    end.
Proof.
  intros Hret Hquiet Hmiss Hnet Hok Hbody.
  rewrite (download_miss net url onProgress s Hmiss), fetchWithProgress_run.
  cbv zeta. rewrite Hnet, Hok, Hbody. cbn [negb outcome final events].
  rewrite (read_loop_outcome onProgress _ Hret).
  rewrite <- (read_loop_reports onProgress _ Hret Hquiet stream stream_end [] 0 s).
  destruct stream_end; reflexivity.
Qed.



(** X13.  [clearCache] empties the cache: the next download of any URL,
    also one that was cached, fetches it again, returns the body the server
    sends now, and leaves a cache that holds this one entry. *)
Theorem clearCache_makes_download_fetch_again
  (net : Network) (url : string) (onProgress : option Callback) (s : State)
  (response : Response) (stream : list Buffer) :
  returns_always onProgress -> keeps_cache onProgress ->
  net url = FetchResolved response ->
  is_ok response = true ->
  body response = Some (stream, StreamDone) ->
  let run := (clearCache ;;; download net url onProgress)%ota s in
  outcome run = Returned (concat stream)
  /\ head (events run) = Some (EvFetch url)
  /\ downloadCache (final run) = {[ url := concat stream ]}.
Proof.
  intros Hret Hk Hnet Hok Hbody run. subst run.
  rewrite (bind_returned _ _ s tt) by reflexivity.
  cbn [outcome final events clearCache modify app].
  set (s' := with_cache (fun _ => ∅) s).
  assert (Hmiss : downloadCache s' !! url = None) by apply lookup_empty.
  destruct (download_miss_success net url onProgress s' response stream
              Hret Hmiss Hnet Hok Hbody) as (Ho & Hf & He).
  rewrite Ho, Hf, He. split; [reflexivity|]. split; [reflexivity|].
  cbn [downloadCache with_cache].
  rewrite (read_loop_keeps_cache onProgress _ Hret _ _ Hk). reflexivity.
Qed.

Lemma clearCache_makes_download_fetch_again_witness :
  let s := final (download Sample.server "https://fw.example/1.0.1.bin" None
                    initial_state) in
  let run := (clearCache ;;;
              download Sample.server "https://fw.example/1.0.1.bin" None)%ota
               s in
  downloadCache s !! "https://fw.example/1.0.1.bin" = Some Sample.image
  /\ head (events run) = Some (EvFetch "https://fw.example/1.0.1.bin").
Proof.
  split; [reflexivity|].
  apply (clearCache_makes_download_fetch_again Sample.server
           "https://fw.example/1.0.1.bin" None
           (final (download Sample.server "https://fw.example/1.0.1.bin" None
                     initial_state))
           {| status_code := 200; content_length := Some "2";
              body := Some ([[x01]%byte; [x02]%byte], StreamDone) |}
           [[x01]%byte; [x02]%byte]);
    [discriminate 1 | discriminate 1 | reflexivity | reflexivity | reflexivity].
Defined.

End TransferFacts.

(** ** FirmwareDownloader: downloads written to a file *)

Module FileFacts.

Import RunFacts FirmwareDownloader DownloaderFiles.

(** Reading the size of the file changes nothing. *)
Lemma downloadWithResume_is_downloadToFile (net : Network) (url : string)
  (onProgress : option Callback) (disk : Disk) (filePath : string) (s : State) :
  downloadWithResume net url onProgress disk filePath s
  = downloadToFile net url onProgress disk filePath s.
Proof.
  unfold downloadWithResume.
  assert (H : exists startByte,
             try_catch (stat_size disk filePath) (fun _ => ret 0) s
             = {| outcome := Returned startByte; final := s; events := [] |}).
  { unfold try_catch, stat_size.
    destruct (files disk !! filePath); eexists; reflexivity. }
  destruct H as [startByte H].
  rewrite (bind_returned _ _ s startByte) by (rewrite H; reflexivity).
  rewrite H. cbn [final events app].
  destruct (downloadToFile net url onProgress disk filePath s). reflexivity.
Qed.

Lemma downloadToFile_run (net : Network) (url : string)
  (onProgress : option Callback) (disk : Disk) (filePath : string) (s : State) :
  let got := download net url onProgress s in
  downloadToFile net url onProgress disk filePath s
  = {| outcome :=
         match outcome got with
         | Returned buffer =>
             match write_error disk filePath with
             | Some msg => Thrown ("Failed to write firmware file: " +:+ msg)
             | None =>
                 Returned {| files := <[filePath := buffer]> (files disk);
                             write_error := write_error disk |}
             end
         | Thrown msg => Thrown msg
         end;
       final := final got; events := events got |}.
Proof.
  cbv zeta. unfold downloadToFile, bind, try_catch, writeFile.
  destruct (download net url onProgress s) as [[buffer|msg] f e];
    cbn [outcome final events]; [|reflexivity].
  destruct (write_error disk filePath); cbn; rewrite ?app_nil_r; reflexivity.
Qed.

(** X14.  [downloadWithResume] never resumes: whatever the file holds
    before, it does what [downloadToFile] does.  When it returns, the file
    holds exactly the buffer [download] returned, which is also in the
    cache; an error of [download] is passed on as it is; and when the write
    fails, the error is "Failed to write firmware file: " and its cause,
    and the downloaded buffer stays in the cache. *)
Theorem downloadWithResume_rewrites_the_whole_file
  (net : Network) (url : string) (onProgress : option Callback)
  (disk : Disk) (filePath : string) (s : State) :
  keeps_cache onProgress ->
  let run := downloadWithResume net url onProgress disk filePath s in
  let got := download net url onProgress s in
  run = downloadToFile net url onProgress disk filePath s
  /\ (forall disk',
        outcome run = Returned disk' ->
        exists buffer,
          outcome got = Returned buffer
          /\ files disk' = <[filePath := buffer]> (files disk)
          /\ downloadCache (final run) !! url = Some buffer)
  /\ (forall msg, outcome got = Thrown msg -> outcome run = Thrown msg)
  /\ (forall buffer msg,
        outcome got = Returned buffer ->
        write_error disk filePath = Some msg ->
        outcome run = Thrown ("Failed to write firmware file: " +:+ msg)
        /\ downloadCache (final run) !! url = Some buffer).
Proof.
  intros Hk run got. subst run got.
  rewrite downloadWithResume_is_downloadToFile, downloadToFile_run.
  cbv zeta. cbn [outcome final].
  pose proof (DownloaderFacts.download_fills_cache net url onProgress s) as Hc.
  destruct (outcome (download net url onProgress s)) as [buffer|m] eqn:O.
  - specialize (Hc buffer Hk eq_refl).
    split; [reflexivity|]. split; [|split].
    + intros disk' H. exists buffer.
      destruct (write_error disk filePath); [discriminate H|].
      injection H as <-. repeat split. exact Hc.
    + intros msg H. discriminate H.
    + intros buffer' msg [= <-] Hw. rewrite Hw.
      split; [reflexivity | exact Hc].
  - split; [reflexivity|]. split; [|split].
    + intros disk' H. discriminate H.
    + intros msg [= <-]. reflexivity.
    + intros buffer msg H. discriminate H.
Qed.

Lemma downloadWithResume_rewrites_the_whole_file_witness :
  let disk := {| files := {[ "/tmp/fw.bin" := [x01]%byte ]};
                 write_error := fun _ => None |} in
  exists disk',
    outcome (downloadWithResume Sample.server "https://fw.example/1.0.1.bin"
               None disk "/tmp/fw.bin" initial_state) = Returned disk'
    /\ files disk' = <[ "/tmp/fw.bin" := Sample.image ]> (files disk).
Proof.
  intros disk.
  destruct (downloadWithResume_rewrites_the_whole_file Sample.server
              "https://fw.example/1.0.1.bin" None disk "/tmp/fw.bin"
              initial_state ltac:(discriminate 1)) as (_ & H & _).
  eexists. split; [reflexivity|].
  destruct (H _ eq_refl) as (buffer & Hb & Hf & _).
  injection Hb as <-. exact Hf.
Defined.

End FileFacts.

(** ** OtaManager: the contents of the session *)

Module ContentFacts.

Import RunFacts FirmwareDownloader OtaManager.

Lemma leads_bind {A B} (P : State -> Prop) (R : A -> State -> Prop)
  (Q : Outcome B -> State -> Prop) (m : M A) (k : A -> M B) :
  leads P m (fun out s' => match out with
                           | Returned a => R a s'
                           | Thrown msg => Q (Thrown msg) s'
                           end) ->
  (forall a, leads (R a) (k a) Q) ->
  leads P (bind m k) Q.
Proof.
  intros Hm Hk s Hs. specialize (Hm s Hs). unfold bind.
  destruct (outcome (m s)) as [a|msg]; cbn [outcome final].
  - apply (Hk a), Hm.
  - exact Hm.
Qed.

Lemma leads_then {A B} (P : State -> Prop) (R : A -> State -> Prop)
  (Q : Outcome B -> State -> Prop) (m : M A) (k : A -> M B) :
  leads P m (returns R) ->
  (forall a, leads (R a) (k a) Q) ->
  leads P (bind m k) Q.
Proof.
  intros Hm Hk. apply (leads_bind P R); [|exact Hk].
  intros s Hs. specialize (Hm s Hs).
  destruct (outcome (m s)); [exact Hm | destruct Hm].
Qed.

Lemma leads_try_catch {A} (P : State -> Prop) (R : string -> State -> Prop)
  (Q : Outcome A -> State -> Prop) (m : M A) (handler : string -> M A) :
  leads P m (fun out s' => match out with
                           | Returned a => Q (Returned a) s'
                           | Thrown msg => R msg s'
                           end) ->
  (forall msg, leads (R msg) (handler msg) Q) ->
  leads P (try_catch m handler) Q.
Proof.
  intros Hm Hh s Hs. specialize (Hm s Hs). unfold try_catch.
  destruct (outcome (m s)) as [a|msg] eqn:E; cbn [outcome final].
  - rewrite E. exact Hm.
  - apply (Hh msg), Hm.
Qed.

Lemma leads_weaken {A} (P P' : State -> Prop) (Q Q' : Outcome A -> State -> Prop)
  (m : M A) :
  leads P' m Q' ->
  (forall s, P s -> P' s) -> (forall out s, Q' out s -> Q out s) ->
  leads P m Q.
Proof. intros Hm HP HQ s Hs. apply HQ, Hm, HP, Hs. Qed.

Lemma leads_pre {A} (P P' : State -> Prop) (Q : Outcome A -> State -> Prop)
  (m : M A) :
  leads P' m Q -> (forall s, P s -> P' s) -> leads P m Q.
Proof. intros Hm HP s Hs. apply Hm, HP, Hs. Qed.

Lemma leads_post {A} (P : State -> Prop) (Q Q' : Outcome A -> State -> Prop)
  (m : M A) :
  leads P m Q' -> (forall out s, Q' out s -> Q out s) -> leads P m Q.
Proof. intros Hm HQ s Hs. apply HQ, Hm, Hs. Qed.

Lemma leads_exists {A X} (P : X -> State -> Prop) (Q : Outcome A -> State -> Prop)
  (m : M A) :
  (forall x, leads (P x) m Q) -> leads (fun s => exists x, P x s) m Q.
Proof. intros Hm s [x Hs]. exact (Hm x s Hs). Qed.

Lemma leads_ret {A} (P : State -> Prop) (a : A) :
  leads P (ret a) (returns (fun a' s' => a' = a /\ P s')).
Proof. intros s Hs. split; [reflexivity | exact Hs]. Qed.

Lemma leads_emit (P : State -> Prop) (e : Event) :
  leads P (emit e) (returns (fun _ s' => P s')).
Proof. intros s Hs. exact Hs. Qed.

Lemma leads_get_state (P : State -> Prop) :
  leads P get_state (returns (fun a s' => a = s' /\ P s')).
Proof. intros s Hs. split; [reflexivity | exact Hs]. Qed.

Section Leaves.

Context (vs : FirmwareVersionManager.Versions) (U : gmap string nat -> Prop).
Context (device : string) (r : nat) (o : OtaUpdateInfo) (t : Z).

Lemma leads_assign (f : OtaUpdateInfo -> OtaUpdateInfo) :
  leads (state_is vs U r o t) (assign r f)
        (returns (fun _ => state_is vs U r (f o) t)).
Proof.
  intros s (Hv & Hu & Ho & Ht). repeat split; try assumption.
  simpl. rewrite list_lookup_alter_eq, Ho. reflexivity.
Qed.

Lemma leads_assign_status (st : OtaUpdateStatus) :
  leads (state_is vs U r o t) (assign_status device r st)
        (returns (fun _ => state_is vs U r (set_status st o) t)).
Proof.
  unfold assign_status. eapply leads_then; [apply leads_assign|].
  intros ?. apply leads_emit.
Qed.

Lemma leads_assign_progress (p : Z) :
  leads (state_is vs U r o t) (assign_progress device r p)
        (returns (fun _ => state_is vs U r (set_progress p o) t)).
Proof.
  unfold assign_progress. eapply leads_then; [apply leads_assign|].
  intros ?. apply leads_emit.
Qed.

Lemma leads_updates_set :
  leads (state_is vs U r o t) (updates_set device r)
        (returns (fun _ => session_is vs device r o t)).
Proof.
  intros s (Hv & Hu & Ho & Ht). repeat split; try assumption.
  simpl. apply lookup_insert_eq.
Qed.

Lemma leads_new_Date :
  leads (state_is vs U r o t) new_Date
        (returns (fun now s' => now = t /\ state_is vs U r o (t + 1) s')).
Proof.
  intros s (Hv & Hu & Ho & Ht). simpl. rewrite Ht. repeat split; assumption.
Qed.

End Leaves.

Lemma leads_pure {A} (fact : Prop) (P : State -> Prop)
  (Q : Outcome A -> State -> Prop) (m : M A) :
  (fact -> leads P m Q) -> leads (fun s => fact /\ P s) m Q.
Proof. intros H s [Hf Hs]. exact (H Hf s Hs). Qed.

(** The statements of [checkForUpdate] after the object is created. *)
Lemma leads_check_catalog (vs : FirmwareVersionManager.Versions)
  (device current : string) (r : nat) (o : OtaUpdateInfo) (t : Z) :
  let result := FirmwareVersionManager.needsUpdate vs current None in
  leads (session_is vs device r o t) (check_catalog device current r)
    (returns (fun latest s' =>
       latest = FirmwareVersionManager.latestVersion result
       /\ session_is vs device r
            (match FirmwareVersionManager.latestVersion result with
             | Some l =>
                 if FirmwareVersionManager.needsUpdate_flag result
                 then set_targetVersion (version l) (set_status Idle o)
                 else set_status Idle o
             | None => set_status Idle o
             end) t s')).
Proof.
  intros result. unfold check_catalog.
  eapply leads_then; [apply leads_get_state|]. intros s0. cbv zeta.
  apply (leads_pre _ (fun s => versions s0 = vs
                                /\ session_is vs device r o t s));
    [| intros s [-> H]; split; [apply H | exact H]].
  apply leads_pure. intros ->. fold result.
  set (o' := match FirmwareVersionManager.latestVersion result with
             | Some l =>
                 if FirmwareVersionManager.needsUpdate_flag result
                 then set_targetVersion (version l) (set_status Idle o)
                 else set_status Idle o
             | None => set_status Idle o
             end).
  apply (leads_then _ (fun _ => session_is vs device r o' t)).
  - unfold session_is. subst o'.
    destruct (FirmwareVersionManager.latestVersion result) as [l|].
    + destruct (FirmwareVersionManager.needsUpdate_flag result).
      * eapply leads_then; [apply leads_assign_status|].
        intros ?. apply leads_assign.
      * apply leads_assign_status.
    + apply leads_assign_status.
  - intros ?. eapply leads_then; [apply leads_updates_set|].
    intros ?. eapply leads_post; [apply leads_ret|].
    intros [latest|msg] s; [|auto]. cbn [returns]. intros [-> H].
    split; [reflexivity | exact H].
Qed.

Lemma session_is_getUpdateStatus vs (device : string) (r : nat)
  (o : OtaUpdateInfo) (t : Z) (s : State) :
  session_is vs device r o t s -> getUpdateStatus s device = Some o.
Proof.
  intros (_ & Hu & Ho & _). unfold getUpdateStatus. rewrite Hu. exact Ho.
Qed.

Lemma leads_checkForUpdate (device current : string) (s0 : State) :
  let result :=
    FirmwareVersionManager.needsUpdate (versions s0) current None in
  leads (fun s => s = s0) (checkForUpdate device current)
    (returns (fun latest s' =>
       latest = FirmwareVersionManager.latestVersion result
       /\ session_is (versions s0) device (length (heap s0))
            {| deviceId := device; currentVersion := current;
               targetVersion :=
                 if FirmwareVersionManager.needsUpdate_flag result
                 then version <$> FirmwareVersionManager.latestVersion result
                 else None;
               status := Idle; progress := None; error := None;
               startedAt := Some (clock s0); completedAt := None |}
            (clock s0 + 1) s')).
Proof.
  intros result. unfold checkForUpdate.
  apply (leads_then _ (fun now s =>
           now = clock s0
           /\ versions s = versions s0 /\ heap s = heap s0
           /\ clock s = clock s0 + 1)).
  { intros s ->. repeat split. }
  intros now. apply leads_pure. intros ->.
  set (o := {| deviceId := device; currentVersion := current;
               targetVersion := None; status := Checking; progress := None;
               error := None; startedAt := Some (clock s0);
               completedAt := None |}).
  apply (leads_then _ (fun r s =>
           r = length (heap s0)
           /\ state_is (versions s0) (fun _ => True) r o (clock s0 + 1) s)).
  { intros s (Hv & Hh & Hc). unfold new_object.
    cbn [outcome final returns]. rewrite Hh.
    split; [reflexivity|]. split; [exact Hv|]. split; [exact Logic.I|].
    split; [|exact Hc]. cbn [heap with_heap]. rewrite Hh.
    apply list_lookup_middle. reflexivity. }
  intros r. apply leads_pure. intros ->.
  eapply leads_then; [apply leads_emit|]. intros ?.
  eapply leads_then; [apply leads_updates_set|]. intros ?.
  apply (leads_try_catch _ (fun _ _ => False)).
  - eapply leads_post; [apply leads_check_catalog|].
    fold result. intros [latest|msg] s; cbn [returns]; [|auto].
    intros [-> H]. split; [reflexivity|].
    destruct (FirmwareVersionManager.latestVersion result) as [l|];
      destruct (FirmwareVersionManager.needsUpdate_flag result); exact H.
  - intros msg s [].
Qed.

(** X15.  [checkForUpdate] never throws; it returns the latest version of
    the catalog whether the device needs it or not; and it replaces
    whatever session the device had by a new one: Idle, started now, with
    no progress, no error and no completion time, whose [targetVersion] is
    set only when the latest version is above the current one. *)
Theorem checkForUpdate_starts_a_new_session
  (device current : string) (s : State) :
  let run := checkForUpdate device current s in
  let result := FirmwareVersionManager.needsUpdate (versions s) current None in
  outcome run
  = Returned (FirmwareVersionManager.getLatestVersion (versions s))
  /\ getUpdateStatus (final run) device
     = Some {| deviceId := device; currentVersion := current;
               targetVersion :=
                 if FirmwareVersionManager.needsUpdate_flag result
                 then version <$> FirmwareVersionManager.latestVersion result
                 else None;
               status := Idle; progress := None; error := None;
               startedAt := Some (clock s); completedAt := None |}
  /\ versions (final run) = versions s.
Proof.
  intros run result. subst run.
  pose proof (leads_checkForUpdate device current s s eq_refl) as H.
  cbv zeta in H. fold result in H.
  destruct (outcome (checkForUpdate device current s)) as [latest|msg];
    cbn [returns] in H; [|destruct H].
  destruct H as [-> H]. split.
  - subst result.
    rewrite LifecycleFacts.latestVersion_of_needsUpdate. reflexivity.
  - split; [exact (session_is_getUpdateStatus _ _ _ _ _ _ H) | apply H].
Qed.

Lemma with_progress_same (o : OtaUpdateInfo) : with_progress (progress o) o = o.
Proof. destruct o. reflexivity. Qed.

Lemma ensures_of_leads {A} (I : State -> Prop) (m : M A) :
  leads I m (fun _ s' => I s') -> ensures I any_event m.
Proof.
  intros H s Hs. split; [exact (H s Hs)|].
  apply Forall_forall. intros e _. exact Logic.I.
Qed.

Section Transfer.

Context (createHash : HashAlgorithm -> Buffer -> string).
Context (vs : FirmwareVersionManager.Versions) (device : string) (r : nat).
Context (o : OtaUpdateInfo) (t : Z).

(** The session during the transfer: [o] but for its progress. *)
Abbreviation progressing :=
  (fun s => exists p, session_is vs device r (with_progress p o) t s).

Lemma progress_callback_progressing (p : DownloadProgress) :
  leads progressing (progress_callback device r p) (fun _ s' => progressing s').
Proof.
  apply leads_exists. intros p0. unfold progress_callback.
  eapply leads_then; [apply leads_assign_progress|]. intros ?.
  eapply leads_post; [apply leads_updates_set|].
  intros [[]|msg] s H; [|destruct H].
  exists (Some (percentage p)). exact H.
Qed.

Lemma cache_set_progressing (url : string) (buffer : Buffer) :
  leads progressing (cache_set url buffer) (fun _ s' => progressing s').
Proof. intros s [p H]. exists p. exact H. Qed.

Lemma download_progressing (net : Network) (url : string) :
  leads (session_is vs device r o t)
        (download net url (Some (progress_callback device r)))
        (fun _ s' => progressing s').
Proof.
  intros s Hs.
  refine (proj1 (DownloaderFacts.download_ensures progressing any_event
                   (Some (progress_callback device r)) _ _ net url _ s _)).
  - intros cb p [= <-]. apply ensures_of_leads, progress_callback_progressing.
  - intros p. exact Logic.I.
  - intros s0 _ _. split; [exact Logic.I|].
    intros buffer. apply ensures_of_leads, cache_set_progressing.
  - exists (progress o). rewrite with_progress_same. exact Hs.
Qed.

(** The verification stage, from a session that is being downloaded. *)
Lemma leads_verify_downloaded (fv : FirmwareVersion) (data : Buffer)
  (p : option Z) :
  let result := FirmwareVerifier.verifyIntegrity createHash data fv in
  leads (session_is vs device r (with_progress p o) t)
    (verify_downloaded createHash device r fv data)
    (fun out s' =>
       if valid result then
         out = Returned data
         /\ session_is vs device r
              (set_completedAt t
                 (set_progress 100 (set_status Completed o))) (t + 1) s'
       else
         out = Thrown ("Firmware verification failed: "
                       +:+ Js.join ", " (errors result))
         /\ session_is vs device r
              (set_error (Js.join ", " (errors result))
                 (set_progress 90 (set_status Failed o))) t s').
Proof.
  intros result. unfold verify_downloaded. fold result.
  eapply leads_then; [apply leads_assign_status|]. intros ?.
  eapply leads_then; [apply leads_assign_progress|]. intros ?.
  eapply leads_then; [apply leads_updates_set|]. intros ?.
  eapply leads_then; [apply leads_emit|]. intros ?.
  destruct (valid result); cbn [negb].
  - eapply leads_then; [apply leads_assign_status|]. intros ?.
    eapply leads_then; [apply leads_assign_progress|]. intros ?.
    eapply leads_then; [apply leads_new_Date|]. intros now.
    apply leads_pure. intros ->.
    eapply leads_then; [apply leads_assign|]. intros ?.
    eapply leads_then; [apply leads_updates_set|]. intros ?.
    eapply leads_post; [apply leads_ret|].
    intros [got|msg] s H; [|destruct H]. destruct H as [-> H].
    split; [reflexivity | exact H].
  - eapply leads_then; [apply leads_assign_status|]. intros ?.
    eapply leads_then; [apply leads_assign|]. intros ?.
    eapply leads_then; [apply leads_updates_set|]. intros ?.
    intros s H. split; [reflexivity | exact H].
Qed.

(** The [catch] block, from any session that is [o] but for its status,
    progress and error. *)
Lemma leads_record_failure (msg : string) :
  leads (fun s => exists o', session_is vs device r o' t s /\ same_run o o')
    (record_failure device r msg)
    (fun out s' =>
       out = Thrown msg
       /\ exists o', session_is vs device r o' t s' /\ same_run o o'
                     /\ status o' = Failed /\ error o' = Some msg).
Proof.
  intros s (o' & Hs & Hsame). unfold record_failure.
  assert (H : leads (session_is vs device r o' t)
                (record_failure device r msg)
                (fun out s' =>
                   out = Thrown msg
                   /\ session_is vs device r
                        (set_error msg (set_status Failed o')) t s')).
  { unfold record_failure.
    eapply leads_then; [apply leads_assign_status|]. intros ?.
    eapply leads_then; [apply leads_assign|]. intros ?.
    eapply leads_then; [apply leads_updates_set|]. intros ?.
    intros s0 H0. split; [reflexivity | exact H0]. }
  destruct (H s Hs) as [Ho Hf]. split; [exact Ho|].
  eexists. split; [exact Hf|]. split; [exact Hsame|]. split; reflexivity.
Qed.

(** The [try] and [catch] blocks of [downloadFirmware]. *)
Lemma leads_transfer (net : Network) (url : string) (fv : FirmwareVersion) :
  leads (session_is vs device r o t)
    (try_catch
       (let* firmwareData :=
          download net url (Some (progress_callback device r)) in
        verify_downloaded createHash device r fv firmwareData)
       (record_failure device r))
    (fun out s' =>
       exists o' t',
         session_is vs device r o' t' s' /\ same_run
           (match out with
            | Returned _ => set_completedAt t o
            | Thrown _ => o
            end) o'
         /\ match out with
            | Returned _ =>
                status o' = Completed /\ progress o' = Some 100
                /\ error o' = error o
            | Thrown msg => status o' = Failed /\ error o' = Some msg
            end).
Proof.
  apply (leads_try_catch _
           (fun _ s => exists o', session_is vs device r o' t s
                                  /\ same_run o o')).
  - apply (leads_bind _ (fun _ s => progressing s)).
    + eapply leads_post; [apply download_progressing|].
      intros [data|msg] s [p H]; [exists p; exact H|].
      exists (with_progress p o). split; [exact H | repeat split].
    + intros data. apply leads_exists. intros p.
      eapply leads_post; [apply leads_verify_downloaded|].
      cbv zeta. intros out s.
      destruct (valid (FirmwareVerifier.verifyIntegrity createHash data fv)).
      * intros [-> H]. eexists _, _. split; [exact H|]. repeat split.
      * intros [-> H]. eexists. split; [exact H | repeat split].
  - intros msg. eapply leads_post; [apply leads_record_failure|].
    intros out s (-> & o' & H & Hsame & Hst & Herr).
    exists o', t. split; [exact H|]. split; [exact Hsame|].
    split; assumption.
Qed.

End Transfer.

(** The statements of [begin_download] once the object is chosen. *)
Lemma leads_mark_downloading (vs : FirmwareVersionManager.Versions)
  (U : gmap string nat -> Prop) (device : string) (r : nat)
  (o : OtaUpdateInfo) (t : Z) (fv : FirmwareVersion) :
  leads (state_is vs U r o t)
    (assign_status device r Downloading ;;;
     assign_progress device r 0 ;;;
     assign r (set_targetVersion (version fv)) ;;;
     updates_set device r ;;;
     ret r)
    (returns (fun r' s' => session_is vs device r' (downloading fv o) t s')).
Proof.
  eapply leads_then; [apply leads_assign_status|]. intros ?.
  eapply leads_then; [apply leads_assign_progress|]. intros ?.
  eapply leads_then; [apply leads_assign|]. intros ?.
  eapply leads_then; [apply leads_updates_set|]. intros ?.
  eapply leads_post; [apply leads_ret|].
  intros [r'|msg] s H; [|destruct H]. destruct H as [-> H]. exact H.
Qed.

Lemma session_before_owned (s : State) (device : string) :
  sessions_owned s -> deviceId (session_before s device) = device.
Proof.
  intros Ho. unfold session_before, getUpdateStatus.
  destruct (updates s !! device) as [r|] eqn:E; [|reflexivity].
  destruct (Ho device r E) as (o & Hr & Hd). cbn. rewrite Hr. exact Hd.
Qed.

Lemma leads_begin_download (device : string) (fv : FirmwareVersion)
  (s0 : State) :
  sessions_owned s0 ->
  leads (fun s => s = s0) (begin_download device fv)
    (returns (fun r s' =>
       session_is (versions s0) device r
         (downloading fv (session_before s0 device)) (clock s0) s')).
Proof.
  intros Ho. unfold begin_download.
  apply (leads_then _ (fun existing s =>
           existing = updates s0 !! device /\ s = s0)).
  { intros s ->. split; reflexivity. }
  intros existing. apply leads_pure. intros ->.
  unfold session_before, getUpdateStatus.
  destruct (updates s0 !! device) as [r|] eqn:E.
  - destruct (Ho device r E) as (o & Hr & _). cbn. rewrite Hr. cbn.
    apply (leads_then _ (fun r' s =>
             r' = r /\ state_is (versions s0) (fun _ => True) r o
                         (clock s0) s)).
    { intros s ->. repeat split. exact Hr. }
    intros r'. apply leads_pure. intros ->. apply leads_mark_downloading.
  - cbn.
    apply (leads_then _ (fun r' s =>
             r' = length (heap s0)
             /\ state_is (versions s0) (fun _ => True) r'
                  (new_session device) (clock s0) s)).
    { intros s ->. repeat split. cbn. apply list_lookup_middle. reflexivity. }
    intros r'. apply leads_pure. intros ->. apply leads_mark_downloading.
Qed.

Section Download.

Context (createHash : HashAlgorithm -> Buffer -> string).

(** What [downloadFirmware] leaves in the session. *)
Lemma downloadFirmware_session (net : Network) (device : string)
  (fv : FirmwareVersion) (url : string) (s : State) :
  sessions_owned s -> fileUrl fv = Some url -> url <> "" ->
  let run := downloadFirmware createHash net device fv s in
  let before := session_before s device in
  exists o,
    getUpdateStatus (final run) device = Some o
    /\ deviceId o = device
    /\ currentVersion o = currentVersion before
    /\ startedAt o = startedAt before
    /\ targetVersion o = Some (version fv)
    /\ match outcome run with
       | Returned _ =>
           status o = Completed /\ progress o = Some 100
           /\ completedAt o = Some (clock s) /\ error o = error before
       | Thrown msg =>
           status o = Failed /\ error o = Some msg
           /\ completedAt o = completedAt before
       end.
Proof.
  intros Ho Hurl Hne run before. subst run.
  assert (H : leads (fun s' => s' = s) (downloadFirmware createHash net device fv)
                (fun out s' =>
                   exists r o' t',
                     session_is (versions s) device r o' t' s'
                     /\ same_run
                          (match out with
                           | Returned _ =>
                               set_completedAt (clock s) (downloading fv before)
                           | Thrown _ => downloading fv before
                           end) o'
                     /\ match out with
                        | Returned _ =>
                            status o' = Completed /\ progress o' = Some 100
                            /\ error o' = error (downloading fv before)
                        | Thrown msg =>
                            status o' = Failed /\ error o' = Some msg
                        end)).
  { unfold downloadFirmware.
    eapply leads_then; [apply leads_begin_download, Ho|]. intros r.
    rewrite Hurl. cbn [truthy_string].
    apply String.eqb_neq in Hne. rewrite Hne. cbn [negb].
    eapply leads_post; [apply leads_transfer|].
    intros out s' (o' & t' & H). exists r, o', t'. exact H. }
  destruct (H s eq_refl) as (r & o' & t' & Hs & Hsame & Hout).
  exists o'. split; [exact (session_is_getUpdateStatus _ _ _ _ _ _ Hs)|].
  pose proof (session_before_owned s device Ho) as Hd. fold before in Hd.
  destruct (outcome (downloadFirmware createHash net device fv s)) as [data|msg];
    destruct Hsame as (H1 & H2 & H3 & H4 & H5); cbn in H1, H2, H3, H4, H5;
    repeat split; try tauto; congruence.
Qed.

(** X16.  [downloadFirmware] for a firmware that has a URL always ends the
    session in a final status.  When it returns, the session is Completed
    with progress 100 and the completion time is set; when it throws, the
    session is Failed and its [error] is the very message thrown.  Either
    way the target version is the downloaded firmware's, and the device id,
    current version and start time of the session are kept.  A successful
    download does not clear [error]: the message of an earlier failure
    stays in a Completed session. *)
Theorem downloadFirmware_ends_completed_or_failed
  (net : Network) (device : string) (fv : FirmwareVersion) (url : string)
  (s : State) :
  sessions_owned s -> fileUrl fv = Some url -> url <> "" ->
  let run := downloadFirmware createHash net device fv s in
  let before := session_before s device in
  exists o,
    getUpdateStatus (final run) device = Some o
    /\ deviceId o = device
    /\ currentVersion o = currentVersion before
    /\ startedAt o = startedAt before
    /\ targetVersion o = Some (version fv)
    /\ match outcome run with
       | Returned _ =>
           status o = Completed /\ progress o = Some 100
           /\ completedAt o = Some (clock s) /\ error o = error before
       | Thrown msg =>
           status o = Failed /\ error o = Some msg
           /\ completedAt o = completedAt before
       end.
Proof. apply downloadFirmware_session. Qed.

End Download.

Lemma downloadFirmware_ends_completed_or_failed_witness :
  let run := downloadFirmware Sample.count_hash Sample.offline "dev-1"
               Sample.v101 initial_state in
  exists o,
    getUpdateStatus (final run) "dev-1" = Some o
    /\ status o = Failed
    /\ error o = Some "Firmware download failed: fetch failed".
Proof.
  intros run.
  destruct (downloadFirmware_ends_completed_or_failed Sample.count_hash
              Sample.offline "dev-1" Sample.v101
              "https://fw.example/1.0.1.bin" initial_state)
    as (o & Hget & _ & _ & _ & _ & Hout).
  - intros device r H. cbn [updates initial_state] in H.
    rewrite lookup_empty in H. discriminate H.
  - reflexivity.
  - discriminate.
  - exists o. split; [exact Hget|].
    change (outcome (downloadFirmware Sample.count_hash Sample.offline "dev-1"
                       Sample.v101 initial_state))
      with (@Thrown Buffer "Firmware download failed: fetch failed") in Hout.
    cbv beta iota in Hout. destruct Hout as (Hst & Herr & _).
    split; [exact Hst | exact Herr].
Defined.

End ContentFacts.

(** ** OtaManager: the outcome of an update *)

Module UpdateFacts.

Import RunFacts FirmwareDownloader OtaManager.

(** A statement that leaves the cache alone. *)
Ltac cache_step :=
  let s := fresh "s" in
  let H := fresh "H" in
  intros s H; split; [exact H | repeat constructor].

Lemma progress_callback_returns (device : string) (r : nat) :
  returns_always (Some (progress_callback device r)).
Proof. intros cb p s [= <-]. reflexivity. Qed.

Lemma progress_callback_keeps_cache (device : string) (r : nat) :
  keeps_cache (Some (progress_callback device r)).
Proof. intros cb p s [= <-]. reflexivity. Qed.

Lemma append_same_prefix (p a b : string) : p +:+ a = p +:+ b -> a = b.
Proof.
  induction p as [|c p IH]; simpl; [auto|]. intros [= H]. exact (IH H).
Qed.

Section Update.

Context (createHash : HashAlgorithm -> Buffer -> string).

Lemma verify_downloaded_keeps_cache (device : string) (r : nat)
  (fv : FirmwareVersion) (data : Buffer) (s : State) :
  downloadCache (final (verify_downloaded createHash device r fv data s))
  = downloadCache s.
Proof.
  assert (H : ensures (fun s' => downloadCache s' = downloadCache s)
                any_event (verify_downloaded createHash device r fv data)).
  { unfold verify_downloaded, assign_status, assign_progress.
    split_run fail; cache_step. }
  exact (proj1 (H s eq_refl)).
Qed.

Lemma record_failure_keeps_cache (device : string) (r : nat) (msg : string)
  (s : State) :
  downloadCache (final (record_failure device r msg s)) = downloadCache s.
Proof. reflexivity. Qed.

Lemma checkForUpdate_keeps_cache (device current : string) (s : State) :
  downloadCache (final (checkForUpdate device current s)) = downloadCache s.
Proof.
  assert (H : ensures (fun s' => downloadCache s' = downloadCache s)
                any_event (checkForUpdate device current)).
  { unfold checkForUpdate, check_catalog, check_failed, assign_status.
    split_run fail; cache_step. }
  exact (proj1 (H s eq_refl)).
Qed.

(** [downloadFirmware] for a firmware with a URL, in terms of the download
    it starts once the session is marked. *)
Lemma downloadFirmware_by_download (net : Network) (device : string)
  (fv : FirmwareVersion) (url : string) (s : State) :
  fileUrl fv = Some url -> url <> "" ->
  exists r,
    outcome (begin_download device fv s) = Returned r
    /\ let s1 := final (begin_download device fv s) in
       let got := download net url (Some (progress_callback device r)) s1 in
       let result data := FirmwareVerifier.verifyIntegrity createHash data fv in
       outcome (downloadFirmware createHash net device fv s)
       = match outcome got with
         | Returned data =>
             if valid (result data) then Returned data
             else Thrown ("Firmware verification failed: "
                          +:+ Js.join ", " (errors (result data)))
         | Thrown msg => Thrown msg
         end
       /\ downloadCache (final (downloadFirmware createHash net device fv s))
          = downloadCache (final got).
Proof.
  intros Hurl Hne.
  destruct (CompletionFacts.begin_download_returns device fv s) as [r Hr].
  exists r. split; [exact Hr|]. cbv zeta.
  set (s1 := final (begin_download device fv s)).
  unfold downloadFirmware.
  rewrite (outcome_bind_returned _ _ s r Hr), (final_bind_returned _ _ s r Hr).
  fold s1. rewrite Hurl. cbn [truthy_string].
  apply String.eqb_neq in Hne. rewrite Hne. cbn [negb].
  unfold try_catch.
  destruct (outcome (download net url (Some (progress_callback device r)) s1))
    as [data|msg] eqn:Hgot.
  - rewrite (outcome_bind_returned _ _ s1 data Hgot),
      (final_bind_returned _ _ s1 data Hgot).
    pose proof (CompletionFacts.verify_downloaded_outcome createHash device r
                  fv data
                  (final (download net url
                            (Some (progress_callback device r)) s1))) as Hv.
    cbv zeta in Hv. rewrite Hv.
    destruct (valid (FirmwareVerifier.verifyIntegrity createHash data fv)).
    + rewrite (outcome_bind_returned _ _ s1 data Hgot), Hv.
      split; [reflexivity|].
      rewrite (final_bind_returned _ _ s1 data Hgot).
      apply verify_downloaded_keeps_cache.
    + cbn [outcome final]. split.
      * apply CompletionFacts.record_failure_throws.
      * rewrite record_failure_keeps_cache,
          ?(final_bind_returned _ _ s1 data Hgot).
        apply verify_downloaded_keeps_cache.
  - rewrite (outcome_bind_thrown _ _ s1 msg Hgot),
      (final_bind_thrown _ _ s1 msg Hgot).
    cbn [outcome final]. split.
    + apply CompletionFacts.record_failure_throws.
    + apply record_failure_keeps_cache.
Qed.

(** The download a session starts throws only what [download] wraps. *)
Lemma session_download_thrown (net : Network) (device url : string) (r : nat)
  (s : State) (msg : string) :
  outcome (download net url (Some (progress_callback device r)) s) = Thrown msg ->
  exists cause, msg = download_failed cause.
Proof.
  destruct (downloadCache s !! url) as [cached|] eqn:E.
  - rewrite (LifecycleFacts.download_cached_for_session net device url r s
               cached E). discriminate.
  - rewrite (TransferFacts.download_miss net url _ s E). cbv zeta.
    destruct (outcome (fetchWithProgress net url _ s)) as [data|cause];
      [discriminate|].
    intros [= <-]. exists cause. reflexivity.
Qed.

(** A failed verification leaves the rejected bytes in the cache. *)
Lemma failed_verification_cached (net : Network) (device : string)
  (fv : FirmwareVersion) (url : string) (s : State) (details : string) :
  fileUrl fv = Some url -> url <> "" ->
  outcome (downloadFirmware createHash net device fv s)
  = Thrown ("Firmware verification failed: " +:+ details) ->
  exists data,
    downloadCache (final (downloadFirmware createHash net device fv s)) !! url
    = Some data
    /\ valid (FirmwareVerifier.verifyIntegrity createHash data fv) = false
    /\ details
       = Js.join ", "
           (errors (FirmwareVerifier.verifyIntegrity createHash data fv)).
Proof.
  intros Hurl Hne Hout.
  destruct (downloadFirmware_by_download net device fv url s Hurl Hne)
    as (r & Hr & Ho & Hc).
  cbv zeta in Ho, Hc. rewrite Hout in Ho. rewrite Hc.
  set (s1 := final (begin_download device fv s)) in *.
  destruct (outcome (download net url (Some (progress_callback device r)) s1))
    as [data|msg] eqn:Hgot.
  - exists data.
    split; [apply DownloaderFacts.download_fills_cache;
            [apply progress_callback_keeps_cache | exact Hgot]|].
    destruct (valid (FirmwareVerifier.verifyIntegrity createHash data fv));
      [discriminate Ho|].
    split; [reflexivity|]. injection Ho as Ho.
    exact (append_same_prefix _ _ _ Ho).
  - destruct (session_download_thrown net device url r s1 msg Hgot)
      as [cause ->].
    injection Ho as Ho. unfold download_failed in Ho. simpl in Ho.
    discriminate Ho.
Qed.

(** With rejected bytes in the cache, [downloadFirmware] fails on them
    without asking the network. *)
Lemma downloadFirmware_on_rejected_cache (net : Network) (device : string)
  (fv : FirmwareVersion) (url : string) (s : State) (data : Buffer) :
  fileUrl fv = Some url -> url <> "" ->
  downloadCache s !! url = Some data ->
  valid (FirmwareVerifier.verifyIntegrity createHash data fv) = false ->
  let run := downloadFirmware createHash net device fv s in
  outcome run
  = Thrown ("Firmware verification failed: "
            +:+ Js.join ", "
                  (errors (FirmwareVerifier.verifyIntegrity createHash data fv)))
  /\ Forall (fun e => is_fetch e = false) (events run)
  /\ downloadCache (final run) = downloadCache s.
Proof.
  intros Hurl Hne Hcached Hbad run. subst run.
  destruct (downloadFirmware_by_download net device fv url s Hurl Hne)
    as (r & Hr & Ho & Hc).
  cbv zeta in Ho, Hc.
  assert (Hcached1 : downloadCache (final (begin_download device fv s)) !! url
                     = Some data).
  { rewrite LifecycleFacts.begin_download_keeps_cache. exact Hcached. }
  rewrite Ho, Hc.
  rewrite (LifecycleFacts.download_cached_for_session net device url r _ data
             Hcached1).
  cbn [outcome final]. rewrite Hbad. split; [reflexivity|]. split.
  - unfold downloadFirmware. rewrite (events_bind_returned _ _ s r Hr).
    rewrite Hurl. cbn [truthy_string].
    apply String.eqb_neq in Hne. rewrite Hne. cbn [negb].
    rewrite LifecycleFacts.begin_download_events,
      (LifecycleFacts.transfer_cached_events createHash net device url r fv _
         data Hcached1).
    rewrite Hbad. repeat constructor.
  - cbn [downloadCache with_updates with_heap].
    apply LifecycleFacts.begin_download_keeps_cache.
Qed.

(** X17.  A firmware that failed verification stays in the cache.  After
    a [downloadFirmware] that threw "Firmware verification failed: ...",
    the rejected bytes are cached under the URL, and a second
    [downloadFirmware] of the same firmware, whatever the network does now,
    fetches nothing, throws the same message and leaves the cache as it
    is. *)
Theorem failed_verification_is_not_retried
  (net net' : Network) (device device' : string) (fv : FirmwareVersion)
  (url : string) (s : State) (details : string) :
  fileUrl fv = Some url -> url <> "" ->
  let run := downloadFirmware createHash net device fv s in
  outcome run = Thrown ("Firmware verification failed: " +:+ details) ->
  let retry := downloadFirmware createHash net' device' fv (final run) in
  is_Some (downloadCache (final run) !! url)
  /\ outcome retry = outcome run
  /\ Forall (fun e => is_fetch e = false) (events retry)
  /\ downloadCache (final retry) = downloadCache (final run).
Proof.
  intros Hurl Hne run Hout retry. subst run retry.
  destruct (failed_verification_cached net device fv url s details
              Hurl Hne Hout) as (data & Hcached & Hbad & ->).
  destruct (downloadFirmware_on_rejected_cache net' device' fv url _ data
              Hurl Hne Hcached Hbad) as (Ho & He & Hc).
  split; [rewrite Hcached; eexists; reflexivity|].
  split; [rewrite Ho, Hout; reflexivity|]. split; assumption.
Qed.

(** [begin_download] on the session of the device. *)
Lemma leads_begin_download_session (vs : FirmwareVersionManager.Versions)
  (device : string) (r : nat) (o : OtaUpdateInfo) (t : Z)
  (fv : FirmwareVersion) :
  leads (session_is vs device r o t) (begin_download device fv)
    (returns (fun r' s' =>
       r' = r /\ session_is vs device r (downloading fv o) t s')).
Proof.
  unfold begin_download.
  apply (ContentFacts.leads_then _
           (fun existing s =>
              existing = Some r /\ session_is vs device r o t s)).
  { intros s H. split; [|exact H]. cbn. apply H. }
  intros existing. apply ContentFacts.leads_pure. intros ->.
  apply (ContentFacts.leads_then _
           (fun r' s => r' = r /\ session_is vs device r o t s)).
  { intros s H. split; [reflexivity | exact H]. }
  intros r'. apply ContentFacts.leads_pure. intros ->.
  eapply ContentFacts.leads_then;
    [apply ContentFacts.leads_assign_status|]. intros ?.
  eapply ContentFacts.leads_then;
    [apply ContentFacts.leads_assign_progress|]. intros ?.
  eapply ContentFacts.leads_then; [apply ContentFacts.leads_assign|]. intros ?.
  eapply ContentFacts.leads_then;
    [apply ContentFacts.leads_updates_set|]. intros ?.
  eapply ContentFacts.leads_post; [apply ContentFacts.leads_ret|].
  intros [r'|msg] s H; [|destruct H]. exact H.
Qed.

(** The session [performUpdate] leaves when the catalog has a latest
    version with a URL. *)
Lemma performUpdate_session (net : Network) (device current : string)
  (s0 : State) (fv : FirmwareVersion) (url : string) :
  FirmwareVersionManager.getLatestVersion (versions s0) = Some fv ->
  fileUrl fv = Some url -> url <> "" ->
  let run := performUpdate createHash net device current s0 in
  exists o,
    getUpdateStatus (final run) device = Some o
    /\ deviceId o = device /\ currentVersion o = current
    /\ targetVersion o = Some (version fv)
    /\ startedAt o = Some (clock s0)
    /\ match outcome run with
       | Returned _ =>
           status o = Completed /\ progress o = Some 100
           /\ error o = None /\ completedAt o = Some (clock s0 + 1)
       | Thrown msg =>
           status o = Failed /\ error o = Some msg /\ completedAt o = None
       end.
Proof.
  intros Hlatest Hurl Hne run. subst run.
  set (result :=
         FirmwareVersionManager.needsUpdate (versions s0) current None).
  set (o0 := {| deviceId := device; currentVersion := current;
                targetVersion :=
                  if FirmwareVersionManager.needsUpdate_flag result
                  then version <$> FirmwareVersionManager.latestVersion result
                  else None;
                status := Idle; progress := None; error := None;
                startedAt := Some (clock s0); completedAt := None |}).
  assert (Hres : FirmwareVersionManager.latestVersion result = Some fv).
  { subst result. rewrite LifecycleFacts.latestVersion_of_needsUpdate.
    exact Hlatest. }
  assert (H : leads (fun s => s = s0)
                (performUpdate createHash net device current)
                (fun out s' =>
                   exists o' t',
                     session_is (versions s0) device (length (heap s0)) o' t' s'
                     /\ same_run
                          (match out with
                           | Returned _ =>
                               set_completedAt (clock s0 + 1)
                                 (downloading fv o0)
                           | Thrown _ => downloading fv o0
                           end) o'
                     /\ match out with
                        | Returned _ =>
                            status o' = Completed /\ progress o' = Some 100
                            /\ error o' = error (downloading fv o0)
                        | Thrown msg =>
                            status o' = Failed /\ error o' = Some msg
                        end)).
  { unfold performUpdate.
    eapply ContentFacts.leads_then;
      [apply ContentFacts.leads_checkForUpdate|].
    intros latest. cbv zeta. fold result. fold o0.
    apply ContentFacts.leads_pure. intros ->. rewrite Hres.
    unfold downloadFirmware.
    eapply ContentFacts.leads_then; [apply leads_begin_download_session|].
    intros r. apply ContentFacts.leads_pure. intros ->.
    rewrite Hurl. cbn [truthy_string].
    apply String.eqb_neq in Hne. rewrite Hne. cbn [negb].
    apply ContentFacts.leads_transfer. }
  destruct (H s0 eq_refl) as (o' & t' & Hs & Hsame & Hout).
  exists o'.
  split; [exact (ContentFacts.session_is_getUpdateStatus _ _ _ _ _ _ Hs)|].
  destruct (outcome (performUpdate createHash net device current s0))
    as [data|msg];
    destruct Hsame as (H1 & H2 & H3 & H4 & H5); cbn in H1, H2, H3, H4, H5;
    repeat split; try tauto; congruence.
Qed.

(** The update that goes well. *)
Lemma performUpdate_success
  (net : Network) (device current : string) (s : State)
  (fv : FirmwareVersion) (url : string) (response : Response)
  (stream : list Buffer) :
  FirmwareVersionManager.getLatestVersion (versions s) = Some fv ->
  fileUrl fv = Some url -> url <> "" ->
  downloadCache s !! url = None ->
  net url = FetchResolved response ->
  is_ok response = true ->
  body response = Some (stream, StreamDone) ->
  valid (FirmwareVerifier.verifyIntegrity createHash (concat stream) fv)
  = true ->
  let run := performUpdate createHash net device current s in
  outcome run = Returned (concat stream)
  /\ getUpdateStatus (final run) device
     = Some {| deviceId := device; currentVersion := current;
               targetVersion := Some (version fv); status := Completed;
               progress := Some 100; error := None;
               startedAt := Some (clock s);
               completedAt := Some (clock s + 1) |}
  /\ downloadCache (final run) !! url = Some (concat stream).
Proof.
  intros Hlatest Hurl Hne Hmiss Hnet Hok Hbody Hvalid run. subst run.
  pose proof (performUpdate_session net device current s fv url
                Hlatest Hurl Hne) as Hsession. cbv zeta in Hsession.
  assert (Hcheck : outcome (checkForUpdate device current s)
                   = Returned (Some fv)).
  { rewrite LifecycleFacts.checkForUpdate_returns_latest, Hlatest.
    reflexivity. }
  set (s1 := final (checkForUpdate device current s)).
  destruct (downloadFirmware_by_download net device fv url s1 Hurl Hne)
    as (r & Hr & Ho & Hc). cbv zeta in Ho, Hc.
  assert (Hmiss2 : downloadCache (final (begin_download device fv s1)) !! url
                   = None).
  { rewrite LifecycleFacts.begin_download_keeps_cache. subst s1.
    rewrite checkForUpdate_keeps_cache. exact Hmiss. }
  destruct (TransferFacts.download_miss_success net url
              (Some (progress_callback device r)) _ response stream
              (progress_callback_returns device r) Hmiss2 Hnet Hok Hbody)
    as (Hgot & Hfinal & _).
  rewrite Hgot, Hvalid in Ho. rewrite Hfinal in Hc.
  assert (Hout : outcome (performUpdate createHash net device current s)
                 = Returned (concat stream)).
  { unfold performUpdate.
    rewrite (outcome_bind_returned _ _ s (Some fv) Hcheck). exact Ho. }
  assert (Hcache : downloadCache
                     (final (performUpdate createHash net device current s))
                   !! url = Some (concat stream)).
  { unfold performUpdate.
    rewrite (final_bind_returned _ _ s (Some fv) Hcheck). fold s1.
    rewrite Hc. cbn [downloadCache with_cache]. apply lookup_insert_eq. }
  split; [exact Hout|]. split; [|exact Hcache].
  destruct Hsession as (o & Hget & H1 & H2 & H3 & H4 & H5).
  rewrite Hout in H5. destruct H5 as (H5 & H6 & H7 & H8).
  rewrite Hget. f_equal. destruct o. cbn in *. subst. reflexivity.
Qed.

(** X18.  The whole update, when all goes well.  The catalog's latest
    version has a URL that is not cached, the server answers with a
    complete body, and that body passes [verifyIntegrity]: then
    [performUpdate] returns the body, caches it, and leaves the session of
    the device Completed at 100, for the current version given and the
    latest version as target, with no error, started when the call began
    and completed one tick of the clock later. *)
Theorem performUpdate_installs_the_latest_version
  (net : Network) (device current : string) (s : State)
  (fv : FirmwareVersion) (url : string) (response : Response)
  (stream : list Buffer) :
  FirmwareVersionManager.getLatestVersion (versions s) = Some fv ->
  fileUrl fv = Some url -> url <> "" ->
  downloadCache s !! url = None ->
  net url = FetchResolved response ->
  is_ok response = true ->
  body response = Some (stream, StreamDone) ->
  valid (FirmwareVerifier.verifyIntegrity createHash (concat stream) fv)
  = true ->
  let run := performUpdate createHash net device current s in
  outcome run = Returned (concat stream)
  /\ getUpdateStatus (final run) device
     = Some {| deviceId := device; currentVersion := current;
               targetVersion := Some (version fv); status := Completed;
               progress := Some 100; error := None;
               startedAt := Some (clock s);
               completedAt := Some (clock s + 1) |}
  /\ downloadCache (final run) !! url = Some (concat stream).
Proof. apply performUpdate_success. Qed.

End Update.

Lemma failed_verification_is_not_retried_witness :
  let bad := Sample.firmware "1.0.1" (Some 3)
               (Some "https://fw.example/1.0.1.bin") None None in
  let run := downloadFirmware Sample.count_hash Sample.server "dev-1" bad
               initial_state in
  outcome (downloadFirmware Sample.count_hash Sample.server "dev-2" bad
             (final run))
  = Thrown "Firmware verification failed: File size mismatch: expected 3, got 2".
Proof.
  intros bad run.
  destruct (failed_verification_is_not_retried Sample.count_hash
              Sample.server Sample.server "dev-1" "dev-2" bad
              "https://fw.example/1.0.1.bin" initial_state
              "File size mismatch: expected 3, got 2"
              eq_refl ltac:(discriminate) eq_refl) as (_ & H & _).
  subst run. rewrite H. reflexivity.
Defined.

Lemma performUpdate_installs_the_latest_version_witness :
  let run := performUpdate Sample.count_hash Sample.server "dev-1" "1.0.0"
               Sample.catalog in
  outcome run = Returned Sample.image
  /\ status <$> getUpdateStatus (final run) "dev-1" = Some Completed.
Proof.
  intros run.
  destruct (performUpdate_installs_the_latest_version Sample.count_hash
              Sample.server "dev-1" "1.0.0" Sample.catalog Sample.v101
              "https://fw.example/1.0.1.bin"
              {| status_code := 200; content_length := Some "2";
                 body := Some ([[x01]%byte; [x02]%byte], StreamDone) |}
              [[x01]%byte; [x02]%byte]
              eq_refl eq_refl ltac:(discriminate) eq_refl eq_refl eq_refl
              eq_refl eq_refl) as (Hout & Hget & _).
  split; [exact Hout|]. subst run. rewrite Hget. reflexivity.
Defined.

End UpdateFacts.

(** ** OtaManager: one session per device *)

Module IsolationFacts.

Import RunFacts FirmwareDownloader OtaManager.

Lemma Forall_any_event (l : list Event) : Forall any_event l.
Proof. apply Forall_forall. intros e _. exact Logic.I. Qed.

Section Apart.

Context (other : string) (v : option OtaUpdateInfo).

Lemma apart_same (s s' : State) :
  heap s' = heap s -> updates s' = updates s ->
  apart other v s -> apart other v s'.
Proof.
  intros Hh Hu [Ho Hv]. split.
  - intros device r. rewrite Hu, Hh. apply Ho.
  - unfold getUpdateStatus in *. rewrite Hu, Hh. exact Hv.
Qed.

Section Object.

Context (device : string) (r : nat).
Hypothesis other_device : device <> other.

(** The other session is as it was, and [r] is an object of [device]. *)
Abbreviation working := (fun s => apart other v s /\ holds device r s).

Lemma working_same (s s' : State) :
  heap s' = heap s -> updates s' = updates s -> working s -> working s'.
Proof.
  intros Hh Hu [Ha Hk]. split; [exact (apart_same s s' Hh Hu Ha)|].
  unfold holds. rewrite Hh. exact Hk.
Qed.

Lemma working_elsewhere (f : State -> State) :
  (forall s, heap (f s) = heap s) -> (forall s, updates (f s) = updates s) ->
  ensures working any_event (modify f).
Proof.
  intros Hh Hu s H. split; [|apply Forall_any_event].
  exact (working_same s (f s) (Hh s) (Hu s) H).
Qed.

Lemma working_assign (f : OtaUpdateInfo -> OtaUpdateInfo) :
  (forall o, deviceId (f o) = deviceId o) ->
  ensures working any_event (assign r f).
Proof.
  intros Hid s [[Ho Hv] (o & Hr & Hd)]. split; [|apply Forall_any_event].
  repeat split.
  - intros device' r' Hu. destruct (Ho device' r' Hu) as (o' & Hr' & Hd').
    simpl. rewrite (TrackingFacts.lookup_alter_Some f r r' _ o' Hr').
    eexists. split; [reflexivity|].
    destruct (decide (r = r')); [rewrite Hid|]; exact Hd'.
  - rewrite <- Hv. unfold getUpdateStatus. simpl.
    destruct (updates s !! other) as [r'|] eqn:E; [|reflexivity]. simpl.
    destruct (Ho other r' E) as (o' & Hr' & Hd').
    apply list_lookup_alter_ne. intros <-.
    rewrite Hr in Hr'. injection Hr' as <-. congruence.
  - exists (f o). simpl. rewrite list_lookup_alter_eq, Hr.
    split; [reflexivity | rewrite Hid; exact Hd].
Qed.

Lemma working_emit (e : Event) : ensures working any_event (emit e).
Proof. apply ensures_emit. exact Logic.I. Qed.

Lemma working_assign_status (st : OtaUpdateStatus) :
  ensures working any_event (assign_status device r st).
Proof.
  unfold assign_status. apply ensures_bind; [|intros; apply working_emit].
  apply working_assign. reflexivity.
Qed.

Lemma working_assign_progress (p : Z) :
  ensures working any_event (assign_progress device r p).
Proof.
  unfold assign_progress. apply ensures_bind; [|intros; apply working_emit].
  apply working_assign. reflexivity.
Qed.

Lemma working_updates_set : ensures working any_event (updates_set device r).
Proof.
  intros s [[Ho Hv] Hk]. split; [|apply Forall_any_event].
  split; [split|exact Hk].
  - intros device' r' Hu. simpl in Hu.
    destruct (decide (device = device')) as [<-|Hne].
    + rewrite lookup_insert_eq in Hu. injection Hu as <-. exact Hk.
    + rewrite lookup_insert_ne in Hu by exact Hne. apply (Ho device' r' Hu).
  - rewrite <- Hv. unfold getUpdateStatus. simpl.
    rewrite lookup_insert_ne by exact other_device. reflexivity.
Qed.

Lemma working_new_Date : ensures working any_event new_Date.
Proof.
  intros s H. split; [|apply Forall_any_event].
  exact (working_same s _ eq_refl eq_refl H).
Qed.

Ltac working_step :=
  idtac;
  lazymatch goal with
  | |- ensures _ _ (assign_status _ _ _) => apply working_assign_status
  | |- ensures _ _ (assign_progress _ _ _) => apply working_assign_progress
  | |- ensures _ _ (assign _ _) => apply working_assign; reflexivity
  | |- ensures _ _ (updates_set _ _) => apply working_updates_set
  | |- ensures _ _ new_Date => apply working_new_Date
  | |- ensures _ _ (emit _) => apply working_emit
  end.

Lemma working_progress_callback (cb : Callback) (p : DownloadProgress) :
  Some (progress_callback device r) = Some cb ->
  ensures working any_event (cb p).
Proof.
  intros [= <-]. unfold progress_callback. split_run working_step.
Qed.

Lemma working_cancel :
  ensures working any_event
    (assign_status device r Failed ;;;
     assign r (set_error "Update cancelled by user") ;;;
     updates_set device r).
Proof. split_run working_step. Qed.

Lemma working_mark_downloading (fv : FirmwareVersion) :
  ensures working any_event
    (assign_status device r Downloading ;;;
     assign_progress device r 0 ;;;
     assign r (set_targetVersion (version fv)) ;;;
     updates_set device r ;;;
     ret r).
Proof. split_run working_step. Qed.

Lemma working_check (current : string) :
  ensures working any_event
    (emit (EvStatus device Checking) ;;;
     updates_set device r ;;;
     try_catch (check_catalog device current r) (check_failed device r)).
Proof. unfold check_catalog, check_failed. split_run working_step. Qed.

Context (createHash : HashAlgorithm -> Buffer -> string).

Lemma working_transfer (net : Network) (fv : FirmwareVersion) (url : string) :
  ensures working any_event
    (try_catch
       (let* firmwareData :=
          download net url (Some (progress_callback device r)) in
        verify_downloaded createHash device r fv firmwareData)
       (record_failure device r)).
Proof.
  unfold verify_downloaded, record_failure.
  split_run ltac:(idtac;
                  lazymatch goal with
                  | |- ensures _ _ (download _ _ _) =>
                      apply DownloaderFacts.download_ensures;
                      [apply working_progress_callback
                      | intros; exact Logic.I
                      | intros s0 _ _; split; [exact Logic.I|];
                        intros buffer; apply working_elsewhere; reflexivity]
                  | |- _ => working_step
                  end).
Qed.

End Object.

Lemma apart_new_object (o : OtaUpdateInfo) (s : State) :
  apart other v s ->
  apart other v (final (new_object o s))
  /\ holds (deviceId o) (length (heap s)) (final (new_object o s)).
Proof.
  intros [Ho Hv]. repeat split.
  - intros device r Hu. destruct (Ho device r Hu) as (o' & Hr & Hd).
    exists o'. split; [|exact Hd]. simpl.
    apply lookup_app_l_Some. exact Hr.
  - rewrite <- Hv. unfold getUpdateStatus. simpl.
    destruct (updates s !! other) as [r|] eqn:E; [|reflexivity]. simpl.
    destruct (Ho other r E) as (o' & Hr & _). rewrite Hr.
    apply lookup_app_l_Some. exact Hr.
  - exists o. split; [|reflexivity]. simpl. apply list_lookup_middle.
    reflexivity.
Qed.

Context (createHash : HashAlgorithm -> Buffer -> string).

Lemma begin_download_apart (device : string) (fv : FirmwareVersion)
  (s : State) :
  device <> other -> apart other v s ->
  exists r,
    outcome (begin_download device fv s) = Returned r
    /\ apart other v (final (begin_download device fv s))
    /\ holds device r (final (begin_download device fv s)).
Proof.
  intros Hne Ha. destruct (updates s !! device) as [r|] eqn:E.
  - assert (Hk : holds device r s) by (apply (proj1 Ha), E).
    exists r.
    pose proof (proj1 (working_mark_downloading device r Hne fv s
                         (conj Ha Hk))) as H.
    unfold begin_download, updates_get, bind, get_state in *. simpl in *.
    rewrite E. simpl. split; [reflexivity | exact H].
  - set (o := {| deviceId := device; currentVersion := "";
                 targetVersion := None; status := Idle;
                 progress := None; error := None;
                 startedAt := None; completedAt := None |}).
    destruct (apart_new_object o s Ha) as [Ha0 Hk0].
    exists (length (heap s)).
    pose proof (proj1 (working_mark_downloading device (length (heap s)) Hne
                         fv _ (conj Ha0 Hk0))) as H.
    unfold begin_download, updates_get, bind, get_state in *. simpl in *.
    rewrite E. simpl. split; [reflexivity | exact H].
Qed.

Lemma downloadFirmware_apart (net : Network) (device : string)
  (fv : FirmwareVersion) (s : State) :
  device <> other -> apart other v s ->
  apart other v (final (downloadFirmware createHash net device fv s)).
Proof.
  intros Hne Ha.
  destruct (begin_download_apart device fv s Hne Ha) as (r & Hr & Ha1 & Hk1).
  unfold downloadFirmware. rewrite (final_bind_returned _ _ s r Hr).
  destruct (fileUrl fv) as [url|]; [|exact Ha1].
  destruct (negb _); [exact Ha1|].
  exact (proj1 (proj1 (working_transfer device r Hne createHash net fv url _
                         (conj Ha1 Hk1)))).
Qed.

Lemma checkForUpdate_apart (device current : string) (s : State) :
  device <> other -> apart other v s ->
  apart other v (final (checkForUpdate device current s)).
Proof.
  intros Hne Ha.
  set (o := {| deviceId := device; currentVersion := current;
               targetVersion := None; status := Checking;
               progress := None; error := None;
               startedAt := Some (clock s); completedAt := None |}).
  assert (Ha' : apart other v (final (new_Date s))).
  { apply (apart_same s); [reflexivity | reflexivity | exact Ha]. }
  destruct (apart_new_object o _ Ha') as [Ha0 Hk0].
  exact (proj1 (proj1 (working_check device (length (heap s)) Hne current _
                         (conj Ha0 Hk0)))).
Qed.

Lemma cancelUpdate_apart (device : string) (s : State) :
  device <> other -> apart other v s ->
  apart other v (final (cancelUpdate device s)).
Proof.
  intros Hne Ha. unfold cancelUpdate.
  erewrite final_bind_returned by reflexivity.
  change (final (updates_get device s)) with s. cbv beta.
  destruct (updates s !! device) as [r|] eqn:E; [|exact Ha].
  assert (Hk : holds device r s) by (apply (proj1 Ha), E).
  erewrite final_bind_returned by reflexivity.
  change (final (get_state s)) with s. cbv beta.
  destruct (heap s !! r) as [o|]; [|exact Ha].
  destruct (decide (status o = Downloading)); [|exact Ha].
  exact (proj1 (proj1 (working_cancel device r Hne s (conj Ha Hk)))).
Qed.

Lemma clearUpdate_apart (device : string) (s : State) :
  device <> other -> apart other v s ->
  apart other v (final (clearUpdate device s)).
Proof.
  intros Hne [Ho Hv]. split.
  - intros device' r Hu. simpl in Hu.
    apply lookup_delete_Some in Hu. destruct Hu as [_ Hu].
    apply (Ho device' r Hu).
  - rewrite <- Hv. unfold getUpdateStatus. simpl.
    rewrite lookup_delete_ne by exact Hne. reflexivity.
Qed.

Lemma plain_download_apart (net : Network) (url : string) (report : bool)
  (s : State) :
  apart other v s ->
  apart other v
    (final (download net url
              (if report then Some silent_callback else None) s)).
Proof.
  intros Ha.
  refine (proj1 (DownloaderFacts.download_ensures (apart other v) any_event
                   _ _ _ net url _ s Ha)).
  - intros cb p H. destruct report; [|discriminate H].
    injection H as <-. apply ensures_ret.
  - intros p. exact Logic.I.
  - intros s0 _ _. split; [exact Logic.I|]. intros buffer s1 H1.
    split; [|apply Forall_any_event].
    exact (apart_same s1 _ eq_refl eq_refl H1).
Qed.

Lemma performUpdate_apart (net : Network) (device current : string)
  (s : State) :
  device <> other -> apart other v s ->
  apart other v (final (performUpdate createHash net device current s)).
Proof.
  intros Hne Ha. unfold performUpdate.
  pose proof (checkForUpdate_apart device current s Hne Ha) as Hc.
  destruct (outcome (checkForUpdate device current s)) as [[latest|]|] eqn:C.
  - rewrite (final_bind_returned _ _ s _ C). cbv beta iota.
    apply downloadFirmware_apart; assumption.
  - rewrite (final_bind_returned _ _ s _ C). cbv beta iota.
    rewrite final_throw. exact Hc.
  - rewrite (final_bind_thrown _ _ s _ C). exact Hc.
Qed.

Lemma run_op_apart (op : Op) (s : State) :
  concerns other op = false -> apart other v s ->
  apart other v (final (run_op createHash op s)).
Proof.
  intros Hop Ha. destruct op; cbn [run_op concerns] in *;
    try (apply String.eqb_neq in Hop).
  - exact (apart_same s _ eq_refl eq_refl Ha).
  - rewrite attempt_final. apply checkForUpdate_apart; assumption.
  - rewrite attempt_final. apply downloadFirmware_apart; assumption.
  - rewrite attempt_final. apply performUpdate_apart; assumption.
  - apply cancelUpdate_apart; assumption.
  - apply clearUpdate_apart; assumption.
  - rewrite attempt_final. apply plain_download_apart, Ha.
  - exact (apart_same s _ eq_refl eq_refl Ha).
Qed.

Lemma run_ops_apart (ops : list Op) :
  Forall (fun op => concerns other op = false) ops ->
  forall s, apart other v s -> apart other v (final (run_ops createHash ops s)).
Proof.
  induction 1 as [|op rest Hop _ IH]; intros s Ha; [exact Ha|].
  cbn [run_ops]. unfold bind.
  pose proof (run_op_apart op s Hop Ha) as H1.
  destruct (outcome (run_op createHash op s)); cbn [final];
    [apply IH, H1 | exact H1].
Qed.

End Apart.

Section Sessions.

Context (createHash : HashAlgorithm -> Buffer -> string).

(** X19.  The sessions of different devices do not interfere: whatever
    calls are made for other devices (checkForUpdate, downloadFirmware,
    performUpdate, cancelUpdate, clearUpdate), and whatever is done to the
    catalog and to the downloader, [getUpdateStatus] of a device returns
    what it returned before. *)
Theorem sessions_do_not_interfere
  (ops : list Op) (s : State) (device : string) :
  sessions_owned s ->
  Forall (fun op => concerns device op = false) ops ->
  getUpdateStatus (final (run_ops createHash ops s)) device
  = getUpdateStatus s device.
Proof.
  intros Ho Hops.
  apply (run_ops_apart device (getUpdateStatus s device) createHash ops Hops s).
  split; [exact Ho | reflexivity].
Qed.

(** X20.  On a manager that starts with no session, after any sequence of
    calls: the session [getUpdateStatus] returns for a device carries that
    device's id; every device that is in the map has a session to return;
    and two devices never share a session object. *)
Theorem every_session_belongs_to_its_device
  (ops : list Op) (s : State) :
  pristine s ->
  let s' := final (run_ops createHash ops s) in
  (forall device o, getUpdateStatus s' device = Some o -> deviceId o = device)
  /\ (forall device, is_Some (updates s' !! device) ->
                     is_Some (getUpdateStatus s' device))
  /\ (forall d1 d2 r, updates s' !! d1 = Some r -> updates s' !! d2 = Some r ->
                      d1 = d2).
Proof.
  intros Hp s'.
  destruct (TrackingFacts.run_ops_tracked createHash ops s []
              (TrackingFacts.pristine_tracked s Hp)) as [Ho _].
  fold s' in Ho. repeat split.
  - intros device o Hget. unfold getUpdateStatus in Hget.
    destruct (updates s' !! device) as [r|] eqn:E; [|discriminate Hget].
    simpl in Hget. destruct (Ho device r E) as (o' & Hr & Hd). congruence.
  - intros device [r E]. destruct (Ho device r E) as (o & Hr & _).
    exists o. unfold getUpdateStatus. rewrite E. exact Hr.
  - intros d1 d2 r H1 H2.
    destruct (Ho d1 r H1) as (o1 & Hr1 & Hd1).
    destruct (Ho d2 r H2) as (o2 & Hr2 & Hd2). congruence.
Qed.

End Sessions.

Lemma sessions_do_not_interfere_witness :
  let s := final (checkForUpdate "dev-1" "1.0.0" Sample.catalog) in
  getUpdateStatus
    (final (run_ops Sample.count_hash
              [PerformUpdate Sample.server "dev-2" "0.9.0";
               CancelUpdate "dev-2"; ClearUpdate "dev-3"; ClearCache] s))
    "dev-1"
  = getUpdateStatus s "dev-1".
Proof.
  intros s.
  apply (sessions_do_not_interfere Sample.count_hash).
  - exact (proj1 (TrackingFacts.checkForUpdate_tracked "dev-1" "1.0.0"
                    Sample.catalog []
                    (TrackingFacts.pristine_tracked Sample.catalog
                       (conj eq_refl eq_refl)))).
  - repeat constructor.
Defined.

Lemma every_session_belongs_to_its_device_witness :
  exists o,
    getUpdateStatus
      (final (run_ops Sample.count_hash
                [PerformUpdate Sample.server "dev-1" "1.0.0"] Sample.catalog))
      "dev-1" = Some o
    /\ deviceId o = "dev-1".
Proof.
  eexists. split; [vm_compute; reflexivity|].
  apply (proj1 (every_session_belongs_to_its_device Sample.count_hash
                  [PerformUpdate Sample.server "dev-1" "1.0.0"] Sample.catalog
                  (conj eq_refl eq_refl)) "dev-1").
  vm_compute. reflexivity.
Defined.

End IsolationFacts.

(** ** OtaManager: calls that have nothing to do *)

Module EdgeFacts.

Import RunFacts FirmwareDownloader OtaManager.

Lemma checkForUpdate_fetches_nothing (device current : string) (s : State) :
  Forall (fun e => is_fetch e = false) (events (checkForUpdate device current s)).
Proof.
  assert (H : ensures any_state (fun e => is_fetch e = false)
                (checkForUpdate device current)).
  { unfold checkForUpdate, check_catalog, check_failed, assign_status.
    split_run fail;
      (let s := fresh "s" in
       intros s _; split; [exact Logic.I | repeat constructor]). }
  exact (proj2 (H s Logic.I)).
Qed.

(** What [cancelUpdate] does, by the session it finds. *)
Lemma cancelUpdate_run (device : string) (s : State) :
  cancelUpdate device s
  = match updates s !! device with
    | Some r =>
        match heap s !! r with
        | Some o =>
            if decide (status o = Downloading) then
              {| outcome := Returned tt;
                 final :=
                   with_updates (fun u => <[device := r]> u)
                     (with_heap
                        (alter (set_error "Update cancelled by user") r)
                        (with_heap (alter (set_status Failed) r) s));
                 events := [EvStatus device Failed] |}
            else ret tt s
        | None => ret tt s
        end
    | None => ret tt s
    end.
Proof.
  unfold cancelUpdate, updates_get.
  rewrite (bind_returned _ _ s (updates s !! device)) by reflexivity.
  cbn [final events get_state bind ret outcome app].
  destruct (updates s !! device) as [r|]; [|reflexivity].
  rewrite (bind_returned _ _ s s) by reflexivity.
  cbn [final events get_state ret outcome app].
  destruct (heap s !! r) as [o|]; [|reflexivity].
  destruct (decide (status o = Downloading)); reflexivity.
Qed.

Section Edge.

Context (createHash : HashAlgorithm -> Buffer -> string).

(** X21.  [cancelUpdate] never throws, and it acts only on a session that
    is Downloading: that session becomes Failed with the error "Update
    cancelled by user" and nothing else in it changes.  For a device
    without a session, or whose session is in any other status, the call
    changes nothing at all; this is the case once a [downloadFirmware] of
    a firmware with a URL has returned or thrown. *)
Theorem cancelUpdate_only_fails_a_download (device : string) (s : State) :
  let run := cancelUpdate device s in
  outcome run = Returned tt
  /\ (forall o,
        getUpdateStatus s device = Some o -> status o = Downloading ->
        getUpdateStatus (final run) device
        = Some (set_error "Update cancelled by user" (set_status Failed o))
        /\ events run = [EvStatus device Failed])
  /\ ((forall o, getUpdateStatus s device = Some o -> status o <> Downloading) ->
      final run = s /\ events run = [])
  /\ (forall net fv url s0,
        sessions_owned s0 -> fileUrl fv = Some url -> url <> "" ->
        s = final (downloadFirmware createHash net device fv s0) ->
        final run = s).
Proof.
  intros run. subst run. rewrite cancelUpdate_run.
  assert (Hnoop : (forall o, getUpdateStatus s device = Some o ->
                             status o <> Downloading) ->
                  final (cancelUpdate device s) = s
                  /\ events (cancelUpdate device s) = []).
  { intros Hno. rewrite cancelUpdate_run. unfold getUpdateStatus in Hno.
    destruct (updates s !! device) as [r|]; [|split; reflexivity].
    simpl in Hno. destruct (heap s !! r) as [o|]; [|split; reflexivity].
    destruct (decide (status o = Downloading)) as [Hd|];
      [|split; reflexivity].
    destruct (Hno o eq_refl Hd). }
  rewrite cancelUpdate_run in Hnoop.
  split; [|split; [|split]].
  - destruct (updates s !! device) as [r|]; [|reflexivity].
    destruct (heap s !! r) as [o|]; [|reflexivity].
    destruct (decide (status o = Downloading)); reflexivity.
  - intros o Hget Hst. unfold getUpdateStatus in *.
    destruct (updates s !! device) as [r|]; [|discriminate Hget].
    simpl in Hget. rewrite Hget.
    destruct (decide (status o = Downloading)); [|contradiction].
    cbn [final events updates heap with_updates with_heap].
    rewrite lookup_insert_eq. simpl.
    rewrite !list_lookup_alter_eq, Hget. split; reflexivity.
  - exact Hnoop.
  - intros net fv url s0 Ho Hurl Hne Hs. apply Hnoop.
    intros o Hget Hst.
    destruct (ContentFacts.downloadFirmware_session createHash net device fv
                url s0 Ho Hurl Hne) as (o' & Hget' & _ & _ & _ & _ & Hout).
    rewrite <- Hs in Hget'. rewrite Hget in Hget'. injection Hget' as <-.
    destruct (outcome (downloadFirmware createHash net device fv s0));
      destruct Hout as [Hout _]; congruence.
Qed.

(** X22.  [performUpdate] on a catalog without a latest version (an empty
    catalog) throws "No update available" without fetching anything and
    without touching the cache; but the session it leaves is the one of a
    successful check: Idle, with no error and no target version. *)
Theorem performUpdate_without_versions_leaves_idle
  (net : Network) (device current : string) (s : State) :
  FirmwareVersionManager.getLatestVersion (versions s) = None ->
  let run := performUpdate createHash net device current s in
  outcome run = Thrown "No update available"
  /\ getUpdateStatus (final run) device
     = Some {| deviceId := device; currentVersion := current;
               targetVersion := None; status := Idle; progress := None;
               error := None; startedAt := Some (clock s);
               completedAt := None |}
  /\ Forall (fun e => is_fetch e = false) (events run)
  /\ downloadCache (final run) = downloadCache s.
Proof.
  intros Hlatest run. subst run.
  assert (Hcheck : outcome (checkForUpdate device current s) = Returned None).
  { rewrite LifecycleFacts.checkForUpdate_returns_latest, Hlatest.
    reflexivity. }
  unfold performUpdate.
  rewrite (outcome_bind_returned _ _ s None Hcheck),
    (final_bind_returned _ _ s None Hcheck),
    (events_bind_returned _ _ s None Hcheck).
  cbv beta iota. rewrite final_throw, events_throw, app_nil_r.
  split; [reflexivity|]. split; [|split].
  - pose proof (ContentFacts.leads_checkForUpdate device current s s eq_refl)
      as H. cbv zeta in H. rewrite Hcheck in H. cbn [returns] in H.
    destruct H as [_ H].
    rewrite (ContentFacts.session_is_getUpdateStatus _ _ _ _ _ _ H).
    unfold FirmwareVersionManager.needsUpdate. rewrite Hlatest. reflexivity.
  - apply checkForUpdate_fetches_nothing.
  - apply UpdateFacts.checkForUpdate_keeps_cache.
Qed.

End Edge.

Lemma cancelUpdate_only_fails_a_download_witness :
  let s := final (downloadFirmware Sample.count_hash Sample.server "dev-1"
                    Sample.no_url initial_state) in
  status <$> getUpdateStatus s "dev-1" = Some Downloading
  /\ status <$> getUpdateStatus (final (cancelUpdate "dev-1" s)) "dev-1"
     = Some Failed.
Proof.
  intros s. split; [vm_compute; reflexivity|].
  destruct (proj1 (proj2 (cancelUpdate_only_fails_a_download
                            Sample.count_hash "dev-1" s))
              {| deviceId := "dev-1"; currentVersion := "";
                 targetVersion := Some "1.0.1"; status := Downloading;
                 progress := Some 0; error := None; startedAt := None;
                 completedAt := None |}
              ltac:(vm_compute; reflexivity) eq_refl) as [H _].
  rewrite H. reflexivity.
Defined.

Lemma performUpdate_without_versions_leaves_idle_witness :
  let run := performUpdate Sample.count_hash Sample.server "dev-1" "1.0.0"
               initial_state in
  outcome run = Thrown "No update available"
  /\ status <$> getUpdateStatus (final run) "dev-1" = Some Idle.
Proof.
  intros run.
  destruct (performUpdate_without_versions_leaves_idle Sample.count_hash
              Sample.server "dev-1" "1.0.0" initial_state eq_refl)
    as (Hout & Hget & _).
  split; [exact Hout|]. subst run. rewrite Hget. reflexivity.
Defined.

End EdgeFacts.

(** ** FirmwareVersionManager: the version format *)

Module FormatFacts.

Import Regex VersionFormat.

Lemma nullable_Matches (r : Re) : nullable r = true <-> Matches r [].
Proof.
  split.
  - induction r as [| |p|r1 IH1 r2 IH2|r1 IH1 r2 IH2|r IH]; simpl;
      try discriminate.
    + constructor.
    + intros H. apply andb_true_iff in H. destruct H as [H1 H2].
      apply (MSeq r1 r2 [] []); auto.
    + intros H. apply orb_true_iff in H.
      destruct H as [H|H]; [apply MAltL | apply MAltR]; auto.
    + constructor.
  - intros H. remember [] as cs eqn:E.
    induction H as [|p c Hp|r1 r2 a b H1 IH1 H2 IH2|r1 r2 a H IH|r1 r2 a H IH
                   |r|r a b H1 IH1 H2 IH2]; simpl; try reflexivity.
    + discriminate E.
    + apply app_eq_nil in E. destruct E as [-> ->].
      rewrite IH1, IH2; reflexivity.
    + rewrite IH by exact E. reflexivity.
    + rewrite IH by exact E. apply orb_true_r.
Qed.

Lemma derive_sound (c : ascii) (r : Re) :
  forall cs, Matches (derive c r) cs -> Matches r (c :: cs).
Proof.
  induction r as [| |p|r1 IH1 r2 IH2|r1 IH1 r2 IH2|r IH]; simpl; intros cs H.
  - inversion H.
  - inversion H.
  - destruct (p c) eqn:Hp; inversion H; subst. constructor. exact Hp.
  - destruct (nullable r1) eqn:N.
    + inversion H as [| | |? ? ? H'|? ? ? H'| |]; subst.
      * inversion H' as [| |? ? a b Ha Hb| | | |]; subst.
        apply (MSeq r1 r2 (c :: a) b); auto.
      * apply (MSeq r1 r2 [] (c :: cs)); [apply nullable_Matches, N | auto].
    + inversion H as [| |? ? a b Ha Hb| | | |]; subst.
      apply (MSeq r1 r2 (c :: a) b); auto.
  - inversion H; subst; [apply MAltL | apply MAltR]; auto.
  - inversion H as [| |? ? a b Ha Hb| | | |]; subst.
    apply (MStarCons r (c :: a) b); auto.
Qed.

Lemma derive_complete (r : Re) (l : list ascii) :
  Matches r l -> forall c cs, l = c :: cs -> Matches (derive c r) cs.
Proof.
  induction 1 as [|p c0 Hp|r1 r2 a b H1 IH1 H2 IH2|r1 r2 a H IH|r1 r2 a H IH
                 |r|r a b H1 IH1 H2 IH2]; intros c cs E; simpl.
  - discriminate E.
  - injection E as -> <-. rewrite Hp. constructor.
  - destruct a as [|c' a'].
    + simpl in E. apply nullable_Matches in H1. rewrite H1.
      apply MAltR, IH2, E.
    + simpl in E. injection E as -> <-.
      specialize (IH1 c a' eq_refl).
      destruct (nullable r1); [apply MAltL|]; constructor; assumption.
  - apply MAltL, IH, E.
  - apply MAltR, IH, E.
  - discriminate E.
  - destruct a as [|c' a'].
    + simpl in E. apply (IH2 c cs E).
    + simpl in E. injection E as -> <-.
      constructor; [apply IH1; reflexivity | exact H2].
Qed.

(** The matcher decides the strings the expression stands for. *)
Lemma matches_Matches (cs : list ascii) :
  forall r, matches r cs = true <-> Matches r cs.
Proof.
  induction cs as [|c cs IH]; intros r; simpl.
  - apply nullable_Matches.
  - rewrite IH. split; [apply derive_sound|].
    intros H. exact (derive_complete r _ H c cs eq_refl).
Qed.

Lemma Matches_Seq (r1 r2 : Re) (cs : list ascii) :
  Matches (Seq r1 r2) cs
  <-> exists a b, cs = (a ++ b)%list /\ Matches r1 a /\ Matches r2 b.
Proof.
  split.
  - inversion 1; subst. eauto.
  - intros (a & b & -> & Ha & Hb). constructor; assumption.
Qed.

Lemma Matches_Class (p : ascii -> bool) (cs : list ascii) :
  Matches (Class p) cs <-> exists c, cs = [c] /\ p c = true.
Proof.
  split.
  - inversion 1; subst. eauto.
  - intros (c & -> & Hp). constructor. exact Hp.
Qed.

Lemma Matches_char (c : ascii) (cs : list ascii) :
  Matches (char c) cs <-> cs = [c].
Proof.
  unfold char. rewrite Matches_Class. split.
  - intros (c' & -> & H). apply Ascii.eqb_eq in H. subst. reflexivity.
  - intros ->. exists c. split; [reflexivity | apply Ascii.eqb_refl].
Qed.

Lemma Matches_Star_Class (p : ascii -> bool) (cs : list ascii) :
  Matches (Star (Class p)) cs <-> forallb p cs = true.
Proof.
  split.
  - intros H. remember (Star (Class p)) as r eqn:E.
    induction H as [| | | | |r'|r' a b H1 _ H2 IH2]; try discriminate E.
    + reflexivity.
    + injection E as ->. inversion H1 as [|? c Hc| | | | |]; subst. simpl.
      rewrite IH2 by reflexivity. rewrite Hc. reflexivity.
  - induction cs as [|c cs IH]; simpl; intros H; [constructor|].
    apply andb_true_iff in H. destruct H as [Hc Hcs].
    apply (MStarCons (Class p) [c] cs); [constructor; exact Hc | auto].
Qed.

Lemma Matches_plus_Class (p : ascii -> bool) (cs : list ascii) :
  Matches (plus (Class p)) cs <-> cs <> [] /\ forallb p cs = true.
Proof.
  unfold plus. rewrite Matches_Seq. split.
  - intros (a & b & -> & Ha & Hb).
    apply Matches_Class in Ha. destruct Ha as (c & -> & Hc).
    apply Matches_Star_Class in Hb. simpl. rewrite Hc, Hb.
    split; [discriminate | reflexivity].
  - intros [Hne H]. destruct cs as [|c cs]; [congruence|].
    simpl in H. apply andb_true_iff in H. destruct H as [Hc Hcs].
    exists [c], cs. split; [reflexivity|].
    split; [constructor; exact Hc | apply Matches_Star_Class, Hcs].
Qed.

Lemma Matches_opt (r : Re) (cs : list ascii) :
  Matches (opt r) cs <-> Matches r cs \/ cs = [].
Proof.
  unfold opt. split.
  - inversion 1 as [| | |? ? ? H'|? ? ? H'| |]; subst; [left; exact H'|].
    inversion H'. right. reflexivity.
  - intros [H| ->]; [apply MAltL, H | apply MAltR; constructor].
Qed.

Lemma Matches_digits (cs : list ascii) :
  Matches (plus digit) cs <-> digits_only cs.
Proof. apply Matches_plus_Class. Qed.

Lemma isValidVersion_shape (version : string) :
  isValidVersion version = true -> version_shape (Js.chars version).
Proof.
  unfold isValidVersion, version_pattern. rewrite matches_Matches.
  rewrite Matches_Seq. unfold version_shape.
  intros (major & r1 & -> & Hmajor & H).
  apply Matches_Seq in H. destruct H as (dot & r2 & -> & Hdot & H).
  apply Matches_char in Hdot. subst dot.
  apply Matches_Seq in H. destruct H as (minor & r3 & -> & Hminor & H).
  apply Matches_Seq in H. destruct H as (patch & suffix & -> & Hpatch & Hsuffix).
  exists major, minor, patch, suffix.
  split; [reflexivity|].
  split; [apply Matches_digits, Hmajor|].
  split; [apply Matches_digits, Hminor|]. split.
  - apply Matches_opt in Hpatch. destruct Hpatch as [Hp|Hp]; [|left; exact Hp].
    right. apply Matches_Seq in Hp. destruct Hp as (d & p & -> & Hd & Hp).
    apply Matches_char in Hd. subst d. exists p.
    split; [reflexivity | apply Matches_digits, Hp].
  - apply Matches_opt in Hsuffix.
    destruct Hsuffix as [Hs|Hs]; [|left; exact Hs].
    right. apply Matches_Seq in Hs. destruct Hs as (h & rest & -> & Hh & Hr).
    apply Matches_char in Hh. subst h. exists rest.
    split; [reflexivity | apply Matches_Star_Class, Hr].
Qed.

(** X23.  [isValidVersion] accepts exactly the strings made of a major and
    a minor number (non-empty runs of the digits 0-9) separated by a dot,
    then optionally a dot and a patch number, then optionally a hyphen
    followed by any characters other than line breaks; nothing may come
    before or after. *)
Theorem isValidVersion_accepts_exactly_the_format (version : string) :
  isValidVersion version = true <-> version_shape (Js.chars version).
Proof.
  split; [apply isValidVersion_shape|].
  unfold isValidVersion, version_pattern. rewrite matches_Matches.
  rewrite Matches_Seq.
  intros (major & minor & patch & suffix & E & Hmajor & Hminor & Hpatch
          & Hsuffix). rewrite E.
    exists major, ("."%char :: minor ++ patch ++ suffix)%list.
    split; [reflexivity|]. split; [apply Matches_digits, Hmajor|].
    apply Matches_Seq. exists ["."%char], (minor ++ patch ++ suffix)%list.
    split; [reflexivity|]. split; [apply Matches_char; reflexivity|].
    apply Matches_Seq. exists minor, (patch ++ suffix)%list.
    split; [reflexivity|]. split; [apply Matches_digits, Hminor|].
    apply Matches_Seq. exists patch, suffix. split; [reflexivity|]. split.
    + apply Matches_opt. destruct Hpatch as [->|(p & -> & Hp)];
        [right; reflexivity|].
      left. apply Matches_Seq. exists ["."%char], p.
      split; [reflexivity|]. split; [apply Matches_char; reflexivity|].
      apply Matches_digits, Hp.
    + apply Matches_opt. destruct Hsuffix as [->|(rest & -> & Hr)];
        [right; reflexivity|].
      left. apply Matches_Seq. exists ["-"%char], rest.
      split; [reflexivity|]. split; [apply Matches_char; reflexivity|].
      apply Matches_Star_Class, Hr.
Qed.

(** The characters of a segment are characters of the string, and none is
    the separator. *)
Lemma split_chars (sep : ascii) (s : string) :
  forall seg, In seg (Js.split sep s) ->
              forall c, In c (Js.chars seg) -> In c (Js.chars s) /\ c <> sep.
Proof.
  induction s as [|c0 rest IH]; intros seg Hseg c Hc.
  - simpl in Hseg. destruct Hseg as [<-|[]]. destruct Hc.
  - simpl in Hseg. destruct (Ascii.eqb c0 sep) eqn:E.
    + destruct Hseg as [<-|Hseg]; [destruct Hc|].
      destruct (IH seg Hseg c Hc) as [Hin Hne].
      split; [right; exact Hin | exact Hne].
    + apply Ascii.eqb_neq in E.
      destruct (Js.split sep rest) as [|seg0 segs] eqn:Es.
      * destruct Hseg as [<-|[]]. destruct Hc as [<-|[]].
        split; [left; reflexivity | exact E].
      * destruct Hseg as [<-|Hseg].
        -- destruct Hc as [<-|Hc]; [split; [left; reflexivity | exact E]|].
           destruct (IH seg0 (or_introl eq_refl) c Hc) as [Hin Hne].
           split; [right; exact Hin | exact Hne].
        -- destruct (IH seg (or_intror Hseg) c Hc) as [Hin Hne].
           split; [right; exact Hin | exact Hne].
Qed.

(** A version of the format without a hyphen is made of digits and dots. *)
Lemma release_is_plain (version : string) :
  version_shape (Js.chars version) ->
  ~ In "-"%char (Js.chars version) ->
  plain version = true.
Proof.
  intros (major & minor & patch & suffix & E & [_ Hmajor] & [_ Hminor]
          & Hpatch & Hsuffix) Hno.
  assert (Hs : suffix = []).
  { destruct Hsuffix as [->|(rest & -> & _)]; [reflexivity|].
    exfalso. apply Hno. rewrite E.
    apply in_or_app. right. right.
    apply in_or_app. right. apply in_or_app. right. left. reflexivity. }
  subst suffix. rewrite app_nil_r in E.
  assert (Hall : forall c, In c (Js.chars version) ->
                           Js.is_digit c = true \/ c = "."%char).
  { intros c Hc. rewrite E in Hc.
    apply in_app_or in Hc. destruct Hc as [Hc|[<-|Hc]];
      [left; exact (proj1 (forallb_forall _ _) Hmajor c Hc) | right; reflexivity|].
    apply in_app_or in Hc. destruct Hc as [Hc|Hc];
      [left; exact (proj1 (forallb_forall _ _) Hminor c Hc)|].
    destruct Hpatch as [->|(p & -> & _ & Hp)]; [destruct Hc|].
    destruct Hc as [<-|Hc]; [right; reflexivity|].
    left. exact (proj1 (forallb_forall _ _) Hp c Hc). }
  unfold plain. apply forallb_forall. intros seg Hseg.
  apply forallb_forall. intros c Hc.
  destruct (split_chars "." version seg Hseg c Hc) as [Hin Hne].
  destruct (Hall c Hin) as [Hd|Hd]; [exact Hd | contradiction].
Qed.



Lemma isValidVersion_accepts_exactly_the_format_witness :
  isValidVersion "1.2.3-beta.1" = true
  /\ isValidVersion "1.2.3.4" = false
  /\ isValidVersion "v1.2" = false
  /\ version_shape (Js.chars "1.2.3-beta.1").
Proof.
  split; [reflexivity|]. split; [reflexivity|]. split; [reflexivity|].
  apply (proj1 (isValidVersion_accepts_exactly_the_format "1.2.3-beta.1")).
  reflexivity.
Defined.

End FormatFacts.

(** ** FirmwareVersionManager and OtaManager: publishing a release *)

Module ReleaseFacts.

Import RunFacts FirmwareVersionManager.

Lemma In_map_set (k : string) (fv v : FirmwareVersion) (m : Versions) :
  In v (map snd (map_set k fv m)) -> v = fv \/ In v (map snd m).
Proof.
  induction m as [|[k' v'] rest IH]; simpl.
  - intros [<-|[]]. left. reflexivity.
  - destruct (String.eqb k' k); simpl.
    + intros [<-|H]; [left; reflexivity | right; right; exact H].
    + intros [<-|H]; [right; left; reflexivity|].
      destruct (IH H) as [->|H']; [left; reflexivity | right; right; exact H'].
Qed.

Lemma map_set_In (k : string) (fv : FirmwareVersion) (m : Versions) :
  In fv (map snd (map_set k fv m)).
Proof.
  induction m as [|[k' v'] rest IH]; simpl; [left; reflexivity|].
  destruct (String.eqb k' k); simpl; [left; reflexivity | right; exact IH].
Qed.

Lemma newest_is_latest (k : string) (fv : FirmwareVersion) (catalog : Versions) :
  (forall v, In v (getAllVersions catalog) -> date_key v < date_key fv) ->
  getLatestVersion (registerVersion k fv catalog) = Some fv.
Proof.
  intros Hnew. unfold getLatestVersion, registerVersion, getAllVersions in *.
  cbv zeta.
  pose proof (map_set_In k fv catalog) as Hin.
  destruct (map snd (map_set k fv catalog)) as [|x rest] eqn:E; [destruct Hin|].
  cbn [length Nat.eqb]. rewrite <- E in *. clear x rest E.
  destruct (head (sort_by_date (map snd (map_set k fv catalog)))) as [h|] eqn:Eh.
  - destruct (CatalogFacts.head_sort_by_date _ h Eh)
      as (before & after & Esplit & Hb & Ha).
    assert (Hh : In h (map snd (map_set k fv catalog))).
    { rewrite Esplit. apply in_or_app. right. left. reflexivity. }
    destruct (In_map_set k fv h catalog Hh) as [->|Hold]; [reflexivity|].
    specialize (Hnew h Hold). exfalso.
    rewrite Esplit in Hin. apply in_app_or in Hin.
    destruct Hin as [Hin|[->|Hin]].
    + specialize (Hb fv Hin). lia.
    + lia.
    + specialize (Ha fv Hin). lia.
  - exfalso. destruct (map snd (map_set k fv catalog)) as [|x rest];
      [destruct Hin|].
    simpl in Eh.
    pose proof (CatalogFacts.sort_insert_not_nil x (sort_by_date rest)) as Hn.
    destruct (sort_insert x (sort_by_date rest)); [congruence | discriminate Eh].
Qed.

(** X25.  Publishing a release that is newer by date than everything in
    the catalog makes it the latest version, whether its key is new or
    replaces an older entry; [checkForUpdate] then returns it to every
    device, and [needsUpdate] reports it as the latest version. *)
Theorem newer_release_becomes_the_latest
  (k : string) (fv : FirmwareVersion) (s : State) :
  (forall v, In v (getAllVersions (versions s)) -> date_key v < date_key fv) ->
  let s' := with_versions (registerVersion k fv) s in
  getLatestVersion (versions s') = Some fv
  /\ (forall current,
        latestVersion (needsUpdate (versions s') current None) = Some fv)
  /\ (forall device current,
        outcome (OtaManager.checkForUpdate device current s')
        = Returned (Some fv)).
Proof.
  intros Hnew s'. subst s'. cbn [versions with_versions].
  pose proof (newest_is_latest k fv (versions s) Hnew) as H.
  split; [exact H|]. split.
  - intros current. rewrite LifecycleFacts.latestVersion_of_needsUpdate.
    exact H.
  - intros device current.
    rewrite LifecycleFacts.checkForUpdate_returns_latest.
    cbn [versions with_versions]. rewrite H. reflexivity.
Qed.

Lemma newer_release_becomes_the_latest_witness :
  outcome (OtaManager.checkForUpdate "dev-1" "1.0.0"
             (with_versions
                (registerVersion "1.1.0"
                   {| version := "1.1.0"; description := None;
                      releaseDate := Some 1800000000000; fileSize := None;
                      fileUrl := None; checksum := None; signature := None;
                      forceUpdate := None; supportedDevices := None |})
                Sample.catalog))
  = Returned
      (Some {| version := "1.1.0"; description := None;
               releaseDate := Some 1800000000000; fileSize := None;
               fileUrl := None; checksum := None; signature := None;
               forceUpdate := None; supportedDevices := None |}).
Proof.
  apply (newer_release_becomes_the_latest "1.1.0" _ Sample.catalog).
  intros v [<-|[]]. reflexivity.
Defined.

End ReleaseFacts.

(** ** OtaManager: the progress of a first download *)

Module ProgressFacts.

Import RunFacts FirmwareDownloader OtaManager.

Lemma progress_writes_app (device : string) (l1 l2 : list Event) :
  progress_writes device (l1 ++ l2)
  = (progress_writes device l1 ++ progress_writes device l2)%list.
Proof.
  induction l1 as [|e l1 IH]; [reflexivity|].
  destruct e; simpl; rewrite ?IH; try reflexivity.
  destruct (String.eqb device0 device); rewrite ?IH; reflexivity.
Qed.

Lemma non_decreasing_drop (pre post : list Z) (x y : Z) :
  y < x -> non_decreasing (pre ++ x :: y :: post) = false.
Proof.
  intros Hlt. induction pre as [|a pre IH].
  - simpl. apply Z.leb_gt in Hlt. rewrite Hlt. reflexivity.
  - destruct pre as [|b pre']; simpl in *; rewrite IH; apply andb_false_r.
Qed.

Section Progress.

Context (device : string) (r : nat) (declared : option Z).

Abbreviation percentages downloaded stream :=
  (if positive declared
   then map (fun d => percent d (default 0 declared)) (running downloaded stream)
   else []).

Lemma read_loop_progress (stream : list Buffer) (stream_end : StreamEnd) :
  forall chunks downloaded s,
    progress_writes device
      (events (read_loop (Some (progress_callback device r)) declared stream
                 stream_end chunks downloaded s))
    = percentages downloaded stream.
Proof.
  induction stream as [|value rest IH]; intros chunks downloaded s.
  - simpl. destruct stream_end, (positive declared); reflexivity.
  - cbn [read_loop running].
    erewrite events_bind_returned
      by (apply (TransferFacts.report_step_returns
                   (Some (progress_callback device r)) declared
                   (UpdateFacts.progress_callback_returns device r))).
    rewrite progress_writes_app, IH.
    destruct (positive declared); [|reflexivity].
    cbn [map]. unfold call, progress_callback, assign_progress, assign.
    cbn. rewrite String.eqb_refl. reflexivity.
Qed.

End Progress.

Section Download.

Context (createHash : HashAlgorithm -> Buffer -> string).

(** The values written to the session's progress by a first download that
    succeeds. *)
Lemma fresh_download_progress (net : Network) (device : string)
  (fv : FirmwareVersion) (url : string) (s : State) (response : Response)
  (stream : list Buffer) :
  fileUrl fv = Some url -> url <> "" ->
  downloadCache s !! url = None ->
  net url = FetchResolved response ->
  is_ok response = true ->
  body response = Some (stream, StreamDone) ->
  valid (FirmwareVerifier.verifyIntegrity createHash (concat stream) fv)
  = true ->
  let declared := total_of (content_length response) in
  progress_writes device (events (downloadFirmware createHash net device fv s))
  = (0 :: (if positive declared
           then map (fun d => percent d (default 0 declared)) (running 0 stream)
           else [])
       ++ [90; 100])%list.
Proof.
  intros Hurl Hne Hmiss Hnet Hok Hbody Hvalid declared.
  destruct (CompletionFacts.begin_download_returns device fv s) as [r Hr].
  set (s1 := final (begin_download device fv s)).
  assert (Hmiss1 : downloadCache s1 !! url = None).
  { subst s1. rewrite LifecycleFacts.begin_download_keeps_cache. exact Hmiss. }
  destruct (TransferFacts.download_miss_success net url
              (Some (progress_callback device r)) s1 response stream
              (UpdateFacts.progress_callback_returns device r)
              Hmiss1 Hnet Hok Hbody) as (Hgot & _ & Hev).
  unfold downloadFirmware. rewrite (events_bind_returned _ _ s r Hr).
  fold s1. rewrite Hurl. cbn [truthy_string].
  apply String.eqb_neq in Hne. rewrite Hne. cbn [negb].
  rewrite LifecycleFacts.begin_download_events.
  assert (Hv : outcome (verify_downloaded createHash device r fv (concat stream)
                          (final (download net url
                                    (Some (progress_callback device r)) s1)))
               = Returned (concat stream)).
  { pose proof (CompletionFacts.verify_downloaded_outcome createHash device r
                  fv (concat stream)
                  (final (download net url
                            (Some (progress_callback device r)) s1))) as H.
    cbv zeta in H. rewrite Hvalid in H. exact H. }
  rewrite (try_catch_returned _ _ s1 (concat stream))
    by (rewrite (outcome_bind_returned _ _ s1 _ Hgot); exact Hv).
  rewrite (events_bind_returned _ _ s1 _ Hgot), Hev.
  pose proof (CompletionFacts.verify_downloaded_events createHash device r fv
                (concat stream)
                (final (download net url
                          (Some (progress_callback device r)) s1))) as He.
  cbv zeta in He. rewrite Hvalid in He. rewrite He.
  rewrite !progress_writes_app. cbn [progress_writes app].
  rewrite (read_loop_progress device r _ stream StreamDone [] 0 s1).
  rewrite !String.eqb_refl. reflexivity.
Qed.


End Download.


End ProgressFacts.

(** ** OtaManager: trying again *)

Module RetryFacts.

Import RunFacts FirmwareDownloader OtaManager.

Section Retry.

Context (createHash : HashAlgorithm -> Buffer -> string).

Lemma performUpdate_keeps_versions (net : Network) (device current : string)
  (s : State) :
  versions (final (performUpdate createHash net device current s)) = versions s.
Proof.
  assert (H : ensures (fun s' => versions s' = versions s) any_event
                (performUpdate createHash net device current)).
  { unfold performUpdate, checkForUpdate, check_catalog, check_failed,
      downloadFirmware, begin_download, verify_downloaded, record_failure,
      assign_status, assign_progress, updates_get.
    split_run ltac:(idtac;
                    lazymatch goal with
                    | |- ensures _ _ (download _ _ _) =>
                        apply DownloaderFacts.download_ensures;
                        [intros cb p [= <-]
                        | intros; exact Logic.I
                        | intros ? _ _; split; [exact Logic.I|];
                          intros buffer]
                    end);
      (let s' := fresh "s" in
       let H' := fresh "H" in
       intros s' H'; split;
       [exact H' | apply IsolationFacts.Forall_any_event]). }
  exact (proj1 (H s eq_refl)).
Qed.

(** [performUpdate] when the transport fails. *)
Lemma performUpdate_transport_failure (net : Network)
  (device current : string) (s : State) (fv : FirmwareVersion)
  (url cause : string) :
  FirmwareVersionManager.getLatestVersion (versions s) = Some fv ->
  fileUrl fv = Some url -> url <> "" ->
  downloadCache s !! url = None ->
  fails_with (net url) cause ->
  let run := performUpdate createHash net device current s in
  outcome run = Thrown ("Firmware download failed: " +:+ cause)
  /\ downloadCache (final run) = downloadCache s.
Proof.
  intros Hlatest Hurl Hne Hmiss Hfail run. subst run.
  assert (Hcheck : outcome (checkForUpdate device current s)
                   = Returned (Some fv)).
  { rewrite LifecycleFacts.checkForUpdate_returns_latest, Hlatest.
    reflexivity. }
  set (s1 := final (checkForUpdate device current s)).
  destruct (UpdateFacts.downloadFirmware_by_download createHash net device fv
              url s1 Hurl Hne) as (r & Hr & Ho & Hc). cbv zeta in Ho, Hc.
  set (s2 := final (begin_download device fv s1)) in *.
  assert (Hcache2 : downloadCache s2 = downloadCache s).
  { subst s2 s1. rewrite LifecycleFacts.begin_download_keeps_cache.
    apply UpdateFacts.checkForUpdate_keeps_cache. }
  assert (Hmiss2 : downloadCache s2 !! url = None)
    by (rewrite Hcache2; exact Hmiss).
  pose proof (TransferFacts.download_miss_failure net url
                (Some (progress_callback device r)) s2
                (UpdateFacts.progress_callback_returns device r) Hmiss2
                cause Hfail) as Hgot.
  rewrite Hgot in Ho.
  unfold performUpdate.
  rewrite (outcome_bind_returned _ _ s (Some fv) Hcheck),
    (final_bind_returned _ _ s (Some fv) Hcheck).
  fold s1. split; [exact Ho|].
  rewrite Hc, <- Hcache2.
  apply (TransferFacts.download_thrown_keeps_cache net url _ s2 _
           (UpdateFacts.progress_callback_returns device r)
           (UpdateFacts.progress_callback_keeps_cache device r) Hgot).
Qed.

(** X27.  A transport failure is not held against the firmware.  When the
    download of the latest version fails (rejected fetch, status outside
    200-299, no body, or a stream that breaks), [performUpdate] throws
    "Firmware download failed: " and the cause, the session is Failed with
    that message as its error, and the cache is as before.  A second
    [performUpdate], with a server that now sends a body that passes the
    verification, returns that body and leaves the session Completed,
    without an error. *)
Theorem failed_transport_is_retried
  (net net' : Network) (device current : string) (s : State)
  (fv : FirmwareVersion) (url cause : string) (response : Response)
  (stream : list Buffer) :
  FirmwareVersionManager.getLatestVersion (versions s) = Some fv ->
  fileUrl fv = Some url -> url <> "" ->
  downloadCache s !! url = None ->
  fails_with (net url) cause ->
  net' url = FetchResolved response ->
  is_ok response = true ->
  body response = Some (stream, StreamDone) ->
  valid (FirmwareVerifier.verifyIntegrity createHash (concat stream) fv)
  = true ->
  let run := performUpdate createHash net device current s in
  let retry := performUpdate createHash net' device current (final run) in
  outcome run = Thrown ("Firmware download failed: " +:+ cause)
  /\ (exists o, getUpdateStatus (final run) device = Some o
                /\ status o = Failed
                /\ error o = Some ("Firmware download failed: " +:+ cause))
  /\ downloadCache (final run) = downloadCache s
  /\ outcome retry = Returned (concat stream)
  /\ (exists o, getUpdateStatus (final retry) device = Some o
                /\ status o = Completed /\ error o = None).
Proof.
  intros Hlatest Hurl Hne Hmiss Hfail Hnet' Hok Hbody Hvalid run retry.
  subst run retry.
  destruct (performUpdate_transport_failure net device current s fv url cause
              Hlatest Hurl Hne Hmiss Hfail) as [Hout Hcache].
  split; [exact Hout|]. split; [|split; [exact Hcache|]].
  - destruct (UpdateFacts.performUpdate_session createHash net device current
                s fv url Hlatest Hurl Hne) as (o & Hget & _ & _ & _ & _ & H).
    rewrite Hout in H. exists o. split; [exact Hget|].
    split; [apply H | apply H].
  - assert (Hlatest' : FirmwareVersionManager.getLatestVersion
                         (versions (final (performUpdate createHash net device
                                             current s))) = Some fv).
    { rewrite performUpdate_keeps_versions. exact Hlatest. }
    assert (Hmiss' : downloadCache
                       (final (performUpdate createHash net device current s))
                     !! url = None).
    { rewrite Hcache. exact Hmiss. }
    destruct (UpdateFacts.performUpdate_success createHash net' device current
                _ fv url response stream Hlatest' Hurl Hne Hmiss' Hnet' Hok
                Hbody Hvalid) as (Ho & Hget & _).
    split; [exact Ho|]. eexists. split; [exact Hget|]. split; reflexivity.
Qed.

End Retry.

Lemma failed_transport_is_retried_witness :
  let run := performUpdate Sample.count_hash Sample.offline "dev-1" "1.0.0"
               Sample.catalog in
  outcome run = Thrown "Firmware download failed: fetch failed"
  /\ outcome (performUpdate Sample.count_hash Sample.server "dev-1" "1.0.0"
                (final run))
     = Returned Sample.image.
Proof.
  intros run.
  destruct (failed_transport_is_retried Sample.count_hash Sample.offline
              Sample.server "dev-1" "1.0.0" Sample.catalog Sample.v101
              "https://fw.example/1.0.1.bin" "fetch failed"
              {| status_code := 200; content_length := Some "2";
                 body := Some ([[x01]%byte; [x02]%byte], StreamDone) |}
              [[x01]%byte; [x02]%byte]
              eq_refl eq_refl ltac:(discriminate) eq_refl eq_refl eq_refl
              eq_refl eq_refl eq_refl) as (H1 & _ & _ & H2 & _).
  split; [exact H1 | exact H2].
Defined.

End RetryFacts.

(** ** FirmwareVersionManager: upgrades by version *)

Module UpgradeFacts.

Import FirmwareVersionManager.

Lemma compareVersions_below (a b c : string) :
  compareVersions a b <= 0 -> compareVersions b c < 0 ->
  compareVersions a c < 0.
Proof.
  set (n := Nat.max (length (Js.split "." a))
              (Nat.max (length (Js.split "." b)) (length (Js.split "." c)))).
  rewrite (OrderingFacts.compareVersions_padded a b n),
    (OrderingFacts.compareVersions_padded b c n),
    (OrderingFacts.compareVersions_padded a c n) by lia.
  intros Hab Hbc.
  apply (OrderingFacts.compare_loop_trans _ _ _ n 0%nat Hab); lia.
Qed.

Lemma filter_sublist_impl {A} (P Q : A -> Prop)
  `{forall x, Decision (P x)} `{forall x, Decision (Q x)} (l : list A) :
  (forall x, P x -> Q x) -> filter P l `sublist_of` filter Q l.
Proof.
  intros Himpl. induction l as [|x l IH]; [constructor|].
  rewrite !filter_cons.
  destruct (decide (P x)) as [Hp|Hp].
  - destruct (decide (Q x)) as [Hq|Hq]; [|destruct (Hq (Himpl x Hp))].
    apply sublist_skip, IH.
  - destruct (decide (Q x)); [apply sublist_cons, IH | exact IH].
Qed.

(** X28.  The further along a device is, the fewer upgrades it is
    offered: if version [a] is not above version [b], every firmware
    [getUpgradeableVersions] lists for [b] is listed for [a] as well, in
    the same order. *)
Theorem upgrades_shrink_with_the_version
  (catalog : Versions) (a b : string) :
  compareVersions a b <= 0 ->
  getUpgradeableVersions catalog b `sublist_of` getUpgradeableVersions catalog a.
Proof.
  intros Hab. unfold getUpgradeableVersions.
  apply filter_sublist_impl. intros v Hv.
  exact (compareVersions_below a b (version v) Hab Hv).
Qed.

Lemma upgrades_shrink_with_the_version_witness :
  getUpgradeableVersions [("1.0.1", Sample.v101)] "1.0.1"
  `sublist_of` getUpgradeableVersions [("1.0.1", Sample.v101)] "1.0.0".
Proof.
  apply (upgrades_shrink_with_the_version [("1.0.1", Sample.v101)]
           "1.0.0" "1.0.1").
  vm_compute. discriminate.
Defined.

End UpgradeFacts.

(** ** OtaManager: the statuses of a session between calls *)

Module RestFacts.

Import RunFacts FirmwareDownloader OtaManager.

(** A statement that does not assign Installing. *)
Ltac quiet_step :=
  let s := fresh "s" in
  intros s _; split; [exact Logic.I | repeat constructor; discriminate].

Lemma owned_tracked (s : State) :
  sessions_owned s -> exists trace, tracked s trace.
Proof.
  intros Ho. exists (map (fun o => EvStatus (deviceId o) Completed) (heap s)).
  split; [exact Ho|]. intros r o Hr _.
  apply (in_map (fun o => EvStatus (deviceId o) Completed)).
  apply list_elem_of_In, (list_elem_of_lookup_2 _ r), Hr.
Qed.

Section Rest.

Context (createHash : HashAlgorithm -> Buffer -> string).

Lemma run_op_owned (op : Op) (s : State) :
  sessions_owned s -> sessions_owned (final (run_op createHash op s)).
Proof.
  intros Ho. destruct (owned_tracked s Ho) as [trace Ht].
  exact (proj1 (TrackingFacts.run_op_tracked createHash op s trace Ht)).
Qed.

Lemma download_is_quiet (net : Network) (url : string)
  (onProgress : option Callback) :
  (forall cb p, onProgress = Some cb -> ensures any_state not_installing (cb p)) ->
  ensures any_state not_installing (download net url onProgress).
Proof.
  intros Hcb. apply DownloaderFacts.download_ensures.
  - exact Hcb.
  - intros p device'. discriminate.
  - intros ? _ _. split; [intros device'; discriminate|].
    intros buffer. quiet_step.
Qed.

Lemma manager_call_is_quiet (net : Network) (device current : string)
  (fv : FirmwareVersion) :
  ensures any_state not_installing (checkForUpdate device current)
  /\ ensures any_state not_installing
       (downloadFirmware createHash net device fv)
  /\ ensures any_state not_installing
       (performUpdate createHash net device current).
Proof.
  split; [|split];
    unfold performUpdate, checkForUpdate, check_catalog, check_failed,
      downloadFirmware, begin_download, verify_downloaded, record_failure,
      assign_status, assign_progress, updates_get;
    split_run ltac:(idtac;
                    lazymatch goal with
                    | |- ensures _ _ (download _ _ _) =>
                        apply download_is_quiet;
                        let cb := fresh "cb" in
                        let p := fresh "p" in
                        intros cb p [= <-]
                    end);
    quiet_step.
Qed.

Lemma cancelUpdate_is_quiet (device : string) :
  ensures any_state not_installing (cancelUpdate device).
Proof.
  unfold cancelUpdate, assign_status, updates_get.
  split_run fail; quiet_step.
Qed.

Lemma run_op_is_quiet (op : Op) :
  ensures any_state not_installing (run_op createHash op).
Proof.
  destruct op as [k firmware|device current|net device firmware
                 |net device current|device|device|net url report|];
    cbn [run_op].
  - quiet_step.
  - apply ensures_attempt.
    apply (manager_call_is_quiet (fun _ => FetchRejected "") device current
             Sample.v101).
  - apply ensures_attempt.
    apply (manager_call_is_quiet net device "" firmware).
  - apply ensures_attempt.
    apply (manager_call_is_quiet net device current Sample.v101).
  - apply cancelUpdate_is_quiet.
  - quiet_step.
  - apply ensures_attempt, download_is_quiet.
    intros cb p E. destruct report; [|discriminate E].
    injection E as <-. quiet_step.
  - quiet_step.
Qed.

Lemma run_ops_is_quiet (ops : list Op) :
  ensures any_state not_installing (run_ops createHash ops).
Proof.
  induction ops as [|op rest IH]; cbn [run_ops]; [apply ensures_ret|].
  apply ensures_bind; [apply run_op_is_quiet | intros; exact IH].
Qed.

Lemma checkForUpdate_rest (device current : string) (s : State) :
  exists o,
    getUpdateStatus (final (checkForUpdate device current s)) device = Some o
    /\ status o = Idle.
Proof.
  pose proof (ContentFacts.leads_checkForUpdate device current s s eq_refl)
    as H. cbv zeta in H.
  destruct (outcome (checkForUpdate device current s)); cbn [returns] in H;
    [|destruct H].
  destruct H as [_ H]. eexists.
  split; [exact (ContentFacts.session_is_getUpdateStatus _ _ _ _ _ _ H)|].
  reflexivity.
Qed.

Lemma downloadFirmware_rest (net : Network) (device : string)
  (fv : FirmwareVersion) (s : State) :
  sessions_owned s ->
  exists o,
    getUpdateStatus (final (downloadFirmware createHash net device fv s)) device
    = Some o
    /\ at_rest (status o).
Proof.
  intros Ho. destruct (truthy_string (fileUrl fv)) eqn:Htruthy.
  - destruct (fileUrl fv) as [url|] eqn:Hurl; [|discriminate Htruthy].
    assert (Hne : url <> "").
    { intros ->. discriminate Htruthy. }
    destruct (ContentFacts.downloadFirmware_session createHash net device fv
                url s Ho Hurl Hne) as (o & Hget & _ & _ & _ & _ & Hout).
    exists o. split; [exact Hget|].
    destruct (outcome (downloadFirmware createHash net device fv s));
      destruct Hout as [Hst _]; rewrite Hst; unfold at_rest; tauto.
  - assert (H : leads (fun s' => s' = s)
                  (downloadFirmware createHash net device fv)
                  (fun _ s' =>
                     exists r,
                       session_is (versions s) device r
                         (downloading fv (session_before s device))
                         (clock s) s')).
    { unfold downloadFirmware.
      eapply ContentFacts.leads_then;
        [apply ContentFacts.leads_begin_download, Ho|].
      intros r. destruct (fileUrl fv) as [url|].
      - rewrite Htruthy. cbn [negb]. intros s' H'. exists r. exact H'.
      - intros s' H'. exists r. exact H'. }
    destruct (H s eq_refl) as [r Hs]. eexists.
    split; [exact (ContentFacts.session_is_getUpdateStatus _ _ _ _ _ _ Hs)|].
    right. left. reflexivity.
Qed.

Lemma checkForUpdate_owned (device current : string) (s : State) :
  sessions_owned s -> sessions_owned (final (checkForUpdate device current s)).
Proof.
  intros Ho.
  pose proof (run_op_owned (CheckForUpdate device current) s Ho) as H.
  cbn [run_op] in H. rewrite attempt_final in H. exact H.
Qed.

Lemma performUpdate_rest (net : Network) (device current : string)
  (s : State) :
  sessions_owned s ->
  exists o,
    getUpdateStatus (final (performUpdate createHash net device current s))
      device = Some o
    /\ at_rest (status o).
Proof.
  intros Ho. unfold performUpdate.
  destruct (checkForUpdate_rest device current s) as (o & Hget & Hst).
  destruct (outcome (checkForUpdate device current s)) as [[latest|]|] eqn:C.
  - rewrite (final_bind_returned _ _ s _ C). cbv beta iota.
    apply downloadFirmware_rest, checkForUpdate_owned, Ho.
  - rewrite (final_bind_returned _ _ s _ C). cbv beta iota.
    rewrite final_throw. exists o. split; [exact Hget|].
    left. exact Hst.
  - rewrite (final_bind_thrown _ _ s _ C). exists o.
    split; [exact Hget | left; exact Hst].
Qed.

Lemma run_op_rest (op : Op) (s : State) :
  sessions_owned s -> sessions_at_rest s ->
  sessions_at_rest (final (run_op createHash op s)).
Proof.
  intros Ho Hrest device' o Hget.
  destruct (concerns device' op) eqn:Hc.
  - destruct op as [k firmware|device current|net device firmware
                   |net device current|device|device|net url report|];
      cbn [concerns] in Hc; try discriminate Hc;
      apply String.eqb_eq in Hc; subst device';
      cbn [run_op] in Hget; rewrite ?attempt_final in Hget.
    + destruct (checkForUpdate_rest device current s) as (o' & Hget' & Hst).
      rewrite Hget in Hget'. injection Hget' as <-. left. exact Hst.
    + destruct (downloadFirmware_rest net device firmware s Ho)
        as (o' & Hget' & Hst).
      rewrite Hget in Hget'. injection Hget' as <-. exact Hst.
    + destruct (performUpdate_rest net device current s Ho)
        as (o' & Hget' & Hst).
      rewrite Hget in Hget'. injection Hget' as <-. exact Hst.
    + rewrite EdgeFacts.cancelUpdate_run in Hget.
      destruct (updates s !! device) as [r|] eqn:E;
        [|exact (Hrest device o Hget)].
      destruct (heap s !! r) as [o0|] eqn:E0; [|exact (Hrest device o Hget)].
      destruct (decide (status o0 = Downloading));
        [|exact (Hrest device o Hget)].
      unfold getUpdateStatus in Hget.
      cbn [final updates heap with_updates with_heap] in Hget.
      rewrite lookup_insert_eq in Hget. simpl in Hget.
      rewrite !list_lookup_alter_eq, E0 in Hget. injection Hget as <-.
      right. right. right. reflexivity.
    + unfold getUpdateStatus in Hget. simpl in Hget.
      rewrite lookup_delete_eq in Hget. discriminate Hget.
  - pose proof (IsolationFacts.run_op_apart device'
                  (getUpdateStatus s device') createHash op s Hc
                  (conj Ho eq_refl)) as [_ Hsame].
    rewrite Hsame in Hget. exact (Hrest device' o Hget).
Qed.

Lemma run_ops_rest (ops : list Op) :
  forall s, sessions_owned s -> sessions_at_rest s ->
            sessions_at_rest (final (run_ops createHash ops s)).
Proof.
  induction ops as [|op rest IH]; intros s Ho Hrest; [exact Hrest|].
  cbn [run_ops]. unfold bind.
  pose proof (run_op_owned op s Ho) as Ho1.
  pose proof (run_op_rest op s Ho Hrest) as Hr1.
  destruct (outcome (run_op createHash op s)); cbn [final];
    [apply IH; assumption | exact Hr1].
Qed.

(** X29.  Between two calls a session is never Checking, Verifying or
    Installing.  On a manager that starts without sessions, after any
    sequence of calls (each one awaited), the status of every session is
    Idle, Downloading, Completed or Failed; and Installing is never
    assigned to any session at any time. *)
Theorem sessions_rest_between_calls (ops : list Op) (s : State) :
  pristine s ->
  (forall device o,
      getUpdateStatus (final (run_ops createHash ops s)) device = Some o ->
      at_rest (status o))
  /\ Forall not_installing (events (run_ops createHash ops s)).
Proof.
  intros [Hu Hh]. split.
  - apply run_ops_rest.
    + intros device r H. rewrite Hu, lookup_empty in H. discriminate H.
    + intros device o H. unfold getUpdateStatus in H.
      rewrite Hu, lookup_empty in H. discriminate H.
  - exact (proj2 (run_ops_is_quiet ops s Logic.I)).
Qed.

End Rest.

Lemma sessions_rest_between_calls_witness :
  exists o,
    getUpdateStatus
      (final (run_ops Sample.count_hash
                [CheckForUpdate "dev-1" "1.0.0";
                 DownloadFirmware Sample.offline "dev-1" Sample.v101]
                Sample.catalog)) "dev-1" = Some o
    /\ at_rest (status o).
Proof.
  eexists. split; [vm_compute; reflexivity|].
  apply (proj1 (sessions_rest_between_calls Sample.count_hash
                  [CheckForUpdate "dev-1" "1.0.0";
                   DownloadFirmware Sample.offline "dev-1" Sample.v101]
                  Sample.catalog (conj eq_refl eq_refl)) "dev-1").
  vm_compute. reflexivity.
Defined.

End RestFacts.
